(** * The dashboard snapshot module ([dashboard/modules/snapshot/snapshot_head.py])

    A shallow embedding of the [APIHead] request handlers and of the helpers
    they call, followed by the properties of those handlers.

    Conventions of the embedding:
    - a Python [str] is a Rocq [string] whose characters are the code points
      U+0000 to U+00FF; [bytes] is [list byte];
    - a raised exception is the [Raise] branch of [result];
    - what a handler sends upstream (GCS stubs) is returned next to its
      result, as the list of the calls it issued, in order;
    - Python objects that are mutated after they have been shared (the
      dictionaries built by [get_actor_info]) live in an explicit heap. *)

From Stdlib Require Import ZArith List String Ascii Bool Lia DecimalString.
From Stdlib.Strings Require Import Byte.
From stdpp Require Import base list.
Import ListNotations.
Local Open Scope string_scope.
Local Open Scope list_scope.
Local Open Scope Z_scope.

(** ** Exceptions and results

    [Stuck] is not a Python exception: it is the outcome of a step that no
    Python state allows (following a reference to no object). *)

Inductive exn : Type :=
| KeyError (key : string)
| TypeError
| AttributeError
| ValueError
| JSONDecodeError
| UnicodeDecodeError
| RuntimeError
| UpstreamError (what : string)
| Stuck.

Inductive result (A : Type) : Type :=
| Ok (a : A)
| Raise (e : exn).
Arguments Ok {A} a.
Arguments Raise {A} e.

#[global] Instance result_ret : MRet result := @Ok.
#[global] Instance result_bind : MBind result := fun A B k r =>
  match r with
  | Ok a => k a
  | Raise e => Raise e
  end.

Definition raises {A} (r : result A) : bool :=
  match r with Ok _ => false | Raise _ => true end.

Abbreviation bytes := (list byte).

(** ** Python built-ins used by the handlers *)

Module Py.

Definition code (c : ascii) : N := N_of_ascii c.

(** [str.startswith]. *)
Fixpoint startswith (s p : string) : bool :=
  match p, s with
  | EmptyString, _ => true
  | String b p', String a s' => Ascii.eqb a b && startswith s' p'
  | String _ _, EmptyString => false
  end.

(** [needle in haystack] on strings. *)
Fixpoint contains (hay needle : string) : bool :=
  startswith hay needle ||
  match hay with
  | EmptyString => false
  | String _ hay' => contains hay' needle
  end.

(** Characters with [Numeric_Type=Decimal], with their value: below U+0100
    these are the ASCII digits. *)
Definition decimal_value (c : ascii) : option Z :=
  let n := code c in
  if ((48 <=? n) && (n <=? 57))%N then Some (Z.of_N n - 48) else None.

(** Characters with [Numeric_Type=Digit] or [Decimal]: below U+0100 the
    ASCII digits and the superscripts U+00B2, U+00B3 and U+00B9. *)
Definition isdigit_char (c : ascii) : bool :=
  let n := code c in
  ((48 <=? n) && (n <=? 57) || (n =? 178) || (n =? 179) || (n =? 185))%N.

Fixpoint all_chars (p : ascii -> bool) (s : string) : bool :=
  match s with
  | EmptyString => true
  | String c s' => p c && all_chars p s'
  end.

(** [str.isdigit]: every character is a digit and there is at least one. *)
Definition isdigit (s : string) : bool :=
  match s with
  | EmptyString => false
  | _ => all_chars isdigit_char s
  end.

(** Truth value of a string. *)
Definition truthy (s : string) : bool :=
  match s with EmptyString => false | _ => true end.

(** White space in the sense of [str.strip], below U+0100. *)
Definition isspace_char (c : ascii) : bool :=
  let n := code c in
  ((9 <=? n) && (n <=? 13) || (28 <=? n) && (n <=? 32)
   || (n =? 133) || (n =? 160))%N.

Fixpoint lstrip (s : list ascii) : list ascii :=
  match s with
  | c :: s' => if isspace_char c then lstrip s' else s
  | [] => []
  end.

Definition strip (s : list ascii) : list ascii :=
  rev (lstrip (rev (lstrip s))).

(** The digits of a decimal literal: groups of decimal characters separated
    by single underscores.  [acc] is the value read so far and [prev] tells
    whether the previous character was a digit. *)
Fixpoint int_digits (acc : Z) (prev : bool) (s : list ascii) : option Z :=
  match s with
  | [] => if prev then Some acc else None
  | c :: s' =>
      match decimal_value c with
      | Some d => int_digits (10 * acc + d) true s'
      | None =>
          if (code c =? 95)%N && prev then int_digits acc false s' else None
      end
  end.

(** The default of [sys.int_max_str_digits]: [int] refuses a decimal
    literal that has more digits. *)
Definition int_max_str_digits : Z := 4300.

(** The number of digits of a literal; the underscores are not counted. *)
Definition count_digits (s : list ascii) : Z :=
  Z.of_nat
    (List.length
       (List.filter
          (fun c => match decimal_value c with Some _ => true | None => false end)
          s)).

(** [int(s)] for a string [s], base ten. *)
Definition int (s : string) : result Z :=
  let body := strip (list_ascii_of_string s) in
  let '(negative, ds) :=
    match body with
    | c :: r =>
        if (code c =? 43)%N then (false, r)
        else if (code c =? 45)%N then (true, r)
        else (false, body)
    | [] => (false, body)
    end in
  match int_digits 0 false ds with
  | Some n =>
      if int_max_str_digits <? count_digits ds then Raise ValueError
      else Ok (if negative then - n else n)
  | None => Raise ValueError
  end.

(** [str(n)] for a natural number, as an f-string renders it. *)
Definition str_of_nat (n : nat) : string :=
  NilZero.string_of_uint (Nat.to_uint n).

Definition hex_digit (n : N) : ascii :=
  ascii_of_N (if (n <? 10)%N then 48 + n else 87 + n).

(** [bytes.hex]. *)
Fixpoint hex (b : bytes) : string :=
  match b with
  | [] => EmptyString
  | x :: b' =>
      let n := Byte.to_N x in
      String (hex_digit (n / 16)) (String (hex_digit (n mod 16)) (hex b'))
  end.

Definition hex_value (c : ascii) : option N :=
  let n := code c in
  if ((48 <=? n) && (n <=? 57))%N then Some (n - 48)%N
  else if ((97 <=? n) && (n <=? 102))%N then Some (n - 87)%N
  else if ((65 <=? n) && (n <=? 70))%N then Some (n - 55)%N
  else None.

Definition ascii_space (c : ascii) : bool :=
  let n := code c in ((9 <=? n) && (n <=? 13) || (n =? 32))%N.

Definition byte_of_N (n : N) : byte :=
  match Byte.of_N n with Some b => b | None => x00 end.

(** [bytes.fromhex]: two hexadecimal digits per byte, ASCII white space
    between bytes skipped. *)
Fixpoint fromhex_chars (s : list ascii) : result bytes :=
  match s with
  | [] => Ok []
  | c :: s' =>
      if ascii_space c then fromhex_chars s'
      else
        match hex_value c, s' with
        | Some hi, c2 :: s'' =>
            match hex_value c2 with
            | Some lo =>
                match fromhex_chars s'' with
                | Ok b => Ok (byte_of_N (16 * hi + lo) :: b)
                | Raise e => Raise e
                end
            | None => Raise ValueError
            end
        | _, _ => Raise ValueError
        end
  end.

Definition fromhex (s : string) : result bytes :=
  fromhex_chars (list_ascii_of_string s).

End Py.

(** ** Request queries

    [req.query] is a multi-dictionary of strings; [get] returns the first
    value stored under the key, and the default when there is none. *)

Definition query := list (string * string).

Fixpoint query_get (key : string) (q : query) : option string :=
  match q with
  | [] => None
  | (k, v) :: q' => if String.eqb k key then Some v else query_get key q'
  end.

(** [dashboard_optional_utils.rest_response(success, message, **kwargs)]:
    the envelope, with the keyword payload [P]. *)
Record rest_response (P : Type) : Type := {
  success : bool;
  message : string;
  payload : P
}.
Arguments success {P} _.
Arguments message {P} _.
Arguments payload {P} _.

(** ** [kill_actor_gcs]: [GET /api/actors/kill] *)

(** [gcs_service_pb2.KillActorViaGcsRequest], with the fields the handler
    sets. *)
Record KillActorViaGcsRequest : Type := {
  kill_actor_id : bytes;
  kill_force_kill : bool;
  kill_no_restart : bool
}.

(** An upstream call as the handler issues it: the request and its
    [timeout] keyword. *)
Definition kill_call : Type := KillActorViaGcsRequest * Z.

(** [v in ("true", "True")], where [v] is [req.query.get(key, False)]:
    the default [False] is equal to neither string. *)
Definition in_true_True (v : option string) : bool :=
  match v with
  | Some s => String.eqb s "true" || String.eqb s "True"
  | None => false
  end.

Definition kill_message (force_kill : bool) (actor_id : string) : string :=
  (if force_kill
   then "Force killed actor with id " ++ actor_id
   else ("Requested actor with id " ++ actor_id ++ " to terminate. ")
        ++ "It will exit once running tasks complete")%string.

(** The handler, for the stub [KillActorViaGcs] of the actor registry.  It
    returns the upstream calls issued and the response (or the exception). *)
Definition kill_actor_gcs
    (KillActorViaGcs : KillActorViaGcsRequest -> Z -> result unit)
    (req_query : query) : list kill_call * result (rest_response unit) :=
  let actor_id := query_get "actor_id" req_query in
  let force_kill := in_true_True (query_get "force_kill" req_query) in
  let no_restart := in_true_True (query_get "no_restart" req_query) in
  match actor_id with
  | None | Some EmptyString =>
      ([], Ok {| success := false; message := "actor_id is required.";
                 payload := tt |})
  | Some actor_id =>
      match Py.fromhex actor_id with
      | Raise e => ([], Raise e)
      | Ok id_bytes =>
          let request := {| kill_actor_id := id_bytes;
                            kill_force_kill := force_kill;
                            kill_no_restart := no_restart |} in
          ([(request, 5)],
           _ ← KillActorViaGcs request 5;
           mret {| success := true;
                   message := kill_message force_kill actor_id;
                   payload := tt |})
      end
  end.

(** ** [get_component_activities] and [_get_job_activity_info] *)

(** A binary64 number, by its bit pattern: floating-point values are carried
    by the handlers and never computed with. *)
Definition float64 : Type := Z.

Record RayActivityResponse : Type := {
  is_active : bool;
  reason : option string;
  timestamp : option float64
}.

(** [gcs_pb2.JobTableData], with the fields the handlers read. *)
Module JobTable.

Record JobConfig : Type := {
  ray_namespace : string;
  metadata : list (string * string)
}.

Record JobTableData : Type := {
  job_id : bytes;
  is_dead : bool;
  config : JobConfig;
  start_time : Z;
  end_time : Z
}.

End JobTable.
Abbreviation JobTableData := JobTable.JobTableData.

Section Activity.

(** [JobInfoStorageClient.JOB_DATA_KEY_PREFIX] is declared in
    [ray.dashboard.modules.job.common]; the comment in
    [_get_job_activity_info] gives its value, [_ray_internal_job_info_]. *)
Variable JOB_DATA_KEY_PREFIX : string.

(** The stub [GetAllJobInfo] of the job registry, as a function of the
    [timeout] keyword, and the reading of [datetime.now().timestamp()]. *)
Variable GetAllJobInfo : Z -> result (list JobTableData).
Variable now : float64.

Definition in_internal_namespace (job_table_entry : JobTableData) : bool :=
  Py.startswith
    (JobTable.ray_namespace (JobTable.config job_table_entry))
    JOB_DATA_KEY_PREFIX.

(** One iteration of the loop over [reply.job_info_list]. *)
Definition count_driver (num_active_drivers : nat)
    (job_table_entry : JobTableData) : nat :=
  if negb (JobTable.is_dead job_table_entry)
     && negb (in_internal_namespace job_table_entry)
  then S num_active_drivers
  else num_active_drivers.

Definition classify (job_info_list : list JobTableData)
  : RayActivityResponse :=
  let num_active_drivers := fold_left count_driver job_info_list 0%nat in
  {| is_active := (0 <? num_active_drivers)%nat;
     reason :=
       match num_active_drivers with
       | O => None
       | _ => Some ("Number of active drivers: "
                    ++ Py.str_of_nat num_active_drivers)%string
       end;
     timestamp := Some now |}.

Definition _get_job_activity_info (timeout : Z)
  : list Z * result RayActivityResponse :=
  ([timeout], reply ← GetAllJobInfo timeout; mret (classify reply)).

(** The value bound to [timeout] before the job fetch. *)
Definition parse_timeout (req_query : query) : result Z :=
  match query_get "timeout" req_query with
  | Some timeout =>
      if Py.truthy timeout && Py.isdigit timeout
      then Py.int timeout
      else Ok 5
  | None => Ok 5
  end.

(** The handler returns the timeouts of the job fetches it issued and the
    [driver] entry of the JSON body. *)
Definition get_component_activities (req_query : query)
  : list Z * result RayActivityResponse :=
  match parse_timeout req_query with
  | Ok timeout => _get_job_activity_info timeout
  | Raise e => ([], Raise e)
  end.

End Activity.

(** ** JSON values and Python dictionaries *)

(** A Python dictionary with string keys: the association list of its items
    in insertion order. *)
Abbreviation dict V := (list (string * V)).

Fixpoint dict_get {V} (k : string) (d : dict V) : option V :=
  match d with
  | [] => None
  | (k', v) :: d' => if String.eqb k' k then Some v else dict_get k d'
  end.

(** [d[k] = v]: the value is replaced where the key is, a new key goes last. *)
Fixpoint dict_set {V} (k : string) (v : V) (d : dict V) : dict V :=
  match d with
  | [] => [(k, v)]
  | (k', v') :: d' =>
      if String.eqb k' k then (k', v) :: d' else (k', v') :: dict_set k v d'
  end.

Definition dict_mem {V} (k : string) (d : dict V) : bool :=
  match dict_get k d with Some _ => true | None => false end.

(** [{key(k): v for k, v in items}], continued from [acc]. *)
Definition dict_of_items {V} (key : string -> string)
    (items : list (string * V)) (acc : dict V) : dict V :=
  fold_left (fun a kv => dict_set (key (fst kv)) (snd kv) a) items acc.

(** What [json.loads] returns: a tree, no part of which is shared. *)
#[warnings="-register-all"]
Inductive json : Type :=
| JNull
| JBool (b : bool)
| JInt (z : Z)
| JFloat (f : float64)
| JStr (s : string)
| JList (l : list json)
| JDict (d : list (string * json)).

(** ** [get_serve_info]: the deployment snapshot resolver *)

(** The constants imported from [ray.serve]. *)
Record serve_constants : Type := {
  SERVE_CONTROLLER_NAME : string;
  SERVE_SNAPSHOT_KEY : string
}.

(** The internal key-value store in the namespace [KV_NAMESPACE_SERVE], as
    the two calls of [ray.experimental.internal_kv] see it.  A listing and a
    later lookup are separate requests: a listed key may have no value. *)
Record kv_store : Type := {
  _internal_kv_list : string -> result (list bytes);
  _internal_kv_get : bytes -> result (option bytes)
}.

(** [str(k)] for a [bytes] key is its [repr]. *)
Module BytesRepr.

Definition squote : N := 39.
Definition dquote : N := 34.
Definition backslash : N := 92.

Definition has (n : N) (b : bytes) : bool :=
  existsb (fun x => (Byte.to_N x =? n)%N) b.

Definition quote_of (b : bytes) : N :=
  if has squote b && negb (has dquote b) then dquote else squote.

Definition char (n : N) : string := String (ascii_of_N n) EmptyString.

Definition escape (quote : N) (x : byte) : string :=
  let n := Byte.to_N x in
  (if ((n =? quote) || (n =? backslash))%N then char backslash ++ char n
   else if (n =? 9)%N then char backslash ++ "t"
   else if (n =? 10)%N then char backslash ++ "n"
   else if (n =? 13)%N then char backslash ++ "r"
   else if ((n <? 32) || (127 <=? n))%N
        then char backslash ++ "x" ++ Py.hex [x]
   else char n)%string.

Definition repr (b : bytes) : string :=
  let quote := quote_of b in
  ("b" ++ char quote ++ String.concat "" (map (escape quote) b)
   ++ char quote)%string.

End BytesRepr.

Section Resolver.

(** Library functions: [bytes.decode("utf-8")], [json.loads], and
    [hashlib.sha1(name.encode()).hexdigest()]. *)
Variable utf8_decode : bytes -> result string.
Variable json_loads : string -> result json.
Variable sha1_hexdigest : string -> string.

(** The import of [ray.serve]: [None] when it raises. *)
Variable serve : option serve_constants.
Variable kv : kv_store.

(** The bytes of ["{}".encode("utf-8")]. *)
Definition empty_object_bytes : bytes := [x7b; x7d].

(** [_internal_kv_get(key, ...) or "{}".encode("utf-8")]. *)
Definition value_or_empty (v : option bytes) : bytes :=
  match v with
  | None | Some [] => empty_object_bytes
  | Some b => b
  end.

(** The body of the loop over [serve_snapshot_keys]. *)
Definition load_snapshot (key : bytes) : result json :=
  v ← _internal_kv_get kv key;
  text ← utf8_decode (value_or_empty v);
  json_loads text.

(** [for k, v in d.items()] inside the merge, continued from [acc]. *)
Definition merge_one (acc : dict json) (d : json) : result (dict json) :=
  match d with
  | JDict items => Ok (dict_of_items (fun k => k) items acc)
  | _ => Raise AttributeError
  end.

Fixpoint merge_from (acc : dict json) (ds : list json)
  : result (dict json) :=
  match ds with
  | [] => Ok acc
  | d :: ds' => acc' ← merge_one acc d; merge_from acc' ds'
  end.

Definition rehash (deployments : dict json) : dict json :=
  dict_of_items sha1_hexdigest deployments [].

Definition snapshot_keys (c : serve_constants) (serve_keys : list bytes)
  : list bytes :=
  filter (fun k => Is_true
            (Py.contains (BytesRepr.repr k) (SERVE_SNAPSHOT_KEY c)))
         serve_keys.

Definition get_deployments (c : serve_constants) : result (dict json) :=
  serve_keys ← _internal_kv_list kv (SERVE_CONTROLLER_NAME c);
  deployments_per_controller ←
    mapM load_snapshot (snapshot_keys c serve_keys);
  deployments ← merge_from [] deployments_per_controller;
  mret (rehash deployments).

Definition get_serve_info : result (dict json) :=
  match serve with
  | None => Ok []
  | Some c => get_deployments c
  end.

End Resolver.

(** ** The heap of Python objects

    Dictionaries and lists are objects with an identity: a value refers to
    them by location, and two references to one location see each other's
    updates. *)

Abbreviation loc := nat.

Inductive val : Type :=
| VNone
| VBool (b : bool)
| VInt (z : Z)
| VFloat (f : float64)
| VStr (s : string)
| VRef (l : loc).

Inductive obj : Type :=
| ODict (d : dict val)
| OList (l : list val).

Abbreviation heap := (list obj).

(** The state a request runs in: the objects allocated so far and the number
    of calls of [get_serve_info] made so far. *)
Record world : Type := {
  objects : heap;
  serve_calls : nat
}.

Definition M (A : Type) : Type := world -> result (A * world).

#[global] Instance M_ret : MRet M := fun A a w => Ok (a, w).
#[global] Instance M_bind : MBind M := fun A B k m w =>
  match m w with
  | Ok (a, w') => k a w'
  | Raise e => Raise e
  end.

Definition raise {A} (e : exn) : M A := fun _ => Raise e.

Definition lift {A} (r : result A) : M A := fun w =>
  match r with
  | Ok a => Ok (a, w)
  | Raise e => Raise e
  end.

Definition alloc (o : obj) : M loc := fun w =>
  Ok (List.length (objects w),
      {| objects := objects w ++ [o]; serve_calls := serve_calls w |}).

Definition read (l : loc) : M obj := fun w =>
  match objects w !! l with
  | Some o => Ok (o, w)
  | None => Raise Stuck
  end.

Definition write (l : loc) (o : obj) : M unit := fun w =>
  Ok (tt, {| objects := <[l := o]> (objects w);
             serve_calls := serve_calls w |}).

(** Reading the heap does not change the world. *)
Definition reading {A} (f : heap -> result A) : M A := fun w =>
  match f (objects w) with
  | Ok a => Ok (a, w)
  | Raise e => Raise e
  end.

(** The dictionary at a location. *)
Definition dict_at (h : heap) (l : loc) : result (dict val) :=
  match h !! l with
  | Some (ODict d) => Ok d
  | Some (OList _) => Raise TypeError
  | None => Raise Stuck
  end.

(** [v[k]] for a string [k], in the heap [h]. *)
Definition getitem (h : heap) (v : val) (k : string) : result val :=
  match v with
  | VRef l =>
      match h !! l with
      | Some (ODict d) =>
          match dict_get k d with
          | Some x => Ok x
          | None => Raise (KeyError k)
          end
      | Some (OList _) => Raise TypeError
      | None => Raise Stuck
      end
  | _ => Raise TypeError
  end.

(** [v.items()], as the list a loop over it goes through. *)
Definition getitems (h : heap) (v : val) : result (list (string * val)) :=
  match v with
  | VRef l =>
      match h !! l with
      | Some (ODict d) => Ok d
      | Some (OList _) => Raise AttributeError
      | None => Raise Stuck
      end
  | _ => Raise AttributeError
  end.

Definition subscript (v : val) (k : string) : M val :=
  reading (fun h => getitem h v k).

Definition items (v : val) : M (list (string * val)) :=
  reading (fun h => getitems h v).

(** [v[k] = x] for a string [k]. *)
Definition setitem (v : val) (k : string) (x : val) : M unit :=
  match v with
  | VRef l =>
      o ← read l;
      match o with
      | ODict d => write l (ODict (dict_set k x d))
      | OList _ => raise TypeError
      end
  | _ => raise TypeError
  end.

(** [k in actors], for the dictionary at [actors]. *)
Definition has_key (actors : loc) (k : string) : M bool :=
  reading (fun h => d ← dict_at h actors; mret (dict_mem k d)).

Fixpoint for_each {A} (body : A -> M unit) (xs : list A) : M unit :=
  match xs with
  | [] => mret tt
  | x :: xs' => _ ← body x; for_each body xs'
  end.

(** A tree returned by [json.loads] or held in a reply, as fresh objects. *)
Fixpoint alloc_json (j : json) : M val :=
  match j with
  | JNull => mret VNone
  | JBool b => mret (VBool b)
  | JInt z => mret (VInt z)
  | JFloat f => mret (VFloat f)
  | JStr s => mret (VStr s)
  | JList js =>
      vs ← mapM alloc_json js;
      l ← alloc (OList vs);
      mret (VRef l)
  | JDict d =>
      kvs ← mapM (fun kv => v ← alloc_json (snd kv); mret (fst kv, v)) d;
      l ← alloc (ODict kvs);
      mret (VRef l)
  end.

(** ** [get_actor_info] *)

(** [gcs_pb2.ActorTableData], with the fields the handler reads. *)
Module ActorTable.

Record Address : Type := {
  raylet_id : bytes;
  ip_address : string;
  port : Z;
  worker_id : bytes
}.

Record ActorTableData : Type := {
  actor_id : bytes;
  job_id : bytes;
  state : Z;
  name : string;
  ray_namespace : string;
  serialized_runtime_env : string;
  start_time : Z;
  end_time : Z;
  is_detached : bool;
  required_resources : list (string * float64);
  class_name : string;
  address : Address
}.

End ActorTable.
Abbreviation ActorTableData := ActorTable.ActorTableData.

(** The body of the innermost loop: one replica of one deployment. *)
Definition join_replica (actors : loc) (deployment_info : val)
    (replica : string * val) : M unit :=
  let '(replica_actor_id, actor_info) := replica in
  present ← has_key actors replica_actor_id;
  if present : bool then
    serve_metadata ← alloc (ODict []);
    replica_tag ← subscript actor_info "replica_tag";
    _ ← setitem (VRef serve_metadata) "replica_tag" replica_tag;
    deployment_name ← subscript deployment_info "name";
    _ ← setitem (VRef serve_metadata) "deployment_name" deployment_name;
    version ← subscript actor_info "version";
    _ ← setitem (VRef serve_metadata) "version" version;
    entry ← subscript (VRef actors) replica_actor_id;
    metadata ← subscript entry "metadata";
    setitem metadata "serve" (VRef serve_metadata)
  else mret tt.

(** The body of the loop over [deployments.items()]. *)
Definition join_deployment (actors : loc) (deployment : string * val)
  : M unit :=
  let deployment_info := snd deployment in
  replicas_dict ← subscript deployment_info "actors";
  replicas ← items replicas_dict;
  for_each (join_replica actors deployment_info) replicas.

(** The join of the actors with the deployments: the two nested loops. *)
Definition join (actors : loc) (deployments : val) : M unit :=
  ds ← items deployments;
  for_each (join_deployment actors) ds.

Section ActorInfo.

Variable json_loads : string -> result json.

(** [gcs_pb2.ActorTableData.ActorState.Name]. *)
Variable ActorState_Name : Z -> result string.

(** The stub [GetAllActorInfo], as a function of [show_dead_jobs] and of
    the [timeout] keyword. *)
Variable GetAllActorInfo : bool -> Z -> result (list ActorTableData).

(** [get_serve_info_at n] is what the call number [n] (from 0) of
    [get_serve_info] returns during the request. *)
Variable get_serve_info_at : nat -> result (dict json).

(** [await self.get_serve_info()]: the dictionary returned is a new object
    at each call. *)
Definition call_get_serve_info : M val := fun w =>
  match get_serve_info_at (serve_calls w) with
  | Ok d =>
      alloc_json (JDict d)
        {| objects := objects w; serve_calls := S (serve_calls w) |}
  | Raise e => Raise e
  end.

(** The dictionary displayed for an actor table entry. *)
Definition make_entry (e : ActorTableData) : M val :=
  runtime_env_tree ← lift (json_loads (ActorTable.serialized_runtime_env e));
  runtime_env ← alloc_json runtime_env_tree;
  state_name ← lift (ActorState_Name (ActorTable.state e));
  resources ←
    alloc (ODict (dict_of_items (fun k => k)
                    (map (fun kv => (fst kv, VFloat (snd kv)))
                         (ActorTable.required_resources e)) []));
  metadata ← alloc (ODict []);
  entry ← alloc (ODict [
    ("job_id", VStr (Py.hex (ActorTable.job_id e)));
    ("state", VStr state_name);
    ("name", VStr (ActorTable.name e));
    ("namespace", VStr (ActorTable.ray_namespace e));
    ("runtime_env", runtime_env);
    ("start_time", VInt (ActorTable.start_time e));
    ("end_time", VInt (ActorTable.end_time e));
    ("is_detached", VBool (ActorTable.is_detached e));
    ("resources", VRef resources);
    ("actor_class", VStr (ActorTable.class_name e));
    ("current_worker_id",
       VStr (Py.hex (ActorTable.worker_id (ActorTable.address e))));
    ("current_raylet_id",
       VStr (Py.hex (ActorTable.raylet_id (ActorTable.address e))));
    ("ip_address", VStr (ActorTable.ip_address (ActorTable.address e)));
    ("port", VInt (ActorTable.port (ActorTable.address e)));
    ("metadata", VRef metadata)
  ]);
  mret (VRef entry).

(** The body of the loop over [reply.actor_table_data]: the entry is
    stored, then the deployments are fetched and joined. *)
Definition actor_step (actors : loc) (actor_table_entry : ActorTableData)
  : M unit :=
  let actor_id := Py.hex (ActorTable.actor_id actor_table_entry) in
  entry ← make_entry actor_table_entry;
  _ ← setitem (VRef actors) actor_id entry;
  deployments ← call_get_serve_info;
  join actors deployments.

Definition get_actor_info : M loc :=
  reply ← lift (GetAllActorInfo true 5);
  actors ← alloc (ODict []);
  _ ← for_each (actor_step actors) reply;
  mret actors.

End ActorInfo.

Definition new_world : world := {| objects := []; serve_calls := 0 |}.


(** ** [snapshot]: [GET /api/snapshot] *)

Section Snapshot.

(** The types of what [get_job_info], [get_job_submission_info],
    [get_actor_info], [get_serve_info] and [get_session_name] return. *)
Context {J S A D N : Type}.

Record snapshot_body : Type := {
  jobs : J;
  job_submission : S;
  actors : A;
  deployments : D;
  session_name : N;
  ray_version : string;
  ray_commit : string
}.

(** A coroutine given to [asyncio.gather], by what it does: it completes at
    some instant, with a value or with an exception. *)
Definition completed (T : Type) : Type := nat * result T.

Definition failure {T} (c : completed T) : option (nat * exn) :=
  match snd c with
  | Raise e => Some (fst c, e)
  | Ok _ => None
  end.

(** The exception that [asyncio.gather] propagates: the one raised first.
    Of two exceptions the earlier wins, and the one of the earlier
    argument when the instants are equal. *)
Definition earlier (a b : option (nat * exn)) : option (nat * exn) :=
  match a, b with
  | Some (ta, ea), Some (tb, eb) =>
      if (tb <? ta)%nat then Some (tb, eb) else Some (ta, ea)
  | Some x, None => Some x
  | None, y => y
  end.

Definition first_failure (fs : list (option (nat * exn)))
  : option (nat * exn) :=
  fold_left earlier fs None.

Variables version commit : string.

Definition snapshot
    (get_job_info : completed J)
    (get_job_submission_info : completed S)
    (get_actor_info : completed A)
    (get_serve_info : completed D)
    (get_session_name : completed N)
  : result (rest_response snapshot_body) :=
  match first_failure [failure get_job_info;
                       failure get_job_submission_info;
                       failure get_actor_info;
                       failure get_serve_info;
                       failure get_session_name] with
  | Some (_, e) => Raise e
  | None =>
      job_info ← snd get_job_info;
      job_submission_data ← snd get_job_submission_info;
      actor_data ← snd get_actor_info;
      serve_data ← snd get_serve_info;
      session ← snd get_session_name;
      mret {| success := true;
              message := "hello";
              payload := {| jobs := job_info;
                            job_submission := job_submission_data;
                            actors := actor_data;
                            deployments := serve_data;
                            session_name := session;
                            ray_version := version;
                            ray_commit := commit |} |}
  end.

End Snapshot.

(** ** Data of the examples *)

(** A job that counts as an active driver, for the internal prefix given. *)
Definition counts_as_active (prefix : string) (j : JobTableData) : bool :=
  negb (JobTable.is_dead j) && negb (in_internal_namespace prefix j).

(** The three jobs of the end-to-end example: [A] dead in [user], [B] alive
    in [user], [C] alive in an internal namespace. *)
Definition example_job (dead : bool) (namespace : string) : JobTableData :=
  {| JobTable.job_id := [];
     JobTable.is_dead := dead;
     JobTable.config := {| JobTable.ray_namespace := namespace;
                           JobTable.metadata := [] |};
     JobTable.start_time := 0;
     JobTable.end_time := 0 |}.

Definition example_jobs : list JobTableData :=
  [example_job true "user"; example_job false "user";
   example_job false "_ray_internal_job_info_x"].

(** The one-character string U+00B2 (superscript two). *)
Definition superscript_two : string := String (ascii_of_nat 178) EmptyString.

(** The digit [1] written [n] times. *)
Fixpoint ones (n : nat) : string :=
  match n with
  | O => EmptyString
  | S n' => String "1"%char (ones n')
  end.

(** A [timeout] of one digit more than [int] accepts. *)
Definition long_timeout : string := ones 4301.

(** The number a string of ASCII decimal digits denotes, continued from
    [acc]. *)
Fixpoint decimal_number (acc : Z) (s : list ascii) : Z :=
  match s with
  | [] => acc
  | c :: s' =>
      decimal_number
        (10 * acc + match Py.decimal_value c with Some d => d | None => 0 end)
        s'
  end.

Definition is_decimal (c : ascii) : bool :=
  match Py.decimal_value c with Some _ => true | None => false end.

(** ** Instances of the library functions, for the examples

    [json.loads] on the texts of one fragment of JSON: ASCII characters,
    strings without escape sequences, numbers without fraction or exponent.
    Every text outside the fragment is answered as malformed, so the
    instance stands for [json.loads] on texts of the fragment only. *)
Module JsonText.

Definition ch (n : N) (c : ascii) : bool := (Py.code c =? n)%N.

Definition ws (c : ascii) : bool := ch 32 c || ch 9 c || ch 10 c || ch 13 c.

Fixpoint skip_ws (s : list ascii) : list ascii :=
  match s with
  | c :: s' => if ws c then skip_ws s' else s
  | [] => []
  end.

(** The characters of a string up to its closing quote. *)
Fixpoint string_body (s : list ascii) : option (string * list ascii) :=
  match s with
  | [] => None
  | c :: s' =>
      if ch 34 c then Some (EmptyString, s')
      else if ((Py.code c <? 32) || (Py.code c =? 92) || (128 <=? Py.code c))%N
      then None
      else match string_body s' with
           | Some (str, rest) => Some (String c str, rest)
           | None => None
           end
  end.

Fixpoint digits (acc : Z) (s : list ascii) : Z * list ascii :=
  match s with
  | c :: s' =>
      match Py.decimal_value c with
      | Some d => digits (10 * acc + d) s'
      | None => (acc, s)
      end
  | [] => (acc, [])
  end.

(** An integer literal: [0], or a non-zero digit and more digits; a fraction
    or an exponent after it is outside the fragment. *)
Definition natural (s : list ascii) : option (Z * list ascii) :=
  match s with
  | c :: s' =>
      match Py.decimal_value c with
      | Some d =>
          let '(n, rest) := if (d =? 0)%Z then (0, s') else digits d s' in
          match rest with
          | c' :: _ => if ch 46 c' || ch 101 c' || ch 69 c' then None
                       else Some (n, rest)
          | [] => Some (n, rest)
          end
      | None => None
      end
  | [] => None
  end.

Fixpoint literal (word : list ascii) (s : list ascii) : option (list ascii) :=
  match word, s with
  | [], _ => Some s
  | w :: word', c :: s' => if Ascii.eqb w c then literal word' s' else None
  | _ :: _, [] => None
  end.

Fixpoint value (fuel : nat) (s : list ascii) : option (json * list ascii) :=
  match fuel with
  | O => None
  | S fuel' =>
      match skip_ws s with
      | [] => None
      | c :: r =>
          if ch 123 c then
            match skip_ws r with
            | c2 :: r2 => if ch 125 c2 then Some (JDict [], r2)
                          else members fuel' [] (c2 :: r2)
            | [] => None
            end
          else if ch 91 c then
            match skip_ws r with
            | c2 :: r2 => if ch 93 c2 then Some (JList [], r2)
                          else elements fuel' [] (c2 :: r2)
            | [] => None
            end
          else if ch 34 c then
            match string_body r with
            | Some (str, rest) => Some (JStr str, rest)
            | None => None
            end
          else if ch 45 c then
            match natural r with
            | Some (n, rest) => Some (JInt (- n), rest)
            | None => None
            end
          else if ch 116 c then
            option_map (fun rest => (JBool true, rest))
                       (literal (list_ascii_of_string "rue") r)
          else if ch 102 c then
            option_map (fun rest => (JBool false, rest))
                       (literal (list_ascii_of_string "alse") r)
          else if ch 110 c then
            option_map (fun rest => (JNull, rest))
                       (literal (list_ascii_of_string "ull") r)
          else
            match natural (c :: r) with
            | Some (n, rest) => Some (JInt n, rest)
            | None => None
            end
      end
  end
with members (fuel : nat) (acc : dict json) (s : list ascii)
  : option (json * list ascii) :=
  match fuel with
  | O => None
  | S fuel' =>
      match s with
      | q :: r =>
          if ch 34 q then
            match string_body r with
            | Some (k, r1) =>
                match skip_ws r1 with
                | colon :: r2 =>
                    if ch 58 colon then
                      match value fuel' r2 with
                      | Some (v, r3) =>
                          match skip_ws r3 with
                          | sep :: r4 =>
                              if ch 44 sep
                              then members fuel' (dict_set k v acc) (skip_ws r4)
                              else if ch 125 sep
                              then Some (JDict (dict_set k v acc), r4)
                              else None
                          | [] => None
                          end
                      | None => None
                      end
                    else None
                | [] => None
                end
            | None => None
            end
          else None
      | [] => None
      end
  end
with elements (fuel : nat) (acc : list json) (s : list ascii)
  : option (json * list ascii) :=
  match fuel with
  | O => None
  | S fuel' =>
      match value fuel' s with
      | Some (v, r) =>
          match skip_ws r with
          | sep :: r2 =>
              if ch 44 sep then elements fuel' (acc ++ [v]) r2
              else if ch 93 sep then Some (JList (acc ++ [v]), r2)
              else None
          | [] => None
          end
      | None => None
      end
  end.

Definition loads (text : string) : result json :=
  let s := list_ascii_of_string text in
  match value (2 * List.length s + 2) s with
  | Some (v, rest) =>
      match skip_ws rest with
      | [] => Ok v
      | _ :: _ => Raise JSONDecodeError
      end
  | None => Raise JSONDecodeError
  end.

(** [bytes.decode("utf-8")] on ASCII bytes; other bytes are outside the
    instance and answered as undecodable. *)
Fixpoint decode (b : bytes) : result string :=
  match b with
  | [] => Ok EmptyString
  | x :: b' =>
      if (Byte.to_N x <? 128)%N
      then s ← decode b'; mret (String (ascii_of_byte x) s)
      else Raise UnicodeDecodeError
  end.

(** [str.encode("utf-8")] of an ASCII string. *)
Definition encode (s : string) : bytes := list_byte_of_string s.

(** A stand-in for the hexadecimal digest: an injective function of the
    name. *)
Definition digest (name : string) : string := ("sha1:" ++ name)%string.

Definition dq : string := String (ascii_of_nat 34) EmptyString.

(** [quoted s] is the JSON string literal of the ASCII text [s]. *)
Definition quoted (s : string) : string := (dq ++ s ++ dq)%string.

End JsonText.

(** A key-value store given by a table of keys with their values ([None]
    for a key that is listed and has no value when it is looked up): the
    listing returns the keys that start with the prefix, in table order. *)
Definition table_store (table : list (string * option string)) : kv_store :=
  {| _internal_kv_list := fun prefix =>
       Ok (map (fun kv => list_byte_of_string (fst kv))
               (List.filter (fun kv => Py.startswith (fst kv) prefix) table));
     _internal_kv_get := fun key =>
       Ok (match dict_get (string_of_list_byte key) table with
           | Some (Some v) => Some (list_byte_of_string v)
           | _ => None
           end) |}.

(** The values of the constants in [ray.serve]. *)
Definition serve_constants_example : serve_constants :=
  {| SERVE_CONTROLLER_NAME := "SERVE_CONTROLLER_ACTOR";
     SERVE_SNAPSHOT_KEY := "serve-deployments-snapshot" |}.

(** One controller whose snapshot value is the one character [{]. *)
Definition malformed_store : kv_store :=
  table_store [("SERVE_CONTROLLER_ACTOR:serve-deployments-snapshot", Some "{")].

(** Three controllers: a snapshot key without a value, one with an empty
    value and one with a malformed value; and a key that is no snapshot. *)
Definition mixed_store : kv_store :=
  table_store
    [("SERVE_CONTROLLER_ACTOR:a:serve-deployments-snapshot", None);
     ("SERVE_CONTROLLER_ACTOR:b:serve-deployments-snapshot", Some "");
     ("SERVE_CONTROLLER_ACTOR:checkpoint", Some "[");
     ("SERVE_CONTROLLER_ACTOR:c:serve-deployments-snapshot", Some "[1,")].

(** Two controllers that define the deployment [svc] differently, and a
    third that defines [other]. *)
Definition two_controllers_store : kv_store :=
  table_store
    [("SERVE_CONTROLLER_ACTOR:a:serve-deployments-snapshot",
      Some ("{" ++ JsonText.quoted "svc" ++ ": 1}")%string);
     ("SERVE_CONTROLLER_ACTOR:b:serve-deployments-snapshot",
      Some ("{" ++ JsonText.quoted "svc" ++ ": 2}")%string);
     ("SERVE_CONTROLLER_ACTOR:c:serve-deployments-snapshot",
      Some ("{" ++ JsonText.quoted "other" ++ ": 3}")%string)].

(** The last value bound to a key in a list of items. *)
Definition last_binding {V} (k : string) (items : list (string * V))
  : option V :=
  dict_get k (rev items).

(** The keys of the example stores, as bytes. *)
Definition key_a : bytes :=
  list_byte_of_string "SERVE_CONTROLLER_ACTOR:a:serve-deployments-snapshot".
Definition key_b : bytes :=
  list_byte_of_string "SERVE_CONTROLLER_ACTOR:b:serve-deployments-snapshot".
Definition key_c : bytes :=
  list_byte_of_string "SERVE_CONTROLLER_ACTOR:c:serve-deployments-snapshot".
Definition key_checkpoint : bytes :=
  list_byte_of_string "SERVE_CONTROLLER_ACTOR:checkpoint".

(** ** The join, read off the heap it starts from

    What the two loops of [join] attach, computed from the heap as it is
    when the join starts; the properties below show that [join] does what
    this says. *)

(** The [serve_metadata] dictionary for one replica. *)
Definition serve_metadata_of (h : heap) (deployment_info actor_info : val)
  : result (dict val) :=
  replica_tag ← getitem h actor_info "replica_tag";
  deployment_name ← getitem h deployment_info "name";
  version ← getitem h actor_info "version";
  mret [("replica_tag", replica_tag);
        ("deployment_name", deployment_name);
        ("version", version)].

(** An attachment: the actor id and the [serve_metadata] stored for it. *)
Abbreviation attachment := (string * dict val)%type.

Definition attachments_of_replica (h : heap) (da : dict val)
    (deployment_info : val) (replica : string * val)
  : result (list attachment) :=
  if dict_mem (fst replica) da
  then sm ← serve_metadata_of h deployment_info (snd replica);
       mret [(fst replica, sm)]
  else mret [].

Definition attachments_of_deployment (h : heap) (da : dict val)
    (deployment : string * val) : result (list attachment) :=
  replicas_dict ← getitem h (snd deployment) "actors";
  replicas ← getitems h replicas_dict;
  per_replica ← mapM (attachments_of_replica h da (snd deployment)) replicas;
  mret (concat per_replica).

Definition attachments (h : heap) (actors : loc) (deployments : val)
  : result (list attachment) :=
  ds ← getitems h deployments;
  da ← dict_at h actors;
  per_deployment ← mapM (attachments_of_deployment h da) ds;
  mret (concat per_deployment).

(** The replica actor ids of all deployments, in the order of the loops. *)
Definition replica_ids_of_deployment (h : heap) (deployment : string * val)
  : result (list string) :=
  replicas_dict ← getitem h (snd deployment) "actors";
  replicas ← getitems h replicas_dict;
  mret (map fst replicas).

Definition replica_ids (h : heap) (deployments : val)
  : result (list string) :=
  ds ← getitems h deployments;
  per_deployment ← mapM (replica_ids_of_deployment h) ds;
  mret (concat per_deployment).

(** The location of [actors[actor_id]["metadata"]]. *)
Definition metadata_loc (h : heap) (actors : loc) (actor_id : string)
  : option loc :=
  match dict_at h actors with
  | Ok da =>
      match dict_get actor_id da with
      | Some entry =>
          match getitem h entry "metadata" with
          | Ok (VRef m) => Some m
          | _ => None
          end
      | None => None
      end
  | Raise _ => None
  end.

(** The record under [actors[actor_id]["metadata"]["serve"]]. *)
Definition serve_record (h : heap) (actors : loc) (actor_id : string)
  : option (dict val) :=
  match metadata_loc h actors actor_id with
  | Some m =>
      match getitem h (VRef m) "serve" with
      | Ok (VRef s) =>
          match dict_at h s with Ok d => Some d | Raise _ => None end
      | _ => None
      end
  | None => None
  end.

(** One attachment, as a change of the world: a new dictionary holds the
    record and the metadata of the actor refers to it under [serve]. *)
Definition attach (actors : loc) (w : world) (a : attachment) : world :=
  match metadata_loc (objects w) actors (fst a) with
  | Some m =>
      match dict_at (objects w) m with
      | Ok dm =>
          {| objects :=
               <[m := ODict (dict_set "serve"
                               (VRef (List.length (objects w))) dm)]>
                 (objects w ++ [ODict (snd a)]);
             serve_calls := serve_calls w |}
      | Raise _ => w
      end
  | None => w
  end.

(** ** Shape of the heap around the actors

    [metadata_cell h actors m]: [m] is the metadata dictionary of an entry
    of [actors]. *)
Definition metadata_cell (h : heap) (actors : loc) (m : loc) : Prop :=
  exists actor_id, metadata_loc h actors actor_id = Some m.

(** [actors] is a dictionary of entries; each entry is a dictionary other
    than [actors], whose [metadata] is a dictionary of its own: it is neither
    [actors] nor an entry, and no other entry has it as its metadata. *)
Definition actors_shape (h : heap) (actors : loc) : Prop :=
  exists da,
    dict_at h actors = Ok da
    /\ (forall actor_id v,
          dict_get actor_id da = Some v ->
          exists e de m dm,
            v = VRef e
            /\ dict_at h e = Ok de
            /\ dict_get "metadata" de = Some (VRef m)
            /\ dict_at h m = Ok dm
            /\ e <> actors
            /\ m <> actors
            /\ (forall actor_id', dict_get actor_id' da <> Some (VRef m)))
    /\ (forall a a' m,
          metadata_loc h actors a = Some m ->
          metadata_loc h actors a' = Some m -> a = a').

(** The objects a value leads to. *)
Inductive reaches (h : heap) : val -> loc -> Prop :=
| reaches_here (l : loc) : reaches h (VRef l) l
| reaches_dict (l : loc) (d : dict val) (k : string) (v : val) (l' : loc) :
    h !! l = Some (ODict d) -> In (k, v) d -> reaches h v l' ->
    reaches h (VRef l) l'
| reaches_list (l : loc) (vs : list val) (v : val) (l' : loc) :
    h !! l = Some (OList vs) -> In v vs -> reaches h v l' ->
    reaches h (VRef l) l'.

(** The data under [v] is allocated and apart from the metadata
    dictionaries of the actors. *)
Definition apart (h : heap) (actors : loc) (v : val) : Prop :=
  forall l, reaches h v l ->
            (l < List.length h)%nat /\ ~ metadata_cell h actors l.

(** What a run of the join keeps of the heap [h0] it started from: the heap
    has grown, every object that is not a metadata dictionary of the actors
    is as it was, and the metadata dictionaries are still dictionaries. *)
Definition frame_inv (h0 : heap) (actors : loc) (w : world) : Prop :=
  (List.length h0 <= List.length (objects w))%nat
  /\ (forall l, (l < List.length h0)%nat -> ~ metadata_cell h0 actors l ->
                objects w !! l = h0 !! l)
  /\ (forall m, metadata_cell h0 actors m ->
                exists dm, dict_at (objects w) m = Ok dm).

(** The world after [alloc o]. *)
Definition extend (w : world) (o : obj) : world :=
  {| objects := objects w ++ [o]; serve_calls := serve_calls w |}.

(** Whether an attachment goes to the metadata dictionary [m]. *)
Definition targets (h : heap) (actors : loc) (m : loc) (a : attachment)
  : bool :=
  match metadata_loc h actors (fst a) with
  | Some m' => Nat.eqb m' m
  | None => false
  end.

(** The record of the last attachment that goes to [m]. *)
Fixpoint last_target (h : heap) (actors : loc) (m : loc)
    (atts : list attachment) : option (dict val) :=
  match atts with
  | [] => None
  | a :: rest =>
      match last_target h actors m rest with
      | Some sm => Some sm
      | None => if targets h actors m a then Some (snd a) else None
      end
  end.

(** Whether an actor id is a key of the dictionary of the actors. *)
Definition is_member (da : dict val) (actor_id : string) : bool :=
  dict_mem actor_id da.

(** ** Regions of the heap

    A value, or an object, whose references all lie in the region of
    locations from [lo] up to [hi]. *)
Definition val_in (lo hi : nat) (v : val) : Prop :=
  match v with
  | VRef l => (lo <= l < hi)%nat
  | _ => True
  end.

Definition obj_in (lo hi : nat) (o : obj) : Prop :=
  match o with
  | ODict d => Forall (fun kv => val_in lo hi (snd kv)) d
  | OList vs => Forall (val_in lo hi) vs
  end.

(** The world after a sequence of allocations. *)
Definition grow (w : world) (cells : list obj) : world :=
  {| objects := objects w ++ cells; serve_calls := serve_calls w |}.

(** What an allocating computation does: it appends objects whose
    references stay in the appended region, and its result is [good] for
    that region. *)
Definition appends {A} (m : M A) (good : nat -> nat -> A -> Prop) : Prop :=
  forall w,
    exists a cells,
      m w = Ok (a, grow w cells)
      /\ good (List.length (objects w))
              (List.length (objects w) + List.length cells)%nat a
      /\ Forall (obj_in (List.length (objects w))
                   (List.length (objects w) + List.length cells)%nat) cells.

(** The statements of the loop body of [get_actor_info] that come before
    the join: the entry is built and stored and the deployments are
    fetched. *)
Definition before_join
    (json_loads : string -> result json)
    (ActorState_Name : Z -> result string)
    (get_serve_info_at : nat -> result (dict json))
    (actors : loc) (actor_table_entry : ActorTableData) : M val :=
  let actor_id := Py.hex (ActorTable.actor_id actor_table_entry) in
  entry ← make_entry json_loads ActorState_Name actor_table_entry;
  _ ← setitem (VRef actors) actor_id entry;
  call_get_serve_info get_serve_info_at.

(** ** A run of [get_actor_info], for the examples *)

(** A stand-in for [ActorState.Name]: every state is named [ALIVE]. *)
Definition example_state_name (state : Z) : result string := Ok "ALIVE".

Definition example_actor (id : byte) (name : string) : ActorTableData :=
  {| ActorTable.actor_id := [id];
     ActorTable.job_id := [x01];
     ActorTable.state := 2;
     ActorTable.name := name;
     ActorTable.ray_namespace := "default";
     ActorTable.serialized_runtime_env := "{}";
     ActorTable.start_time := 10;
     ActorTable.end_time := 0;
     ActorTable.is_detached := false;
     ActorTable.required_resources := [("CPU", 0)];
     ActorTable.class_name := "Replica";
     ActorTable.address :=
       {| ActorTable.raylet_id := [x0a];
          ActorTable.ip_address := "10.0.0.1";
          ActorTable.port := 7000;
          ActorTable.worker_id := [x0b] |} |}.

(** The actor table: the actors [b2] and [a1]. *)
Definition example_reply : list ActorTableData :=
  [example_actor xb2 "other"; example_actor xa1 "replica"].

(** One deployment, named [svc], with a replica on the actor [a1] and one
    on the actor [ff], which is not in the actor table. *)
Definition example_deployments : dict json :=
  [("sha1:svc",
    JDict [("name", JStr "svc");
           ("actors",
            JDict [("a1", JDict [("replica_tag", JStr "t");
                                 ("version", JStr "v")]);
                   ("ff", JDict [("replica_tag", JStr "u");
                                 ("version", JStr "v")])])])].

(** The deployment of the end-to-end example of the specification: its
    information has no [name]. *)
Definition nameless_deployments : dict json :=
  [("svc",
    JDict [("actors",
            JDict [("a1", JDict [("replica_tag", JStr "t");
                                 ("version", JStr "v")])])])].

(** The state after the first turn of the loop (the actor [b2]). *)
Definition example_after_first_turn : world :=
  Eval vm_compute in
    match actor_step JsonText.loads example_state_name
            (fun _ => Ok example_deployments) 0%nat
            (example_actor xb2 "other") (extend new_world (ODict []))
    with
    | Ok (_, w) => w
    | Raise _ => new_world
    end.

(** The deployments and the state in which the join of the second turn
    (the actor [a1]) starts. *)
Definition example_join_deployments : val :=
  Eval vm_compute in
    match before_join JsonText.loads example_state_name
            (fun _ => Ok example_deployments) 0%nat
            (example_actor xa1 "replica") example_after_first_turn
    with
    | Ok (ld, _) => ld
    | Raise _ => VNone
    end.

Definition example_join_state : world :=
  Eval vm_compute in
    match before_join JsonText.loads example_state_name
            (fun _ => Ok example_deployments) 0%nat
            (example_actor xa1 "replica") example_after_first_turn
    with
    | Ok (_, w) => w
    | Raise _ => new_world
    end.

(** The state after that join. *)
Definition example_joined : world :=
  Eval vm_compute in
    match join 0%nat example_join_deployments example_join_state with
    | Ok (_, w) => w
    | Raise _ => new_world
    end.

(** The state at the end of [get_actor_info] on the example. *)
Definition example_final : world :=
  Eval vm_compute in
    match get_actor_info JsonText.loads example_state_name
            (fun _ _ => Ok example_reply) (fun _ => Ok example_deployments)
            new_world
    with
    | Ok (_, w) => w
    | Raise _ => new_world
    end.

(** ** Trees in the heap

    [represents h v j]: in the heap [h] the value [v] is the tree [j]. *)
#[warnings="-register-all"]
Inductive represents (h : heap) : val -> json -> Prop :=
| represents_null : represents h VNone JNull
| represents_bool (b : bool) : represents h (VBool b) (JBool b)
| represents_int (z : Z) : represents h (VInt z) (JInt z)
| represents_float (f : float64) : represents h (VFloat f) (JFloat f)
| represents_str (s : string) : represents h (VStr s) (JStr s)
| represents_list (l : loc) (vs : list val) (js : list json) :
    h !! l = Some (OList vs) ->
    Forall2 (represents h) vs js ->
    represents h (VRef l) (JList js)
| represents_dict (l : loc) (kvs : dict val) (d : dict json) :
    h !! l = Some (ODict kvs) ->
    Forall2 (fun kv kj => fst kv = fst kj /\ represents h (snd kv) (snd kj))
            kvs d ->
    represents h (VRef l) (JDict d).

(** ** What [get_actor_info] returns

    The dictionary displayed for an actor table entry, given the name of its
    state and the values of its runtime environment, resources and
    metadata. *)
Definition entry_of (e : ActorTableData) (state_name : string)
    (runtime_env resources metadata : val) : dict val :=
  [("job_id", VStr (Py.hex (ActorTable.job_id e)));
   ("state", VStr state_name);
   ("name", VStr (ActorTable.name e));
   ("namespace", VStr (ActorTable.ray_namespace e));
   ("runtime_env", runtime_env);
   ("start_time", VInt (ActorTable.start_time e));
   ("end_time", VInt (ActorTable.end_time e));
   ("is_detached", VBool (ActorTable.is_detached e));
   ("resources", resources);
   ("actor_class", VStr (ActorTable.class_name e));
   ("current_worker_id",
      VStr (Py.hex (ActorTable.worker_id (ActorTable.address e))));
   ("current_raylet_id",
      VStr (Py.hex (ActorTable.raylet_id (ActorTable.address e))));
   ("ip_address", VStr (ActorTable.ip_address (ActorTable.address e)));
   ("port", VInt (ActorTable.port (ActorTable.address e)));
   ("metadata", metadata)].

(** A metadata dictionary is empty, or holds under [serve], and under no
    other key, a record of the three keys of the join. *)
Definition metadata_content_ok (h : heap) (actors : loc) (m : loc) : Prop :=
  dict_at h m = Ok []
  \/ exists s v1 v2 v3,
       dict_at h m = Ok [("serve", VRef s)]
       /\ dict_at h s = Ok [("replica_tag", v1); ("deployment_name", v2);
                            ("version", v3)]
       /\ s <> actors
       /\ ~ metadata_cell h actors s.

(** The dictionary stored under [resources]: the required resources of the
    entry, as [make_entry] collects them. *)
Definition resources_of (e : ActorTableData) : dict val :=
  dict_of_items (fun k => k)
    (map (fun kv => (fst kv, VFloat (snd kv)))
         (ActorTable.required_resources e)) [].

(** The data under [v] is allocated, and apart from the dictionary of the
    actors and from their metadata dictionaries. *)
Definition settled (h : heap) (actors : loc) (v : val) : Prop :=
  forall l, reaches h v l ->
            (l < List.length h)%nat /\ l <> actors
            /\ ~ metadata_cell h actors l.

(** The runtime environment and the resources of the entry built from
    [raw]: the first is the tree that [json.loads] returns for the serialized
    runtime environment of [raw], the second a dictionary of the required
    resources of [raw]; neither shares an object with the actors or their
    metadata. *)
Definition env_ok (json_loads : string -> result json) (h : heap)
    (actors : loc) (raw : ActorTableData) (runtime_env resources : val)
  : Prop :=
  (exists tree,
     json_loads (ActorTable.serialized_runtime_env raw) = Ok tree
     /\ represents h runtime_env tree)
  /\ settled h actors runtime_env
  /\ exists r,
       resources = VRef r
       /\ dict_at h r = Ok (resources_of raw)
       /\ r <> actors
       /\ ~ metadata_cell h actors r.

(** The actor map holds an entry for every actor of the table, and every
    entry is the dictionary built from an actor of the table: its scalar
    fields are those of the actor, its runtime environment and resources are
    those of the actor as above, and its metadata has the form above. *)
Definition entries_ok (json_loads : string -> result json)
    (ActorState_Name : Z -> result string)
    (h : heap) (actors : loc) (table : list ActorTableData) : Prop :=
  exists da,
    dict_at h actors = Ok da
    /\ (forall raw, In raw table ->
          dict_mem (Py.hex (ActorTable.actor_id raw)) da = true)
    /\ (forall actor_id v,
          dict_get actor_id da = Some v ->
          exists raw e state_name runtime_env resources m,
            In raw table
            /\ actor_id = Py.hex (ActorTable.actor_id raw)
            /\ v = VRef e
            /\ ActorState_Name (ActorTable.state raw) = Ok state_name
            /\ dict_at h e
               = Ok (entry_of raw state_name runtime_env resources (VRef m))
            /\ metadata_content_ok h actors m
            /\ env_ok json_loads h actors raw runtime_env resources).

(** ** [get_job_info], [_get_job_info] and [get_job_submission_info] *)

(** [ray.job_submission.JobInfo], with the attributes the handlers read.
    The handlers copy these values into their result and never look into
    them: each is given as the tree it is displayed as. *)
Module JobSubmission.

Record JobInfo : Type := {
  status : json;
  message : json;
  error_type : json;
  start_time : json;
  end_time : json;
  metadata : json;
  runtime_env : json;
  entrypoint : json
}.

End JobSubmission.
Abbreviation JobInfo := JobSubmission.JobInfo.

Section Jobs.

(** [JOB_ID_METADATA_KEY] is declared in [ray.dashboard.modules.job.common],
    as is the client of [self._job_info_client]: [get_info] takes the job
    submission id, [None] when the metadata has none, and [get_all_jobs]
    returns a dictionary.  [RuntimeEnv.deserialize] is declared in
    [ray.runtime_env]. *)
Variable JOB_ID_METADATA_KEY : string.
Variable get_info : option string -> result (option JobInfo).
Variable get_all_jobs : result (dict (option JobInfo)).
Variable RuntimeEnv_deserialize : string -> result json.

(** The field [config.runtime_env_info.serialized_runtime_env] of a job table
    entry, which the record [JobTableData] does not carry. *)
Variable serialized_runtime_env : JobTableData -> string.

Variable GetAllJobInfo : Z -> result (list JobTableData).

Definition _get_job_info (metadata : dict string)
  : result (option JobInfo) :=
  let job_submission_id := dict_get JOB_ID_METADATA_KEY metadata in
  get_info job_submission_id.

(** The body of the loop over [reply.job_info_list], up to the entry. *)
Definition job_entry (job_table_entry : JobTableData) : result json :=
  let metadata :=
    dict_of_items (fun k => k)
      (JobTable.metadata (JobTable.config job_table_entry)) [] in
  runtime_env ←
    RuntimeEnv_deserialize (serialized_runtime_env job_table_entry);
  let config :=
    JDict [("namespace",
              JStr (JobTable.ray_namespace (JobTable.config job_table_entry)));
           ("metadata",
              JDict (map (fun kv => (fst kv, JStr (snd kv))) metadata));
           ("runtime_env", runtime_env)] in
  info ← _get_job_info metadata;
  mret (JDict [
    ("status",
       match info with
       | None => JNull
       | Some info => JobSubmission.status info
       end);
    ("status_message",
       match info with
       | None => JNull
       | Some info => JobSubmission.message info
       end);
    ("is_dead", JBool (JobTable.is_dead job_table_entry));
    ("start_time", JInt (JobTable.start_time job_table_entry));
    ("end_time", JInt (JobTable.end_time job_table_entry));
    ("config", config)
  ]).

(** The loop over [reply.job_info_list], continued from [jobs]. *)
Fixpoint job_loop (jobs : dict json) (job_info_list : list JobTableData)
  : result (dict json) :=
  match job_info_list with
  | [] => Ok jobs
  | job_table_entry :: rest =>
      let job_id := Py.hex (JobTable.job_id job_table_entry) in
      entry ← job_entry job_table_entry;
      job_loop (dict_set job_id entry jobs) rest
  end.

Definition get_job_info : result (dict json) :=
  reply ← GetAllJobInfo 5;
  job_loop [] reply.

(** The entry of a job submission. *)
Definition submission_entry (job_submission_id : string) (job_info : JobInfo)
  : json :=
  JDict [
    ("job_submission_id", JStr job_submission_id);
    ("status", JobSubmission.status job_info);
    ("message", JobSubmission.message job_info);
    ("error_type", JobSubmission.error_type job_info);
    ("start_time", JobSubmission.start_time job_info);
    ("end_time", JobSubmission.end_time job_info);
    ("metadata", JobSubmission.metadata job_info);
    ("runtime_env", JobSubmission.runtime_env job_info);
    ("entrypoint", JobSubmission.entrypoint job_info)
  ].

(** One iteration of the loop over [get_all_jobs().items()]. *)
Definition submission_step (jobs : dict json)
    (item : string * option JobInfo) : dict json :=
  let '(job_submission_id, job_info) := item in
  match job_info with
  | Some job_info =>
      dict_set job_submission_id
        (submission_entry job_submission_id job_info) jobs
  | None => jobs
  end.

Definition get_job_submission_info : result (dict json) :=
  all_jobs ← get_all_jobs;
  mret (fold_left submission_step all_jobs []).

End Jobs.

(** ** [get_session_name] *)

(** The key [session_name], as the store receives it. *)
Definition session_name_key : bytes := list_byte_of_string "session_name".

(** [_internal_kv_get("session_name", namespace=KV_NAMESPACE_SESSION)
    .decode()], for the store [kv] of that namespace: the value is decoded as
    it comes, and [None] has no [decode]. *)
Definition get_session_name (utf8_decode : bytes -> result string)
    (kv : kv_store) : result string :=
  v ← _internal_kv_get kv session_name_key;
  match v with
  | Some b => utf8_decode b
  | None => Raise AttributeError
  end.

(** ** Data of further examples *)

(** The entry of a job submission made of its status alone. *)
Definition example_info (status : string) : JobInfo :=
  {| JobSubmission.status := JStr status;
     JobSubmission.message := JNull;
     JobSubmission.error_type := JNull;
     JobSubmission.start_time := JInt 1;
     JobSubmission.end_time := JNull;
     JobSubmission.metadata := JDict [];
     JobSubmission.runtime_env := JDict [];
     JobSubmission.entrypoint := JStr "python job.py" |}.

(** A job of the job table, with its id and its metadata. *)
Definition example_driver (id : byte) (metadata : list (string * string))
  : JobTableData :=
  {| JobTable.job_id := [id];
     JobTable.is_dead := false;
     JobTable.config := {| JobTable.ray_namespace := "user";
                           JobTable.metadata := metadata |};
     JobTable.start_time := 1;
     JobTable.end_time := 0 |}.

(** A client that knows the submission [raysubmit_1] alone. *)
Definition example_get_info (job_submission_id : option string)
  : result (option JobInfo) :=
  match job_submission_id with
  | Some id =>
      if String.eqb id "raysubmit_1" then Ok (Some (example_info "RUNNING"))
      else Ok None
  | None => Ok None
  end.

(** One controller whose snapshot value is a JSON list. *)
Definition list_valued_store : kv_store :=
  table_store
    [("SERVE_CONTROLLER_ACTOR:serve-deployments-snapshot", Some "[1]")].

(** Two controllers: the snapshot value of the first is a JSON list, that
    of the second is malformed. *)
Definition list_then_malformed_store : kv_store :=
  table_store
    [("SERVE_CONTROLLER_ACTOR:a:serve-deployments-snapshot", Some "[1]");
     ("SERVE_CONTROLLER_ACTOR:b:serve-deployments-snapshot", Some "{")].

(** One controller with a snapshot, and a key of the controller that is no
    snapshot, with the value given. *)
Definition checkpoint_store (checkpoint : option string) : kv_store :=
  table_store
    [("SERVE_CONTROLLER_ACTOR:a:serve-deployments-snapshot",
      Some ("{" ++ JsonText.quoted "svc" ++ ": 1}")%string);
     ("SERVE_CONTROLLER_ACTOR:checkpoint", checkpoint)].

(** A byte that [repr] shows as the character it encodes: printable ASCII
    other than the single quote and the backslash. *)
Definition plain_byte (x : byte) : bool :=
  let n := Byte.to_N x in
  ((32 <=? n) && (n <? 127) && negb (n =? BytesRepr.squote)
   && negb (n =? BytesRepr.backslash))%N.

(** Two jobs with distinct ids, the first of which was submitted as
    [raysubmit_1]; and two listings of one job id. *)
Definition example_drivers : list JobTableData :=
  [example_driver x01 [("job_submission_id", "raysubmit_1")];
   example_driver x02 []].

Definition example_relisted_drivers : list JobTableData :=
  [example_driver x01 [];
   example_driver x01 [("job_submission_id", "raysubmit_1")]].

(** What the join reads of the deployments [ld], for the actor map [da]. *)
Definition join_keys (h : heap) (da : dict val) (ld : val) : Prop :=
  exists ds,
    getitems h ld = Ok ds
    /\ forall d, In d ds ->
         exists rd rs,
           getitem h (snd d) "actors" = Ok rd
           /\ getitems h rd = Ok rs
           /\ forall r, In r rs -> dict_mem (fst r) da = true ->
                exists replica_tag name version,
                  getitem h (snd r) "replica_tag" = Ok replica_tag
                  /\ getitem h (snd d) "name" = Ok name
                  /\ getitem h (snd r) "version" = Ok version.

(** One deployment with a replica on the actor [a1] and one, without any
    key, on the actor [ff], which is not in the actor table. *)
Definition sparse_deployments : dict json :=
  [("sha1:svc",
    JDict [("name", JStr "svc");
           ("actors",
            JDict [("a1", JDict [("replica_tag", JStr "t");
                                 ("version", JStr "v")]);
                   ("ff", JDict [])])])].

(** The deployments and the state in which the join of the second turn
    starts when [sparse_deployments] is fetched, and the information of the
    replica on [ff] there. *)
Definition sparse_join_deployments : val :=
  Eval vm_compute in
    match before_join JsonText.loads example_state_name
            (fun _ => Ok sparse_deployments) 0%nat
            (example_actor xa1 "replica") example_after_first_turn
    with
    | Ok (ld, _) => ld
    | Raise _ => VNone
    end.

Definition sparse_join_state : world :=
  Eval vm_compute in
    match before_join JsonText.loads example_state_name
            (fun _ => Ok sparse_deployments) 0%nat
            (example_actor xa1 "replica") example_after_first_turn
    with
    | Ok (_, w) => w
    | Raise _ => new_world
    end.

Definition sparse_absent_replica : val :=
  Eval vm_compute in
    match
      (ds ← getitems (objects sparse_join_state) sparse_join_deployments;
       match ds with
       | d :: _ =>
           rd ← getitem (objects sparse_join_state) (snd d) "actors";
           getitem (objects sparse_join_state) rd "ff"
       | [] => Raise Stuck
       end)
    with
    | Ok v => v
    | Raise _ => VNone
    end.





(** An actor whose serialized runtime environment is the one character
    [{]. *)
Definition example_malformed_actor : ActorTableData :=
  {| ActorTable.actor_id := [xc3];
     ActorTable.job_id := [x01];
     ActorTable.state := 2;
     ActorTable.name := "broken";
     ActorTable.ray_namespace := "default";
     ActorTable.serialized_runtime_env := "{";
     ActorTable.start_time := 10;
     ActorTable.end_time := 0;
     ActorTable.is_detached := false;
     ActorTable.required_resources := [];
     ActorTable.class_name := "Replica";
     ActorTable.address :=
       {| ActorTable.raylet_id := [x0a];
          ActorTable.ip_address := "10.0.0.1";
          ActorTable.port := 7000;
          ActorTable.worker_id := [x0b] |} |}.

(** ** The deployments as [get_serve_info] returns them, and the heap *)

(** [j[k]] for a tree. *)
Definition json_get (k : string) (j : json) : option json :=
  match j with
  | JDict d => dict_get k d
  | _ => None
  end.

(** The replicas of a deployment: the items of [deployment_info["actors"]]. *)
Definition replicas_of_deployment (deployment_info : json)
  : list (string * json) :=
  match json_get "actors" deployment_info with
  | Some (JDict replicas) => replicas
  | _ => []
  end.

(** The replicas of all deployments, in the order of the two loops of the
    join: the replica actor id, with the information of the deployment and
    that of the replica. *)
Definition replicas_of (deployments : dict json)
  : list (string * (json * json)) :=
  flat_map (fun deployment =>
              map (fun replica =>
                     (fst replica, (snd deployment, snd replica)))
                  (replicas_of_deployment (snd deployment)))
           deployments.

(** The last replica, in that order, placed on the actor [actor_id]. *)
Definition last_replica (deployments : dict json) (actor_id : string)
  : option (json * json) :=
  last_binding actor_id (replicas_of deployments).

(** The dictionary [sm] is the record of the replica [replica] of a
    deployment: its three values are those of the deployment data. *)
Definition record_of (h : heap) (sm : dict val) (replica : json * json)
  : Prop :=
  exists v1 v2 v3 replica_tag name version,
    sm = [("replica_tag", v1); ("deployment_name", v2); ("version", v3)]
    /\ json_get "replica_tag" (snd replica) = Some replica_tag
    /\ represents h v1 replica_tag
    /\ json_get "name" (fst replica) = Some name
    /\ represents h v2 name
    /\ json_get "version" (snd replica) = Some version
    /\ represents h v3 version.

(** What the metadata dictionary [m] of the actor [actor_id] holds when the
    deployments are [deployments]: nothing when no replica is placed on the
    actor, and otherwise, under [serve] alone, the record of the last replica
    placed on it. *)
Definition serve_matches (deployments : dict json) (h : heap) (m : loc)
    (actor_id : string) : Prop :=
  match last_replica deployments actor_id with
  | None => dict_at h m = Ok []
  | Some replica =>
      exists s sm,
        dict_at h m = Ok [("serve", VRef s)]
        /\ dict_at h s = Ok sm
        /\ record_of h sm replica
  end.

(** The attachment [a] comes from the replica [replica] of the deployments:
    it goes to the actor of the replica and its record is that of the
    replica, with values apart from the metadata of the actors. *)
Definition attached (h : heap) (actors : loc) (a : attachment)
    (replica : string * (json * json)) : Prop :=
  fst a = fst replica
  /\ record_of h (snd a) (snd replica)
  /\ forall kv, In kv (snd a) -> apart h actors (snd kv).

(** The replicas placed on the actors of [da]. *)
Definition placed (da : dict val) (replicas : list (string * (json * json)))
  : list (string * (json * json)) :=
  List.filter (fun replica => dict_mem (fst replica) da) replicas.

(** Every metadata dictionary of the actors holds what the deployments
    say. *)
Definition all_serve_match (deployments : dict json) (h : heap)
    (actors : loc) : Prop :=
  forall actor_id m,
    metadata_loc h actors actor_id = Some m ->
    serve_matches deployments h m actor_id.

(** * Properties *)

(** ** The actor-kill endpoint *)

Lemma in_true_True_spec (v : option string) :
  in_true_True v = true <-> v = Some "true" \/ v = Some "True".
Proof.
  destruct v as [s|]; simpl.
  - rewrite orb_true_iff, !String.eqb_eq. split.
    + intros [->| ->]; auto.
    + intros [H|H]; injection H; auto.
  - split; [discriminate | intros [H|H]; discriminate].
Qed.

(** C8. For a request that reaches the actor registry, the [force_kill] and
    [no_restart] fields of the one request sent are true exactly when the
    query parameter of that name is present with the value [true] or [True];
    the values [TRUE], [1] and [yes] and an absent parameter give false. *)
Theorem kill_flags_exact_match
    (stub : KillActorViaGcsRequest -> Z -> result unit)
    (q : query) (actor_id : string) (id_bytes : bytes) :
  query_get "actor_id" q = Some actor_id ->
  Py.truthy actor_id = true ->
  Py.fromhex actor_id = Ok id_bytes ->
  exists request,
    fst (kill_actor_gcs stub q) = [(request, 5)]
    /\ kill_actor_id request = id_bytes
    /\ (kill_force_kill request = true <->
          query_get "force_kill" q = Some "true"
          \/ query_get "force_kill" q = Some "True")
    /\ (kill_no_restart request = true <->
          query_get "no_restart" q = Some "true"
          \/ query_get "no_restart" q = Some "True")
    /\ in_true_True (Some "TRUE") = false
    /\ in_true_True (Some "1") = false
    /\ in_true_True (Some "yes") = false
    /\ in_true_True None = false.
Proof.
  intros Hid Hne Hhex. unfold kill_actor_gcs. rewrite Hid.
  destruct actor_id as [|c rest]; [discriminate|].
  rewrite Hhex. eexists. split; [reflexivity|]. simpl.
  split; [reflexivity|].
  split; [apply in_true_True_spec|].
  split; [apply in_true_True_spec|].
  repeat split.
Qed.

Lemma kill_flags_exact_match_witness :
  exists request,
    fst (kill_actor_gcs (fun _ _ => Ok tt)
           [("actor_id", "0a"); ("force_kill", "True"); ("no_restart", "1")])
    = [(request, 5)]
    /\ kill_force_kill request = true
    /\ kill_no_restart request = false.
Proof.
  destruct (kill_flags_exact_match (fun _ _ => Ok tt)
              [("actor_id", "0a"); ("force_kill", "True"); ("no_restart", "1")]
              "0a" [x0a] eq_refl eq_refl eq_refl)
    as (request & Hcalls & _ & Hf & Hn & _).
  exists request. split; [exact Hcalls|]. split.
  - apply Hf. right. reflexivity.
  - destruct (kill_no_restart request) eqn:E; [|reflexivity].
    destruct (proj1 Hn eq_refl) as [H|H]; discriminate H.
Defined.

(** C9. A kill request whose [actor_id] is absent or empty gets the
    structured failure [actor_id is required.] and no call is issued to the
    actor registry. *)
Theorem kill_without_actor_id
    (stub : KillActorViaGcsRequest -> Z -> result unit) (q : query) :
  query_get "actor_id" q = None \/ query_get "actor_id" q = Some "" ->
  kill_actor_gcs stub q
  = ([], Ok {| success := false; message := "actor_id is required.";
               payload := tt |}).
Proof.
  unfold kill_actor_gcs. intros [-> | ->]; reflexivity.
Qed.

Lemma kill_without_actor_id_witness :
  kill_actor_gcs (fun _ _ => Raise (UpstreamError "unreachable"))
    [("force_kill", "true")]
  = ([], Ok {| success := false; message := "actor_id is required.";
               payload := tt |}).
Proof.
  apply (kill_without_actor_id _ [("force_kill", "true")]).
  left. reflexivity.
Defined.

(** ** The activity classifier *)

Section ActivityFacts.

Variable prefix : string.

Lemma count_driver_fold (l : list JobTableData) (n : nat) :
  fold_left (count_driver prefix) l n
  = (n + List.length (List.filter (counts_as_active prefix) l))%nat.
Proof.
  revert n. induction l as [|j l IH]; intros n; simpl.
  - lia.
  - rewrite IH. unfold count_driver, counts_as_active.
    destruct (negb (JobTable.is_dead j) && negb (in_internal_namespace prefix j));
      simpl; lia.
Qed.

Lemma no_active_iff (l : list JobTableData) :
  List.filter (counts_as_active prefix) l = []
  <-> Forall (fun j => JobTable.is_dead j = true
                       \/ in_internal_namespace prefix j = true) l.
Proof.
  induction l as [|j l IH]; simpl.
  - split; auto.
  - rewrite Forall_cons_iff, <- IH. unfold counts_as_active at 1.
    destruct (JobTable.is_dead j), (in_internal_namespace prefix j); simpl.
    + split; [intros H; split; auto | intros [_ H]; exact H].
    + split; [intros H; split; auto | intros [_ H]; exact H].
    + split; [intros H; split; auto | intros [_ H]; exact H].
    + split; [discriminate | intros [[H|H] _]; discriminate H].
Qed.

End ActivityFacts.

(** C4. When the job fetch returns the job set [J], the classifier answers
    [is_active = False] with [reason = None] exactly when every job of [J] is
    dead or lives in a namespace that starts with the internal prefix;
    otherwise it answers [is_active = True] and the reason is the text
    [Number of active drivers: ] followed by the number of active jobs. *)
Theorem activity_classification
    (prefix : string) (GetAllJobInfo : Z -> result (list JobTableData))
    (now : float64) (timeout : Z) (J : list JobTableData) :
  GetAllJobInfo timeout = Ok J ->
  exists r,
    snd (_get_job_activity_info prefix GetAllJobInfo now timeout) = Ok r
    /\ ((is_active r = false /\ reason r = None) <->
        Forall (fun j => JobTable.is_dead j = true
                         \/ in_internal_namespace prefix j = true) J)
    /\ (~ Forall (fun j => JobTable.is_dead j = true
                           \/ in_internal_namespace prefix j = true) J ->
        let n := List.length (List.filter (counts_as_active prefix) J) in
        (0 < n)%nat
        /\ is_active r = true
        /\ reason r
           = Some ("Number of active drivers: " ++ Py.str_of_nat n)%string).
Proof.
  intros Hreply. exists (classify prefix now J).
  unfold _get_job_activity_info. simpl. rewrite Hreply. simpl.
  split; [reflexivity|].
  unfold classify. rewrite count_driver_fold. simpl.
  rewrite <- no_active_iff.
  destruct (List.filter (counts_as_active prefix) J) as [|j l]; simpl.
  - split; [split; auto | intros H; destruct H; reflexivity].
  - split.
    + split; [intros [H _]; discriminate | discriminate].
    + intros _. repeat split. lia.
Qed.

Lemma activity_classification_witness :
  exists r,
    snd (_get_job_activity_info "_ray_internal_job_info_"
           (fun _ => Ok example_jobs) 0 5) = Ok r
    /\ is_active r = true
    /\ reason r = Some "Number of active drivers: 1".
Proof.
  destruct (activity_classification "_ray_internal_job_info_"
              (fun _ => Ok example_jobs) 0 5 example_jobs eq_refl)
    as (r & Hr & _ & Hactive).
  exists r. split; [exact Hr|].
  assert (Hnot : ~ Forall (fun j => JobTable.is_dead j = true
                     \/ in_internal_namespace "_ray_internal_job_info_" j = true)
                   example_jobs).
  { intros H. inversion H as [|? ? _ H2]; subst.
    inversion H2 as [|? ? [H3|H3] _]; discriminate H3. }
  destruct (Hactive Hnot) as (_ & Ha & Hreason).
  split; [exact Ha | exact Hreason].
Defined.

(** ** The timeout of the activity endpoint *)

Lemma decimal_char_facts (c : ascii) :
  is_decimal c = true ->
  Py.isspace_char c = false /\ Py.isdigit_char c = true
  /\ (Py.code c =? 43)%N = false /\ (Py.code c =? 45)%N = false
  /\ exists d, Py.decimal_value c = Some d.
Proof.
  destruct c as [[] [] [] [] [] [] [] []]; vm_compute; intros H;
    try discriminate H; repeat split; eexists; reflexivity.
Qed.

Lemma lstrip_decimal (s : list ascii) :
  Forall (fun c => is_decimal c = true) s -> Py.lstrip s = s.
Proof.
  destruct 1 as [|c s Hc _]; simpl; [reflexivity|].
  destruct (decimal_char_facts c Hc) as (-> & _). reflexivity.
Qed.

Lemma strip_decimal (s : list ascii) :
  Forall (fun c => is_decimal c = true) s -> Py.strip s = s.
Proof.
  intros H. unfold Py.strip. rewrite (lstrip_decimal s H).
  rewrite lstrip_decimal; [apply rev_involutive|].
  apply Forall_rev. exact H.
Qed.

Lemma int_digits_decimal (s : list ascii) (acc : Z) (prev : bool) :
  Forall (fun c => is_decimal c = true) s ->
  s <> [] \/ prev = true ->
  Py.int_digits acc prev s = Some (decimal_number acc s).
Proof.
  intros H. revert acc prev. induction H as [|c s Hc _ IH]; intros acc prev Hne.
  - destruct Hne as [Hne | ->]; [contradiction | reflexivity].
  - simpl. destruct (decimal_char_facts c Hc) as (_ & _ & _ & _ & d & ->).
    apply IH. right. reflexivity.
Qed.

Lemma all_chars_decimal (s : string) :
  Py.all_chars is_decimal s = true <->
  Forall (fun c => is_decimal c = true) (list_ascii_of_string s).
Proof.
  induction s as [|c s IH]; simpl.
  - split; auto.
  - rewrite andb_true_iff, Forall_cons_iff, IH. reflexivity.
Qed.

Lemma all_chars_weaken (p q : ascii -> bool) (s : string) :
  (forall c, p c = true -> q c = true) ->
  Py.all_chars p s = true -> Py.all_chars q s = true.
Proof.
  intros Hpq. induction s as [|c s IH]; simpl; [auto|].
  rewrite !andb_true_iff. intros [Hc Hs]. auto.
Qed.

Lemma count_digits_decimal (s : list ascii) :
  Forall (fun c => is_decimal c = true) s ->
  Py.count_digits s = Z.of_nat (List.length s).
Proof.
  intros H. unfold Py.count_digits. f_equal.
  induction H as [|c s Hc _ IH]; simpl; [reflexivity|].
  unfold is_decimal in Hc. destruct (Py.decimal_value c); [|discriminate].
  simpl. rewrite IH. reflexivity.
Qed.

Lemma length_list_ascii_of_string (s : string) :
  List.length (list_ascii_of_string s) = String.length s.
Proof. induction s as [|c s IH]; simpl; [|rewrite IH]; reflexivity. Qed.

(** [int] reads a non-empty string of ASCII decimal digits as the number it
    denotes when it has no more digits than the limit, and raises on a
    longer one. *)
Lemma int_decimal_cases (s : string) :
  Py.truthy s = true -> Py.all_chars is_decimal s = true ->
  Py.int s
  = if Py.int_max_str_digits <? Z.of_nat (String.length s)
    then Raise ValueError
    else Ok (decimal_number 0 (list_ascii_of_string s)).
Proof.
  intros Hne Hall. apply all_chars_decimal in Hall.
  unfold Py.int. rewrite (strip_decimal _ Hall).
  rewrite <- length_list_ascii_of_string.
  destruct s as [|c s]; [discriminate|]. simpl list_ascii_of_string in *.
  inversion Hall as [|? ? Hc Hs]; subst.
  destruct (decimal_char_facts c Hc) as (_ & _ & -> & -> & _).
  rewrite (int_digits_decimal (c :: list_ascii_of_string s) 0 false Hall).
  - rewrite (count_digits_decimal _ Hall). reflexivity.
  - left. discriminate.
Qed.

Lemma int_decimal (s : string) :
  Py.truthy s = true -> Py.all_chars is_decimal s = true ->
  Z.of_nat (String.length s) <= Py.int_max_str_digits ->
  Py.int s = Ok (decimal_number 0 (list_ascii_of_string s)).
Proof.
  intros Hne Hall Hlen. rewrite (int_decimal_cases s Hne Hall).
  destruct (Z.ltb_spec Py.int_max_str_digits (Z.of_nat (String.length s)));
    [lia | reflexivity].
Qed.

Lemma decimal_isdigit (s : string) :
  Py.truthy s = true -> Py.all_chars is_decimal s = true ->
  Py.isdigit s = true.
Proof.
  intros Hne Hall. destruct s; [discriminate|]. unfold Py.isdigit.
  apply (all_chars_weaken is_decimal); [|exact Hall].
  intros c Hc. apply (decimal_char_facts c Hc).
Qed.

(** What the code does on the inputs the claim is right about: a non-empty
    string of ASCII decimal digits, of no more digits than [int] accepts, is
    read as its number, and an absent, empty or non-digit parameter gives the
    default. *)
Lemma parse_timeout_decimal (q : query) (s : string) :
  query_get "timeout" q = Some s ->
  Py.truthy s = true -> Py.all_chars is_decimal s = true ->
  Z.of_nat (String.length s) <= Py.int_max_str_digits ->
  parse_timeout q = Ok (decimal_number 0 (list_ascii_of_string s)).
Proof.
  intros Hq Hne Hall Hlen. unfold parse_timeout. rewrite Hq, Hne.
  rewrite (decimal_isdigit s Hne Hall). simpl.
  apply int_decimal; assumption.
Qed.

Lemma parse_timeout_default (q : query) :
  query_get "timeout" q = None
  \/ (exists s, query_get "timeout" q = Some s /\ Py.isdigit s = false) ->
  parse_timeout q = Ok 5.
Proof.
  unfold parse_timeout. intros [-> | (s & -> & ->)]; [reflexivity|].
  rewrite andb_false_r. reflexivity.
Qed.

(** The timeout read from the query is the one passed to the job fetch. *)
Lemma activity_timeout_passed
    (prefix : string) (GetAllJobInfo : Z -> result (list JobTableData))
    (now : float64) (q : query) (timeout : Z) :
  parse_timeout q = Ok timeout ->
  fst (get_component_activities prefix GetAllJobInfo now q) = [timeout].
Proof. intros H. unfold get_component_activities. rewrite H. reflexivity. Qed.

(** C7, at the input where the code departs from it: the parameter
    [timeout] set to the single character U+00B2 passes [isdigit], [int]
    raises [ValueError] on it, and no job fetch is issued. *)
Theorem timeout_superscript_digit_raises
    (prefix : string) (GetAllJobInfo : Z -> result (list JobTableData))
    (now : float64) :
  Py.isdigit superscript_two = true
  /\ get_component_activities prefix GetAllJobInfo now
       [("timeout", superscript_two)]
     = ([], Raise ValueError).
Proof. split; reflexivity. Qed.

(** ** The snapshot endpoint *)

Section SnapshotFacts.

Context {J S A D N : Type}.

Lemma earlier_fold_spec (fs : list (option (nat * exn)))
    (acc : option (nat * exn)) :
  match fold_left earlier fs acc with
  | None => acc = None /\ Forall (fun f => f = None) fs
  | Some (t, e) =>
      (acc = Some (t, e) \/ In (Some (t, e)) fs)
      /\ (forall t' e', acc = Some (t', e') \/ In (Some (t', e')) fs ->
                        (t <= t')%nat)
  end.
Proof.
  revert acc. induction fs as [|f fs IH]; intros acc; simpl.
  - destruct acc as [[t e]|].
    + split; [auto|]. intros t' e' [H|[]]. injection H as -> _. lia.
    + auto.
  - specialize (IH (earlier acc f)).
    destruct (fold_left earlier fs (earlier acc f)) as [[t e]|].
    + destruct IH as [Hin Hmin]. split.
      * destruct Hin as [Hin|Hin]; [|auto].
        destruct acc as [[ta ea]|], f as [[tb eb]|]; simpl in Hin;
          try destruct (tb <? ta)%nat; auto; discriminate.
      * intros t' e' [H|[H|H]].
        -- subst acc. destruct f as [[tb eb]|]; simpl in Hmin.
           ++ destruct (Nat.ltb_spec tb t').
              ** specialize (Hmin tb eb (or_introl eq_refl)). lia.
              ** apply (Hmin t' e'). auto.
           ++ apply (Hmin t' e'). auto.
        -- subst f. destruct acc as [[ta ea]|]; simpl in Hmin.
           ++ destruct (Nat.ltb_spec t' ta).
              ** apply (Hmin t' e'). auto.
              ** specialize (Hmin ta ea (or_introl eq_refl)). lia.
           ++ apply (Hmin t' e'). auto.
        -- apply (Hmin t' e'). auto.
    + destruct IH as [Hacc Hall]. split.
      * destruct acc as [[ta ea]|], f as [[tb eb]|]; simpl in Hacc;
          try destruct (tb <? ta)%nat; try discriminate; reflexivity.
      * constructor; [|exact Hall].
        destruct acc as [[ta ea]|], f as [[tb eb]|]; simpl in Hacc;
          try destruct (tb <? ta)%nat; try discriminate; reflexivity.
Qed.

(** C3. If a fetch given to [gather] raises, the request raises and returns
    no payload: it fails with the error of the fetch that failed first, so
    with the error of the failing fetch itself when no other fetch failed
    before or together with it. *)
Theorem snapshot_fails_as_a_whole
    (version commit : string)
    (job_info : completed J) (job_submission : completed S)
    (actor_info : completed A) (serve_info : completed D)
    (session : completed N) (t : nat) (e : exn) :
  let fs := [failure job_info; failure job_submission; failure actor_info;
             failure serve_info; failure session] in
  In (Some (t, e)) fs ->
  (exists t0 e0,
      In (Some (t0, e0)) fs /\ (t0 <= t)%nat
      /\ snapshot version commit job_info job_submission actor_info
           serve_info session = Raise e0)
  /\ ((forall t' e', In (Some (t', e')) fs ->
                     (t', e') = (t, e) \/ (t < t')%nat) ->
      snapshot version commit job_info job_submission actor_info
        serve_info session = Raise e).
Proof.
  intros fs Hin.
  assert (Hfirst : exists t0 e0,
             first_failure fs = Some (t0, e0) /\ In (Some (t0, e0)) fs
             /\ (forall t' e', In (Some (t', e')) fs -> (t0 <= t')%nat)).
  { pose proof (earlier_fold_spec fs None) as H. unfold first_failure.
    destruct (fold_left earlier fs None) as [[t0 e0]|].
    - destruct H as [[H|H] Hmin]; [discriminate|].
      exists t0, e0. split; [reflexivity|]. split; [exact H|].
      intros t' e' H'. apply (Hmin t' e'). right. exact H'.
    - destruct H as [_ Hall]. rewrite List.Forall_forall in Hall.
      specialize (Hall _ Hin). discriminate. }
  destruct Hfirst as (t0 & e0 & Hff & Hin0 & Hmin).
  assert (Hsnap : snapshot version commit job_info job_submission actor_info
                    serve_info session = Raise e0).
  { unfold snapshot. fold fs. rewrite Hff. reflexivity. }
  split.
  - exists t0, e0. repeat split; auto. apply (Hmin t e Hin).
  - intros Honly. rewrite Hsnap.
    destruct (Honly t0 e0 Hin0) as [H|H].
    + injection H as _ ->. reflexivity.
    + specialize (Hmin t e Hin). lia.
Qed.

End SnapshotFacts.

Lemma snapshot_fails_as_a_whole_witness :
  snapshot (J := unit) (S := unit) (D := unit) (N := string) (A := unit)
    "2.0.0" "abc"
    (3%nat, Ok tt) (1%nat, Ok tt)
    (2%nat, Raise (UpstreamError "GetAllActorInfo timed out"))
    (4%nat, Ok tt) (5%nat, Ok "session")
  = Raise (UpstreamError "GetAllActorInfo timed out").
Proof.
  refine (proj2 (snapshot_fails_as_a_whole "2.0.0" "abc"
                   (3%nat, Ok tt) (1%nat, Ok tt)
                   (2%nat, Raise (UpstreamError "GetAllActorInfo timed out"))
                   (4%nat, Ok tt) (5%nat, Ok "session")
                   2%nat (UpstreamError "GetAllActorInfo timed out") _) _).
  - right. right. left. reflexivity.
  - intros t' e' [H|[H|[H|[H|[H|[]]]]]]; try discriminate H.
    injection H as <- <-. left. reflexivity.
Defined.

(** ** Dictionaries *)

Section DictFacts.

Context {V : Type}.

Lemma dict_get_set (k k' : string) (v : V) (d : dict V) :
  dict_get k (dict_set k' v d)
  = if String.eqb k' k then Some v else dict_get k d.
Proof.
  induction d as [|[k0 v0] d IH]; simpl.
  - reflexivity.
  - destruct (String.eqb k0 k') eqn:E0; simpl.
    + apply String.eqb_eq in E0. subst k0.
      destruct (String.eqb k' k); reflexivity.
    + destruct (String.eqb k0 k) eqn:E1; [|exact IH].
      apply String.eqb_eq in E1. subst k0. rewrite String.eqb_sym, E0.
      reflexivity.
Qed.

Lemma dict_get_app (k : string) (d1 d2 : dict V) :
  dict_get k (d1 ++ d2)
  = match dict_get k d1 with Some v => Some v | None => dict_get k d2 end.
Proof.
  induction d1 as [|[k0 v0] d1 IH]; simpl; [reflexivity|].
  destruct (String.eqb k0 k); [reflexivity | exact IH].
Qed.

(** Reading a dictionary built by a comprehension: the last item whose key
    is sent to [h] wins, and the initial dictionary answers otherwise. *)
Lemma dict_get_of_items (key : string -> string) (h : string)
    (items : list (string * V)) (acc : dict V) :
  dict_get h (dict_of_items key items acc)
  = match last_binding h (map (fun kv => (key (fst kv), snd kv)) items) with
    | Some v => Some v
    | None => dict_get h acc
    end.
Proof.
  unfold dict_of_items, last_binding. revert acc.
  induction items as [|[k v] items IH]; intros acc; simpl; [reflexivity|].
  rewrite IH, dict_get_app, dict_get_set. simpl.
  destruct (dict_get h (rev (map (fun kv => (key (fst kv), snd kv)) items)));
    [reflexivity|].
  destruct (String.eqb (key k) h); reflexivity.
Qed.

Lemma dict_set_keys (k : string) (v : V) (d : dict V) :
  map fst (dict_set k v d)
  = if dict_mem k d then map fst d else map fst d ++ [k].
Proof.
  unfold dict_mem. induction d as [|[k0 v0] d IH]; simpl; [reflexivity|].
  destruct (String.eqb k0 k) eqn:E; simpl; [reflexivity|].
  rewrite IH. destruct (dict_get k d); reflexivity.
Qed.

Lemma dict_get_None_keys (k : string) (d : dict V) :
  dict_get k d = None <-> ~ In k (map fst d).
Proof.
  induction d as [|[k0 v0] d IH]; simpl.
  - tauto.
  - destruct (String.eqb_spec k0 k) as [->|Hne].
    + split; [discriminate | intros H; destruct H; auto].
    + rewrite IH. tauto.
Qed.

Lemma dict_set_NoDup (k : string) (v : V) (d : dict V) :
  List.NoDup (map fst d) -> List.NoDup (map fst (dict_set k v d)).
Proof.
  intros H. rewrite dict_set_keys. unfold dict_mem.
  destruct (dict_get k d) eqn:E; [exact H|].
  apply dict_get_None_keys in E.
  apply NoDup_ListNoDup, NoDup_app. repeat split.
  - apply NoDup_ListNoDup. exact H.
  - intros x Hx Hk. apply list_elem_of_In in Hx.
    apply list_elem_of_singleton in Hk. subst x. exact (E Hx).
  - apply NoDup_singleton.
Qed.

Lemma dict_of_items_NoDup (key : string -> string)
    (items : list (string * V)) (acc : dict V) :
  List.NoDup (map fst acc) ->
  List.NoDup (map fst (dict_of_items key items acc)).
Proof.
  unfold dict_of_items. revert acc.
  induction items as [|kv items IH]; intros acc H; simpl; [exact H|].
  apply IH, dict_set_NoDup, H.
Qed.

(** In a dictionary with distinct keys, the last binding of a key is its
    only binding. *)
Lemma last_binding_NoDup (k : string) (d : dict V) :
  List.NoDup (map fst d) -> last_binding k d = dict_get k d.
Proof.
  unfold last_binding. induction d as [|[k0 v0] d IH]; intros H; simpl.
  - reflexivity.
  - inversion H as [|? ? Hnotin Hd]; subst.
    rewrite dict_get_app, (IH Hd). simpl.
    destruct (String.eqb_spec k0 k) as [->|Hne].
    + apply dict_get_None_keys in Hnotin. rewrite Hnotin. reflexivity.
    + destruct (dict_get k d); reflexivity.
Qed.

End DictFacts.

(** ** The deployment snapshot resolver *)

Lemma mapM_result_cons {A B} (f : A -> result B) (x : A) (l : list A) :
  mapM f (x :: l)
  = match f x with
    | Ok y => match mapM f l with
              | Ok ys => Ok (y :: ys)
              | Raise e => Raise e
              end
    | Raise e => Raise e
    end.
Proof. reflexivity. Qed.

Lemma mapM_result_Ok {A B} (f : A -> result B) (l : list A) (ys : list B) :
  Forall2 (fun x y => f x = Ok y) l ys -> mapM f l = Ok ys.
Proof.
  induction 1 as [|x y l ys Hx _ IH]; [reflexivity|].
  rewrite mapM_result_cons, Hx, IH. reflexivity.
Qed.

Lemma mapM_result_Raise {A B} (f : A -> result B)
    (pre : list A) (x : A) (post : list A) (e : exn) :
  (forall k, In k pre -> exists y, f k = Ok y) ->
  f x = Raise e ->
  mapM f (pre ++ x :: post) = Raise e.
Proof.
  intros Hpre Hx. induction pre as [|k pre IH]; simpl app.
  - rewrite mapM_result_cons, Hx. reflexivity.
  - rewrite mapM_result_cons.
    destruct (Hpre k (or_introl eq_refl)) as [y ->].
    rewrite IH; [reflexivity|]. intros k' Hk'. apply Hpre. right. exact Hk'.
Qed.

Lemma last_binding_app {V} (k : string) (a b : list (string * V)) :
  last_binding k (a ++ b)
  = match last_binding k b with
    | Some v => Some v
    | None => last_binding k a
    end.
Proof. unfold last_binding. rewrite rev_app_distr. apply dict_get_app. Qed.

Lemma last_binding_concat_None {V} (k : string)
    (ds : list (list (string * V))) :
  Forall (fun d => last_binding k d = None) ds ->
  last_binding k (concat ds) = None.
Proof.
  induction 1 as [|d ds Hd _ IH]; simpl; [reflexivity|].
  rewrite last_binding_app, IH. exact Hd.
Qed.

Lemma dict_get_rekey {V} (key : string -> string) (k : string)
    (d : list (string * V)) :
  (forall k', In k' (map fst d) -> key k' = key k -> k' = k) ->
  dict_get (key k) (map (fun kv => (key (fst kv), snd kv)) d) = dict_get k d.
Proof.
  induction d as [|[k0 v0] d IH]; intros Hinj; simpl; [reflexivity|].
  destruct (String.eqb_spec k0 k) as [->|Hne].
  - rewrite String.eqb_refl. reflexivity.
  - destruct (String.eqb_spec (key k0) (key k)) as [Heq|_].
    + destruct Hne. apply Hinj; [left; reflexivity | exact Heq].
    + apply IH. intros k' Hk'. apply Hinj. right. exact Hk'.
Qed.

Lemma items_identity {V} (items : list (string * V)) :
  map (fun kv => (fst kv, snd kv)) items = items.
Proof.
  induction items as [|[k v] items IH]; simpl; [|rewrite IH]; reflexivity.
Qed.

Section ResolverFacts.

Variable utf8_decode : bytes -> result string.
Variable json_loads : string -> result json.
Variable sha1_hexdigest : string -> string.
Variable kv : kv_store.

Local Abbreviation load := (load_snapshot utf8_decode json_loads kv).
Local Abbreviation resolve :=
  (get_serve_info utf8_decode json_loads sha1_hexdigest).

Lemma merge_from_dicts (dicts : list (list (string * json)))
    (acc : dict json) :
  merge_from acc (map JDict dicts)
  = Ok (dict_of_items (fun k => k) (concat dicts) acc).
Proof.
  revert acc. induction dicts as [|d dicts IH]; intros acc; simpl.
  - reflexivity.
  - rewrite IH. unfold dict_of_items. rewrite fold_left_app. reflexivity.
Qed.

(** The resolver on a store whose snapshot values all decode to JSON
    objects: the objects are merged in scan order and the names hashed. *)
Lemma get_deployments_dicts (c : serve_constants) (ks : list bytes)
    (dicts : list (list (string * json))) :
  _internal_kv_list kv (SERVE_CONTROLLER_NAME c) = Ok ks ->
  Forall2 (fun k d => load k = Ok (JDict d)) (snapshot_keys c ks) dicts ->
  get_deployments utf8_decode json_loads sha1_hexdigest kv c
  = Ok (rehash sha1_hexdigest
          (dict_of_items (fun k => k) (concat dicts) [])).
Proof.
  intros Hks Hload. unfold get_deployments. rewrite Hks. simpl.
  rewrite (mapM_result_Ok _ _ (map JDict dicts)).
  - simpl. rewrite merge_from_dicts. reflexivity.
  - clear Hks. induction Hload; simpl; constructor; auto.
Qed.

(** C2, amended. A snapshot key whose value is missing or empty is read as
    the empty JSON object, so a store whose snapshot values are all missing
    or empty resolves to the empty mapping without error; a malformed value
    is not recovered: the decode error of the first malformed value is raised
    by the resolver. *)
Theorem missing_or_empty_value_is_empty
    (c : serve_constants) (ks : list bytes) :
  utf8_decode empty_object_bytes = Ok "{}" ->
  json_loads "{}" = Ok (JDict []) ->
  _internal_kv_list kv (SERVE_CONTROLLER_NAME c) = Ok ks ->
  (forall key,
      _internal_kv_get kv key = Ok None
      \/ _internal_kv_get kv key = Ok (Some []) ->
      load key = Ok (JDict []))
  /\ ((forall key, In key (snapshot_keys c ks) ->
         _internal_kv_get kv key = Ok None
         \/ _internal_kv_get kv key = Ok (Some [])) ->
      resolve (Some c) kv = Ok [])
  /\ (forall pre key post b text e,
         snapshot_keys c ks = pre ++ key :: post ->
         (forall k, In k pre -> exists j, load k = Ok j) ->
         _internal_kv_get kv key = Ok (Some b) ->
         b <> [] ->
         utf8_decode b = Ok text ->
         json_loads text = Raise e ->
         resolve (Some c) kv = Raise e).
Proof.
  intros Hdec Hloads Hks.
  assert (Hempty : forall key,
             _internal_kv_get kv key = Ok None
             \/ _internal_kv_get kv key = Ok (Some []) ->
             load key = Ok (JDict [])).
  { intros key [H|H]; unfold load_snapshot; rewrite H; simpl;
      rewrite Hdec; simpl; exact Hloads. }
  split; [exact Hempty|]. split.
  - intros Hall. simpl.
    rewrite (get_deployments_dicts c ks (map (fun _ => []) (snapshot_keys c ks)) Hks).
    + replace (concat (map (fun _ : bytes => []) (snapshot_keys c ks)))
        with (@nil (string * json)); [reflexivity|].
      clear Hall. induction (snapshot_keys c ks); simpl; auto.
    + induction (snapshot_keys c ks) as [|k l IH]; simpl; constructor.
      * apply Hempty, Hall. left. reflexivity.
      * apply IH. intros key Hkey. apply Hall. right. exact Hkey.
  - intros pre key post b text e Hsplit Hpre Hget Hne Htext He.
    simpl. unfold get_deployments. rewrite Hks. simpl. rewrite Hsplit.
    rewrite (mapM_result_Raise _ pre key post e Hpre); [reflexivity|].
    unfold load_snapshot. rewrite Hget. simpl.
    destruct b as [|x b]; [contradiction|]. simpl.
    rewrite Htext. simpl. exact He.
Qed.

(** C5. When the snapshot keys [k1] and then [k2], in scan order, both
    define the deployment [name] and no later key does, the merged mapping
    binds [name] to the value of [k2]; the resolver returns the merged
    mapping with every name replaced by its digest, where the value of [k2]
    is found under the digest of [name] when no other merged name has that
    digest. *)
Theorem later_key_wins
    (c : serve_constants) (ks : list bytes)
    (keys1 keys2 keys3 : list bytes) (k1 k2 : bytes)
    (dicts1 dicts2 dicts3 : list (list (string * json)))
    (d1 d2 : list (string * json)) (name : string) (v1 v2 : json) :
  _internal_kv_list kv (SERVE_CONTROLLER_NAME c) = Ok ks ->
  snapshot_keys c ks = keys1 ++ k1 :: keys2 ++ k2 :: keys3 ->
  Forall2 (fun k d => load k = Ok (JDict d)) keys1 dicts1 ->
  load k1 = Ok (JDict d1) ->
  Forall2 (fun k d => load k = Ok (JDict d)) keys2 dicts2 ->
  load k2 = Ok (JDict d2) ->
  Forall2 (fun k d => load k = Ok (JDict d)) keys3 dicts3 ->
  last_binding name d1 = Some v1 ->
  last_binding name d2 = Some v2 ->
  Forall (fun d => last_binding name d = None) dicts3 ->
  let merged :=
    dict_of_items (fun k => k)
      (concat (dicts1 ++ d1 :: dicts2 ++ d2 :: dicts3)) [] in
  resolve (Some c) kv = Ok (rehash sha1_hexdigest merged)
  /\ dict_get name merged = Some v2
  /\ ((forall name', In name' (map fst merged) ->
         sha1_hexdigest name' = sha1_hexdigest name -> name' = name) ->
      dict_get (sha1_hexdigest name) (rehash sha1_hexdigest merged)
      = Some v2).
Proof.
  intros Hks Hsplit H1 Hk1 H2 Hk2 H3 Hv1 Hv2 Hlater merged.
  assert (Hmerged : dict_get name merged = Some v2).
  { unfold merged. rewrite dict_get_of_items, items_identity.
    rewrite concat_app. simpl. rewrite concat_app. simpl.
    rewrite !last_binding_app, (last_binding_concat_None _ _ Hlater), Hv2.
    reflexivity. }
  split; [|split; [exact Hmerged|]].
  - simpl. apply (get_deployments_dicts c ks _ Hks). rewrite Hsplit.
    apply Forall2_app; [exact H1|]. constructor; [exact Hk1|].
    apply Forall2_app; [exact H2|]. constructor; [exact Hk2 | exact H3].
  - intros Hinj. unfold rehash. rewrite dict_get_of_items.
    assert (Hnodup : List.NoDup (map fst merged)).
    { apply dict_of_items_NoDup. constructor. }
    unfold last_binding. rewrite <- map_rev.
    rewrite dict_get_rekey.
    + fold (last_binding name merged).
      rewrite (last_binding_NoDup _ _ Hnodup), Hmerged. reflexivity.
    + intros name' Hin. apply Hinj. rewrite map_rev in Hin.
      apply in_rev in Hin. exact Hin.
Qed.

End ResolverFacts.

(** C2 as stated fails: a snapshot value that is malformed JSON makes the
    resolver raise the decode error. *)
Lemma malformed_value_raises :
  get_serve_info JsonText.decode JsonText.loads JsonText.digest
    (Some serve_constants_example) malformed_store
  = Raise JSONDecodeError.
Proof. vm_compute. reflexivity. Qed.

Lemma missing_or_empty_value_is_empty_witness :
  load_snapshot JsonText.decode JsonText.loads mixed_store key_a
  = Ok (JDict [])
  /\ load_snapshot JsonText.decode JsonText.loads mixed_store key_b
     = Ok (JDict [])
  /\ get_serve_info JsonText.decode JsonText.loads JsonText.digest
       (Some serve_constants_example) mixed_store
     = Raise JSONDecodeError.
Proof.
  destruct (missing_or_empty_value_is_empty
              JsonText.decode JsonText.loads JsonText.digest mixed_store
              serve_constants_example
              [key_a; key_b; key_checkpoint; key_c]
              eq_refl eq_refl eq_refl)
    as (Hempty & _ & Hraise).
  split; [apply Hempty; left; reflexivity|].
  split; [apply Hempty; right; reflexivity|].
  apply (Hraise [key_a; key_b] key_c []
           (list_byte_of_string "[1,") "[1," JSONDecodeError).
  - vm_compute. reflexivity.
  - intros k [<-|[<-|[]]]; exists (JDict []); vm_compute; reflexivity.
  - reflexivity.
  - discriminate.
  - reflexivity.
  - reflexivity.
Defined.

Lemma later_key_wins_witness :
  get_serve_info JsonText.decode JsonText.loads JsonText.digest
    (Some serve_constants_example) two_controllers_store
  = Ok [("sha1:svc", JInt 2); ("sha1:other", JInt 3)]
  /\ dict_get "sha1:svc" [("sha1:svc", JInt 2); ("sha1:other", JInt 3)]
     = Some (JInt 2).
Proof.
  destruct (later_key_wins
              JsonText.decode JsonText.loads JsonText.digest
              two_controllers_store serve_constants_example
              [key_a; key_b; key_c] [] [] [key_c] key_a key_b
              [] [] [[("other", JInt 3)]]
              [("svc", JInt 1)] [("svc", JInt 2)] "svc" (JInt 1) (JInt 2))
    as (Hresolve & _ & Hdigest).
  - reflexivity.
  - vm_compute. reflexivity.
  - constructor.
  - vm_compute. reflexivity.
  - constructor.
  - vm_compute. reflexivity.
  - constructor; [vm_compute; reflexivity | constructor].
  - reflexivity.
  - reflexivity.
  - constructor; [reflexivity | constructor].
  - split; [exact Hresolve|]. apply Hdigest.
    intros name' [<-|[<-|[]]] H; [reflexivity | discriminate H].
Defined.

(** ** The heap: running the operations *)

#[local] Arguments setitem : simpl never.
#[local] Arguments subscript : simpl never.
#[local] Arguments items : simpl never.
#[local] Arguments has_key : simpl never.
#[local] Arguments alloc : simpl never.
#[local] Arguments attach : simpl never.
#[local] Arguments extend : simpl never.
#[local] Arguments getitem : simpl never.
#[local] Arguments getitems : simpl never.
#[local] Arguments dict_at : simpl never.

Lemma run_bind {A B} (m : M A) (k : A -> M B) (w : world) :
  (m ≫= k) w
  = match m w with
    | Ok (a, w') => k a w'
    | Raise e => Raise e
    end.
Proof. reflexivity. Qed.

Lemma run_reading {A} (f : heap -> result A) (w : world) :
  reading f w
  = match f (objects w) with
    | Ok a => Ok (a, w)
    | Raise e => Raise e
    end.
Proof. reflexivity. Qed.

Lemma run_setitem (l : loc) (d : dict val) (k : string) (x : val)
    (w : world) :
  dict_at (objects w) l = Ok d ->
  setitem (VRef l) k x w
  = Ok (tt, {| objects := <[l := ODict (dict_set k x d)]> (objects w);
               serve_calls := serve_calls w |}).
Proof.
  unfold dict_at, setitem. intros H. rewrite run_bind. unfold read.
  destruct (objects w !! l) as [[d'|vs]|]; try discriminate H.
  injection H as ->. reflexivity.
Qed.

Lemma dict_at_lt (h : heap) (l : loc) (d : dict val) :
  dict_at h l = Ok d -> (l < List.length h)%nat.
Proof.
  unfold dict_at. destruct (h !! l) as [o|] eqn:E; [|discriminate].
  intros _. apply lookup_lt_Some in E. exact E.
Qed.

Lemma insert_last {A} (l : list A) (x y : A) :
  <[List.length l := y]> (l ++ [x]) = l ++ [y].
Proof.
  induction l as [|a l IH]; simpl; [reflexivity|]. f_equal. exact IH.
Qed.

Lemma lookup_last {A} (l : list A) (x : A) :
  (l ++ [x]) !! List.length l = Some x.
Proof. induction l as [|a l IH]; simpl; [reflexivity | exact IH]. Qed.

Lemma dict_get_In {V} (k : string) (d : dict V) (v : V) :
  dict_get k d = Some v -> In (k, v) d.
Proof.
  induction d as [|[k0 v0] d IH]; simpl; [discriminate|].
  destruct (String.eqb_spec k0 k) as [->|_].
  - intros H. injection H as ->. left. reflexivity.
  - intros H. right. apply IH, H.
Qed.

(** ** The join: what it reads and what it writes *)

Section JoinFacts.

Variable h0 : heap.
Variable la : loc.
Hypothesis Hshape : actors_shape h0 la.

Lemma metadata_cell_inv (m : loc) :
  metadata_cell h0 la m ->
  exists da dm,
    dict_at h0 la = Ok da /\ dict_at h0 m = Ok dm /\ m <> la
    /\ (forall actor_id, dict_get actor_id da <> Some (VRef m)).
Proof.
  intros [aid Hm]. destruct Hshape as (da & Hda & Hentries & _).
  unfold metadata_loc in Hm. rewrite Hda in Hm.
  destruct (dict_get aid da) as [v|] eqn:Hv; [|discriminate].
  destruct (Hentries aid v Hv)
    as (e & de & m' & dm & -> & He & Hmd & Hdm & _ & Hne & Hnot).
  unfold getitem in Hm. unfold dict_at in He.
  destruct (h0 !! e) as [[d|vs]|]; try discriminate He.
  injection He as ->. rewrite Hmd in Hm. injection Hm as <-.
  exists da, dm. auto.
Qed.

Lemma actors_not_metadata : ~ metadata_cell h0 la la.
Proof.
  intros H. destruct (metadata_cell_inv la H) as (_ & _ & _ & _ & Hne & _).
  apply Hne. reflexivity.
Qed.

Lemma entry_not_metadata (da : dict val) (actor_id : string) (e : loc) :
  dict_at h0 la = Ok da -> dict_get actor_id da = Some (VRef e) ->
  ~ metadata_cell h0 la e.
Proof.
  intros Hda He H.
  destruct (metadata_cell_inv e H) as (da' & _ & Hda' & _ & _ & Hnot).
  rewrite Hda in Hda'. injection Hda' as <-. exact (Hnot actor_id He).
Qed.

Lemma frame_inv_start (w : world) : objects w = h0 -> frame_inv h0 la w.
Proof.
  intros Hw. unfold frame_inv. rewrite Hw.
  split; [lia|]. split; [reflexivity|].
  intros m Hm. destruct (metadata_cell_inv m Hm) as (_ & dm & _ & Hdm & _).
  exists dm. exact Hdm.
Qed.

Lemma frame_dict_at (w : world) (l : loc) (d : dict val) :
  frame_inv h0 la w -> dict_at h0 l = Ok d -> ~ metadata_cell h0 la l ->
  dict_at (objects w) l = Ok d.
Proof.
  intros (_ & Hframe & _) Hd Hnot. unfold dict_at.
  rewrite (Hframe l (dict_at_lt _ _ _ Hd) Hnot). exact Hd.
Qed.

Lemma frame_metadata_loc (w : world) (actor_id : string) :
  frame_inv h0 la w ->
  metadata_loc (objects w) la actor_id = metadata_loc h0 la actor_id.
Proof.
  intros Hinv. destruct Hshape as (da & Hda & Hentries & _).
  unfold metadata_loc.
  rewrite (frame_dict_at w la da Hinv Hda actors_not_metadata), Hda.
  destruct (dict_get actor_id da) as [v|] eqn:Hv; [|reflexivity].
  destruct (Hentries actor_id v Hv) as (e & de & m & dm & -> & He & _).
  pose proof (frame_dict_at w e de Hinv He
                (entry_not_metadata da actor_id e Hda Hv)) as He'.
  unfold getitem. unfold dict_at in He, He'.
  destruct (h0 !! e) as [[d|vs]|]; try discriminate He.
  destruct (objects w !! e) as [[d'|vs']|]; try discriminate He'.
  injection He as ->. injection He' as ->. reflexivity.
Qed.

Lemma frame_getitem (w : world) (v : val) (k : string) :
  frame_inv h0 la w -> apart h0 la v ->
  getitem (objects w) v k = getitem h0 v k.
Proof.
  intros (_ & Hframe & _) Hv. destruct v as [| | | | |l]; try reflexivity.
  destruct (Hv l (reaches_here h0 l)) as [Hlt Hnot].
  unfold getitem. rewrite (Hframe l Hlt Hnot). reflexivity.
Qed.

Lemma frame_getitems (w : world) (v : val) :
  frame_inv h0 la w -> apart h0 la v ->
  getitems (objects w) v = getitems h0 v.
Proof.
  intros (_ & Hframe & _) Hv. destruct v as [| | | | |l]; try reflexivity.
  destruct (Hv l (reaches_here h0 l)) as [Hlt Hnot].
  unfold getitems. rewrite (Hframe l Hlt Hnot). reflexivity.
Qed.

Lemma apart_getitem (v v' : val) (k : string) :
  apart h0 la v -> getitem h0 v k = Ok v' -> apart h0 la v'.
Proof.
  intros Hv Hget l Hl. apply Hv.
  destruct v as [| | | | |l0]; try discriminate Hget. unfold getitem in Hget.
  destruct (h0 !! l0) as [[d|vs]|] eqn:E; try discriminate Hget.
  destruct (dict_get k d) as [x|] eqn:Ek; [|discriminate Hget].
  injection Hget as ->.
  exact (reaches_dict h0 l0 d k v' l E (dict_get_In k d v' Ek) Hl).
Qed.

Lemma apart_getitems (v : val) (its : list (string * val)) :
  apart h0 la v -> getitems h0 v = Ok its ->
  forall kv, In kv its -> apart h0 la (snd kv).
Proof.
  intros Hv Hget [k v'] Hin l Hl. apply Hv.
  destruct v as [| | | | |l0]; try discriminate Hget. unfold getitems in Hget.
  destruct (h0 !! l0) as [[d|vs]|] eqn:E; try discriminate Hget.
  injection Hget as ->.
  exact (reaches_dict h0 l0 its k v' l E Hin Hl).
Qed.


Lemma run_alloc (o : obj) (w : world) :
  alloc o w = Ok (List.length (objects w), extend w o).
Proof. reflexivity. Qed.

Lemma extend_dict_at (w : world) (o : obj) (l : loc) (d : dict val) :
  dict_at (objects w) l = Ok d -> dict_at (objects (extend w o)) l = Ok d.
Proof.
  intros H. unfold dict_at. simpl.
  rewrite (lookup_app_l _ _ _ (dict_at_lt _ _ _ H)). exact H.
Qed.

Lemma setitem_extend (w : world) (d : dict val) (k : string) (x : val) :
  setitem (VRef (List.length (objects w))) k x (extend w (ODict d))
  = Ok (tt, extend w (ODict (dict_set k x d))).
Proof.
  rewrite (run_setitem _ d).
  - unfold extend. simpl. rewrite insert_last. reflexivity.
  - unfold dict_at. simpl. rewrite lookup_last. reflexivity.
Qed.

Lemma extend_frame_inv (w : world) (o : obj) :
  frame_inv h0 la w -> frame_inv h0 la (extend w o).
Proof.
  intros (Hlen & Hframe & Hmd). unfold frame_inv. simpl.
  rewrite length_app. split; [lia|]. split.
  - intros l Hl Hnot. rewrite lookup_app_l by lia. apply Hframe; assumption.
  - intros m Hm. destruct (Hmd m Hm) as [dm Hdm]. exists dm.
    apply (extend_dict_at w o m dm Hdm).
Qed.

Lemma attach_frame_inv (w : world) (a : attachment) :
  frame_inv h0 la w -> frame_inv h0 la (attach la w a).
Proof.
  intros Hinv. unfold attach.
  destruct (metadata_loc (objects w) la (fst a)) as [m|] eqn:Hm; [|exact Hinv].
  destruct (dict_at (objects w) m) as [dm|] eqn:Hdm; [|exact Hinv].
  rewrite (frame_metadata_loc w _ Hinv) in Hm.
  assert (Hcell : metadata_cell h0 la m) by (exists (fst a); exact Hm).
  destruct (extend_frame_inv w (ODict (snd a)) Hinv) as (Hlen & Hframe & Hmd).
  unfold frame_inv. simpl in *. rewrite length_insert.
  split; [exact Hlen|]. split.
  - intros l Hl Hnot. rewrite list_lookup_insert_ne.
    + apply Hframe; assumption.
    + intros ->. exact (Hnot Hcell).
  - intros m' Hm'. unfold dict_at.
    destruct (decide (m = m')) as [->|Hne].
    + rewrite list_lookup_insert_eq; [eexists; reflexivity|].
      rewrite length_app. apply dict_at_lt in Hdm. lia.
    + rewrite list_lookup_insert_ne by exact Hne. apply (Hmd m' Hm').
Qed.

Lemma attach_all_frame_inv (atts : list attachment) (w : world) :
  frame_inv h0 la w -> frame_inv h0 la (fold_left (attach la) atts w).
Proof.
  revert w. induction atts as [|a atts IH]; intros w Hinv; simpl; [exact Hinv|].
  apply IH, attach_frame_inv, Hinv.
Qed.

(** An actor id of [actors] has a metadata dictionary. *)
Lemma member_metadata_loc (da : dict val) (actor_id : string) :
  dict_at h0 la = Ok da -> dict_mem actor_id da = true ->
  exists e m,
    dict_get actor_id da = Some (VRef e)
    /\ getitem h0 (VRef e) "metadata" = Ok (VRef m)
    /\ metadata_loc h0 la actor_id = Some m.
Proof.
  intros Hda Hmem. destruct Hshape as (da' & Hda' & Hentries & _).
  rewrite Hda in Hda'. injection Hda' as <-.
  unfold dict_mem in Hmem.
  destruct (dict_get actor_id da) as [v|] eqn:Hv; [|discriminate].
  destruct (Hentries actor_id v Hv) as (e & de & m & dm & -> & He & Hmd & _).
  assert (Hget : getitem h0 (VRef e) "metadata" = Ok (VRef m)).
  { unfold getitem. unfold dict_at in He.
    destruct (h0 !! e) as [[d|vs]|]; try discriminate He.
    injection He as ->. rewrite Hmd. reflexivity. }
  exists e, m. split; [reflexivity|]. split; [exact Hget|].
  unfold metadata_loc. rewrite Hda, Hv, Hget. reflexivity.
Qed.

(** One turn of the inner loop does what [attachments_of_replica] says. *)
Lemma join_replica_run (w : world) (da : dict val) (dinfo : val)
    (r : string * val) :
  frame_inv h0 la w -> dict_at h0 la = Ok da ->
  apart h0 la dinfo -> apart h0 la (snd r) ->
  join_replica la dinfo r w
  = match attachments_of_replica h0 da dinfo r with
    | Ok atts => Ok (tt, fold_left (attach la) atts w)
    | Raise e => Raise e
    end.
Proof.
  intros Hinv Hda Hdinfo Hainfo. destruct r as [rid ainfo]. simpl in Hainfo.
  unfold join_replica, attachments_of_replica. simpl fst. simpl snd.
  rewrite run_bind. unfold has_key. rewrite run_reading.
  rewrite (frame_dict_at w la da Hinv Hda actors_not_metadata). simpl.
  destruct (dict_mem rid da) eqn:Hmem; [|reflexivity].
  destruct (member_metadata_loc da rid Hda Hmem) as (e & m & He & Hmeta & Hm).
  rewrite run_bind, run_alloc.
  unfold serve_metadata_of.
  (* replica_tag *)
  rewrite run_bind. unfold subscript at 1. rewrite run_reading.
  rewrite (frame_getitem _ ainfo _ (extend_frame_inv w _ Hinv) Hainfo).
  destruct (getitem h0 ainfo "replica_tag") as [v1|]; [|reflexivity]. simpl.
  rewrite run_bind, setitem_extend. simpl dict_set.
  (* deployment_name *)
  rewrite run_bind. unfold subscript at 1. rewrite run_reading.
  rewrite (frame_getitem _ dinfo _ (extend_frame_inv w _ Hinv) Hdinfo).
  destruct (getitem h0 dinfo "name") as [v2|]; [|reflexivity]. simpl.
  rewrite run_bind, setitem_extend. simpl dict_set.
  (* version *)
  rewrite run_bind. unfold subscript at 1. rewrite run_reading.
  rewrite (frame_getitem _ ainfo _ (extend_frame_inv w _ Hinv) Hainfo).
  destruct (getitem h0 ainfo "version") as [v3|]; [|reflexivity]. simpl.
  rewrite run_bind, setitem_extend. simpl dict_set.
  (* the attachment *)
  set (sm := [("replica_tag", v1); ("deployment_name", v2); ("version", v3)]).
  pose proof (extend_frame_inv w (ODict sm) Hinv) as Hinv'.
  assert (Hentry : getitem (objects (extend w (ODict sm))) (VRef la) rid
                   = Ok (VRef e)).
  { unfold getitem.
    pose proof (frame_dict_at _ la da Hinv' Hda actors_not_metadata) as H.
    unfold dict_at in H.
    destruct (objects (extend w (ODict sm)) !! la) as [[d|vs]|];
      try discriminate H.
    injection H as ->. rewrite He. reflexivity. }
  rewrite run_bind. unfold subscript at 1. rewrite run_reading, Hentry.
  assert (Hmd : getitem (objects (extend w (ODict sm))) (VRef e) "metadata"
                = Ok (VRef m)).
  { rewrite <- Hmeta. unfold getitem.
    destruct Hinv' as (_ & Hframe & _). rewrite Hframe; [reflexivity| |].
    - unfold getitem in Hmeta.
      destruct (h0 !! e) eqn:E; [|discriminate Hmeta].
      apply lookup_lt_Some in E. exact E.
    - apply (entry_not_metadata da rid e Hda He). }
  rewrite run_bind. unfold subscript. rewrite run_reading, Hmd.
  assert (Hcell : metadata_cell h0 la m) by (exists rid; exact Hm).
  destruct Hinv as (Hlen & Hframe & Hmdcells).
  destruct (Hmdcells m Hcell) as [dm Hdm].
  rewrite (run_setitem m dm); [|apply extend_dict_at, Hdm].
  simpl. unfold attach. simpl fst. simpl snd.
  rewrite (frame_metadata_loc w rid (conj Hlen (conj Hframe Hmdcells))), Hm, Hdm.
  reflexivity.
Qed.


Lemma for_each_cons {A} (body : A -> M unit) (x : A) (xs : list A)
    (w : world) :
  for_each body (x :: xs) w
  = match body x w with
    | Ok (_, w') => for_each body xs w'
    | Raise e => Raise e
    end.
Proof. simpl. rewrite run_bind. destruct (body x w) as [[[] w']|]; reflexivity. Qed.

(** A loop whose turns are attachments is the attachments of its turns. *)
Lemma for_each_run {A} (body : A -> M unit)
    (f : A -> result (list attachment)) (xs : list A) (w : world) :
  (forall x w', In x xs -> frame_inv h0 la w' ->
     body x w'
     = match f x with
       | Ok atts => Ok (tt, fold_left (attach la) atts w')
       | Raise e => Raise e
       end) ->
  frame_inv h0 la w ->
  for_each body xs w
  = match mapM f xs with
    | Ok attss => Ok (tt, fold_left (attach la) (concat attss) w)
    | Raise e => Raise e
    end.
Proof.
  revert w. induction xs as [|x xs IH]; intros w Hbody Hinv.
  - reflexivity.
  - rewrite for_each_cons, mapM_result_cons.
    rewrite (Hbody x w (or_introl eq_refl) Hinv).
    destruct (f x) as [atts|e]; [|reflexivity].
    rewrite IH.
    + destruct (mapM f xs) as [attss|e]; [|reflexivity].
      simpl concat. rewrite fold_left_app. reflexivity.
    + intros x' w' Hx'. apply Hbody. right. exact Hx'.
    + apply attach_all_frame_inv, Hinv.
Qed.

Lemma join_deployment_run (w : world) (da : dict val) (d : string * val) :
  frame_inv h0 la w -> dict_at h0 la = Ok da -> apart h0 la (snd d) ->
  join_deployment la d w
  = match attachments_of_deployment h0 da d with
    | Ok atts => Ok (tt, fold_left (attach la) atts w)
    | Raise e => Raise e
    end.
Proof.
  intros Hinv Hda Hd. unfold join_deployment, attachments_of_deployment.
  rewrite run_bind. unfold subscript. rewrite run_reading.
  rewrite (frame_getitem w _ _ Hinv Hd).
  destruct (getitem h0 (snd d) "actors") as [rd|] eqn:Hrd; [|reflexivity].
  pose proof (apart_getitem _ _ _ Hd Hrd) as Hrd'.
  simpl. rewrite run_bind. unfold items. rewrite run_reading.
  rewrite (frame_getitems w _ Hinv Hrd').
  destruct (getitems h0 rd) as [rs|] eqn:Hrs; [|reflexivity].
  simpl.
  rewrite (for_each_run _ (attachments_of_replica h0 da (snd d)) rs w).
  - destruct (mapM (attachments_of_replica h0 da (snd d)) rs); reflexivity.
  - intros r w' Hr Hinv'. apply join_replica_run; auto.
    apply (apart_getitems rd rs Hrd' Hrs r Hr).
  - exact Hinv.
Qed.

Lemma join_run (w : world) (ld : val) :
  frame_inv h0 la w -> apart h0 la ld ->
  join la ld w
  = match attachments h0 la ld with
    | Ok atts => Ok (tt, fold_left (attach la) atts w)
    | Raise e => Raise e
    end.
Proof.
  intros Hinv Hld. unfold join, attachments.
  rewrite run_bind. unfold items. rewrite run_reading.
  rewrite (frame_getitems w _ Hinv Hld).
  destruct (getitems h0 ld) as [ds|] eqn:Hds; [|reflexivity].
  destruct Hshape as (da & Hda & _). rewrite Hda. simpl.
  rewrite (for_each_run _ (attachments_of_deployment h0 da) ds w).
  - destruct (mapM (attachments_of_deployment h0 da) ds); reflexivity.
  - intros d w' Hd Hinv'. apply join_deployment_run; auto.
    apply (apart_getitems ld ds Hld Hds d Hd).
  - exact Hinv.
Qed.

End JoinFacts.

(** The join is the attachments that the heap it starts from prescribes. *)
Lemma join_spec (w : world) (la : loc) (ld : val) :
  actors_shape (objects w) la -> apart (objects w) la ld ->
  join la ld w
  = match attachments (objects w) la ld with
    | Ok atts => Ok (tt, fold_left (attach la) atts w)
    | Raise e => Raise e
    end.
Proof.
  intros Hshape Hld.
  apply (join_run (objects w) la Hshape w ld); [|exact Hld].
  apply frame_inv_start; [exact Hshape | reflexivity].
Qed.

(** ** What the attachments leave in the heap *)

Lemma dict_set_twice {V} (k : string) (v1 v2 : V) (d : dict V) :
  dict_set k v2 (dict_set k v1 d) = dict_set k v2 d.
Proof.
  induction d as [|[k0 v0] d IH]; simpl.
  - rewrite String.eqb_refl. reflexivity.
  - destruct (String.eqb k0 k) eqn:E; simpl; rewrite E; [reflexivity|].
    rewrite IH. reflexivity.
Qed.

Section AttachFacts.

Variable h0 : heap.
Variable la : loc.
Hypothesis Hshape : actors_shape h0 la.

Lemma targets_cell (m : loc) (a : attachment) :
  targets h0 la m a = true ->
  metadata_loc h0 la (fst a) = Some m /\ metadata_cell h0 la m
  /\ (m < List.length h0)%nat.
Proof.
  unfold targets. destruct (metadata_loc h0 la (fst a)) as [m'|] eqn:E;
    [|discriminate].
  intros H. apply Nat.eqb_eq in H. subst m'.
  assert (Hcell : metadata_cell h0 la m) by (exists (fst a); exact E).
  split; [reflexivity|]. split; [exact Hcell|].
  destruct (metadata_cell_inv h0 la Hshape m Hcell) as (_ & dm & _ & Hdm & _).
  apply (dict_at_lt _ _ _ Hdm).
Qed.

Lemma attach_length (w : world) (a : attachment) :
  (List.length (objects w) <= List.length (objects (attach la w a)))%nat.
Proof.
  unfold attach. destruct (metadata_loc (objects w) la (fst a)) as [m|]; [|lia].
  destruct (dict_at (objects w) m); [|lia].
  simpl. rewrite length_insert, length_app. lia.
Qed.

Lemma attach_all_length (atts : list attachment) (w : world) :
  (List.length (objects w)
   <= List.length (objects (fold_left (attach la) atts w)))%nat.
Proof.
  revert w. induction atts as [|a atts IH]; intros w; simpl; [lia|].
  pose proof (attach_length w a). pose proof (IH (attach la w a)). lia.
Qed.

Lemma attach_calls (atts : list attachment) (w : world) :
  serve_calls (fold_left (attach la) atts w) = serve_calls w.
Proof.
  revert w. induction atts as [|a atts IH]; intros w; simpl; [reflexivity|].
  rewrite IH. unfold attach.
  destruct (metadata_loc (objects w) la (fst a)) as [m|]; [|reflexivity].
  destruct (dict_at (objects w) m); reflexivity.
Qed.

Lemma attach_lookup_other (w : world) (a : attachment) (l : loc) :
  frame_inv h0 la w -> targets h0 la l a = false ->
  (l < List.length (objects w))%nat ->
  objects (attach la w a) !! l = objects w !! l.
Proof.
  intros Hinv Hnot Hl. unfold attach.
  rewrite (frame_metadata_loc h0 la Hshape w _ Hinv).
  unfold targets in Hnot.
  destruct (metadata_loc h0 la (fst a)) as [m|]; [|reflexivity].
  destruct (dict_at (objects w) m); [|reflexivity].
  simpl. apply Nat.eqb_neq in Hnot.
  rewrite list_lookup_insert_ne by exact Hnot.
  apply lookup_app_l. exact Hl.
Qed.

Lemma attach_target (w : world) (a : attachment) (m : loc) (dm : dict val) :
  frame_inv h0 la w -> targets h0 la m a = true ->
  dict_at (objects w) m = Ok dm ->
  dict_at (objects (attach la w a)) m
  = Ok (dict_set "serve" (VRef (List.length (objects w))) dm)
  /\ dict_at (objects (attach la w a)) (List.length (objects w))
     = Ok (snd a).
Proof.
  intros Hinv Ht Hdm. destruct (targets_cell m a Ht) as (Hm & _ & _).
  pose proof (dict_at_lt _ _ _ Hdm) as Hlt.
  unfold attach. rewrite (frame_metadata_loc h0 la Hshape w _ Hinv), Hm, Hdm.
  unfold dict_at. simpl. split.
  - rewrite list_lookup_insert_eq; [reflexivity|]. rewrite length_app. lia.
  - rewrite list_lookup_insert_ne by lia. rewrite lookup_last. reflexivity.
Qed.

Lemma attach_all_lookup_other (atts : list attachment) (w : world) (l : loc) :
  frame_inv h0 la w ->
  (forall a, In a atts -> targets h0 la l a = false) ->
  (l < List.length (objects w))%nat ->
  objects (fold_left (attach la) atts w) !! l = objects w !! l.
Proof.
  revert w. induction atts as [|a atts IH]; intros w Hinv Hnot Hl; simpl.
  - reflexivity.
  - rewrite IH.
    + apply attach_lookup_other; auto. apply Hnot. left. reflexivity.
    + apply attach_frame_inv; assumption.
    + intros a' Ha'. apply Hnot. right. exact Ha'.
    + pose proof (attach_length w a). lia.
Qed.

(** A dictionary allocated during the run is not a target. *)
Lemma fresh_not_target (w : world) (a : attachment) (s : loc) :
  frame_inv h0 la w -> (List.length (objects w) <= s)%nat ->
  targets h0 la s a = false.
Proof.
  intros (Hlen & _) Hs. destruct (targets h0 la s a) eqn:E; [|reflexivity].
  destruct (targets_cell s a E) as (_ & _ & Hlt). lia.
Qed.

Lemma attach_all_target (atts : list attachment) (w : world) (m : loc)
    (dm : dict val) :
  frame_inv h0 la w -> metadata_cell h0 la m ->
  dict_at (objects w) m = Ok dm ->
  match last_target h0 la m atts with
  | None => dict_at (objects (fold_left (attach la) atts w)) m = Ok dm
  | Some sm =>
      exists s,
        (List.length (objects w) <= s)%nat
        /\ dict_at (objects (fold_left (attach la) atts w)) m
           = Ok (dict_set "serve" (VRef s) dm)
        /\ dict_at (objects (fold_left (attach la) atts w)) s = Ok sm
  end.
Proof.
  revert w dm. induction atts as [|a atts IH]; intros w dm Hinv Hcell Hdm.
  - exact Hdm.
  - simpl fold_left. simpl last_target.
    pose proof (attach_frame_inv h0 la Hshape w a Hinv) as Hinv'.
    pose proof (attach_length w a) as Hlen.
    destruct (targets h0 la m a) eqn:Ht.
    + destruct (attach_target w a m dm Hinv Ht Hdm) as [Hm' Hs'].
      specialize (IH (attach la w a) _ Hinv' Hcell Hm').
      destruct (last_target h0 la m atts) as [sm|].
      * destruct IH as (s & Hs & Hm'' & Hrec). exists s.
        rewrite dict_set_twice in Hm''. split; [lia|]. split; assumption.
      * exists (List.length (objects w)). split; [lia|]. split; [exact IH|].
        unfold dict_at.
        rewrite (attach_all_lookup_other atts (attach la w a)
                   (List.length (objects w)) Hinv').
        -- exact Hs'.
        -- intros a' _. apply (fresh_not_target w a' _ Hinv). lia.
        -- apply dict_at_lt in Hs'. exact Hs'.
    + assert (Hm' : dict_at (objects (attach la w a)) m = Ok dm).
      { unfold dict_at.
        rewrite (attach_lookup_other w a m Hinv Ht (dict_at_lt _ _ _ Hdm)).
        exact Hdm. }
      specialize (IH (attach la w a) _ Hinv' Hcell Hm').
      destruct (last_target h0 la m atts) as [sm|]; [|exact IH].
      destruct IH as (s & Hs & Hm'' & Hrec). exists s.
      split; [lia|]. split; assumption.
Qed.

Lemma last_target_None (atts : list attachment) (m : loc) :
  last_target h0 la m atts = None <->
  forall a, In a atts -> targets h0 la m a = false.
Proof.
  induction atts as [|a atts IH]; simpl.
  - split; [intros _ a [] | reflexivity].
  - destruct (last_target h0 la m atts) as [sm|].
    + split; [discriminate|]. intros H.
      apply IH. intros a' Ha'. apply H. right. exact Ha'.
    + destruct (targets h0 la m a) eqn:Ht.
      * split; [discriminate|]. intros H.
        rewrite (H a (or_introl eq_refl)) in Ht. discriminate.
      * split; [|reflexivity]. intros _ a' [<-|Ha']; [exact Ht|].
        apply (proj1 IH eq_refl a' Ha').
Qed.

End AttachFacts.

(** ** The attachments and the replica ids *)

Lemma mapM_result_inv {A B} (f : A -> result B) (l : list A) (ys : list B) :
  mapM f l = Ok ys -> Forall2 (fun x y => f x = Ok y) l ys.
Proof.
  revert ys. induction l as [|x l IH]; intros ys H.
  - injection H as <-. constructor.
  - rewrite mapM_result_cons in H.
    destruct (f x) as [y|] eqn:Hx; [|discriminate H].
    destruct (mapM f l) as [ys'|]; [|discriminate H].
    injection H as <-. constructor; [exact Hx | apply IH; reflexivity].
Qed.

Lemma bind_Ok_inv {A B} (r : result A) (k : A -> result B) (b : B) :
  r ≫= k = Ok b -> exists a, r = Ok a /\ k a = Ok b.
Proof. destruct r as [a|e]; [|discriminate]. intros H. exists a. auto. Qed.

Section AttachmentFacts.

Variable h : heap.
Variable da : dict val.

Lemma attachments_of_replica_inv (dinfo : val) (r : string * val)
    (atts : list attachment) :
  attachments_of_replica h da dinfo r = Ok atts ->
  map fst atts = List.filter (is_member da) [fst r]
  /\ forall a, In a atts ->
       fst a = fst r /\ serve_metadata_of h dinfo (snd r) = Ok (snd a).
Proof.
  unfold attachments_of_replica, is_member. simpl.
  destruct (dict_mem (fst r) da).
  - intros H. apply bind_Ok_inv in H. destruct H as (sm & Hsm & H).
    injection H as <-. split; [reflexivity|].
    intros a [<-|[]]. auto.
  - intros H. injection H as <-. split; [reflexivity|]. intros a [].
Qed.

Lemma attachments_of_replicas_inv (dinfo : val) (rs : list (string * val))
    (per : list (list attachment)) :
  mapM (attachments_of_replica h da dinfo) rs = Ok per ->
  map fst (concat per) = List.filter (is_member da) (map fst rs)
  /\ forall a, In a (concat per) ->
       exists r, In r rs /\ fst a = fst r
                 /\ serve_metadata_of h dinfo (snd r) = Ok (snd a).
Proof.
  intros H. apply mapM_result_inv in H.
  induction H as [|r atts rs per Hr _ [IH1 IH2]]; simpl.
  - split; [reflexivity | intros a []].
  - destruct (attachments_of_replica_inv dinfo r atts Hr) as [H1 H2].
    split.
    + rewrite List.map_app, H1, IH1. simpl.
      destruct (is_member da (fst r)); reflexivity.
    + intros a Ha. apply in_app_or in Ha. destruct Ha as [Ha|Ha].
      * exists r. destruct (H2 a Ha). auto.
      * destruct (IH2 a Ha) as (r' & Hr' & H'). exists r'. auto.
Qed.

Lemma attachments_of_deployment_inv (d : string * val)
    (atts : list attachment) :
  attachments_of_deployment h da d = Ok atts ->
  exists rd rs,
    getitem h (snd d) "actors" = Ok rd /\ getitems h rd = Ok rs
    /\ replica_ids_of_deployment h d = Ok (map fst rs)
    /\ map fst atts = List.filter (is_member da) (map fst rs)
    /\ forall a, In a atts ->
         exists r, In r rs /\ fst a = fst r
                   /\ serve_metadata_of h (snd d) (snd r) = Ok (snd a).
Proof.
  unfold attachments_of_deployment, replica_ids_of_deployment. intros H.
  apply bind_Ok_inv in H. destruct H as (rd & Hrd & H).
  apply bind_Ok_inv in H. destruct H as (rs & Hrs & H).
  apply bind_Ok_inv in H. destruct H as (per & Hper & H).
  injection H as <-. exists rd, rs. rewrite Hrd. simpl. rewrite Hrs. simpl.
  destruct (attachments_of_replicas_inv (snd d) rs per Hper) as [H1 H2].
  auto.
Qed.

Lemma attachments_of_deployments_inv (ds : list (string * val))
    (per : list (list attachment)) :
  mapM (attachments_of_deployment h da) ds = Ok per ->
  exists idss,
    mapM (replica_ids_of_deployment h) ds = Ok idss
    /\ map fst (concat per) = List.filter (is_member da) (concat idss)
    /\ forall a, In a (concat per) ->
         exists d rd rs r,
           In d ds /\ getitem h (snd d) "actors" = Ok rd
           /\ getitems h rd = Ok rs /\ In r rs /\ fst a = fst r
           /\ serve_metadata_of h (snd d) (snd r) = Ok (snd a).
Proof.
  intros H. apply mapM_result_inv in H.
  induction H as [|d atts ds per Hd _ (idss & IH0 & IH1 & IH2)].
  - exists []. split; [reflexivity|]. split; [reflexivity | intros a []].
  - destruct (attachments_of_deployment_inv d atts Hd)
      as (rd & rs & Hrd & Hrs & Hids & H1 & H2).
    exists (map fst rs :: idss). split; [|split].
    + rewrite mapM_result_cons, Hids, IH0. reflexivity.
    + simpl. rewrite List.map_app, List.filter_app, H1, IH1. reflexivity.
    + intros a Ha. simpl in Ha. apply in_app_or in Ha.
      destruct Ha as [Ha|Ha].
      * destruct (H2 a Ha) as (r & Hr & H'). exists d, rd, rs, r.
        destruct H'. repeat split; auto. left. reflexivity.
      * destruct (IH2 a Ha) as (d' & rd' & rs' & r' & Hd' & H').
        exists d', rd', rs', r'. split; [right; exact Hd' | exact H'].
Qed.

End AttachmentFacts.

(** Where the attachments come from: the actor ids attached are the replica
    ids that are keys of [actors], and each record is the [serve_metadata]
    of a replica of a deployment. *)
Lemma attachments_inv (h : heap) (la : loc) (ld : val)
    (atts : list attachment) :
  attachments h la ld = Ok atts ->
  exists da ds ids,
    dict_at h la = Ok da /\ getitems h ld = Ok ds
    /\ replica_ids h ld = Ok ids
    /\ map fst atts = List.filter (is_member da) ids
    /\ forall a, In a atts ->
         exists d rd rs r,
           In d ds /\ getitem h (snd d) "actors" = Ok rd
           /\ getitems h rd = Ok rs /\ In r rs /\ fst a = fst r
           /\ serve_metadata_of h (snd d) (snd r) = Ok (snd a).
Proof.
  unfold attachments, replica_ids. intros H.
  apply bind_Ok_inv in H. destruct H as (ds & Hds & H).
  apply bind_Ok_inv in H. destruct H as (da & Hda & H).
  apply bind_Ok_inv in H. destruct H as (per & Hper & H).
  injection H as <-.
  destruct (attachments_of_deployments_inv h da ds per Hper)
    as (idss & Hidss & H1 & H2).
  exists da, ds, (concat idss). rewrite Hds. simpl. rewrite Hidss. simpl.
  auto.
Qed.

Lemma attach_all_calls_indep (la : loc) (atts : list attachment) (w : world)
    (n : nat) :
  fold_left (attach la) atts {| objects := objects w; serve_calls := n |}
  = {| objects := objects (fold_left (attach la) atts w);
       serve_calls := n |}.
Proof.
  revert w. induction atts as [|a atts IH]; intros w; simpl; [reflexivity|].
  rewrite <- IH. f_equal. unfold attach. simpl.
  destruct (metadata_loc (objects w) la (fst a)) as [m|]; [|reflexivity].
  destruct (dict_at (objects w) m); reflexivity.
Qed.

Lemma join_Ok_inv (w w' : world) (la : loc) (ld : val) :
  actors_shape (objects w) la -> apart (objects w) la ld ->
  join la ld w = Ok (tt, w') ->
  exists atts,
    attachments (objects w) la ld = Ok atts
    /\ w' = fold_left (attach la) atts w.
Proof.
  intros Hshape Hld Hjoin. rewrite (join_spec w la ld Hshape Hld) in Hjoin.
  destruct (attachments (objects w) la ld) as [atts|]; [|discriminate Hjoin].
  injection Hjoin as <-. exists atts. auto.
Qed.

(** C6. The join is a function of the actors and the deployments it is
    given: it leaves every object of the deployment data as it was, its
    outcome does not depend on the rest of the state, and run a second time
    on the same actors and deployments it succeeds again and gives the same
    output: every object other than the metadata dictionaries is unchanged,
    and each metadata dictionary is either unchanged or has its [serve] key
    set, both times, to a dictionary holding the same record. *)
Theorem join_twice_same_output (w w1 : world) (la : loc) (ld : val) :
  actors_shape (objects w) la ->
  apart (objects w) la ld ->
  join la ld w = Ok (tt, w1) ->
  (forall l, reaches (objects w) ld l -> objects w1 !! l = objects w !! l)
  /\ (forall n, join la ld {| objects := objects w; serve_calls := n |}
                = Ok (tt, {| objects := objects w1; serve_calls := n |}))
  /\ exists w2,
       join la ld w1 = Ok (tt, w2)
       /\ (forall l, reaches (objects w) ld l ->
                     objects w2 !! l = objects w !! l)
       /\ (forall l, (l < List.length (objects w1))%nat ->
                     ~ metadata_cell (objects w) la l ->
                     objects w2 !! l = objects w1 !! l)
       /\ (forall m, metadata_cell (objects w) la m ->
             exists dm1 dm2,
               dict_at (objects w1) m = Ok dm1
               /\ dict_at (objects w2) m = Ok dm2
               /\ (dm2 = dm1
                   \/ exists dm s1 s2 sm,
                        dm1 = dict_set "serve" (VRef s1) dm
                        /\ dm2 = dict_set "serve" (VRef s2) dm
                        /\ dict_at (objects w1) s1 = Ok sm
                        /\ dict_at (objects w2) s2 = Ok sm)).
Proof.
  intros Hshape Hld Hjoin.
  destruct (join_Ok_inv w w1 la ld Hshape Hld Hjoin) as (atts & Hatts & ->).
  pose proof (frame_inv_start (objects w) la Hshape w eq_refl) as Hinv.
  pose proof (attach_all_frame_inv (objects w) la Hshape atts w Hinv) as Hinv1.
  set (w1 := fold_left (attach la) atts w) in *.
  pose proof (attach_all_frame_inv (objects w) la Hshape atts w1 Hinv1)
    as Hinv2.
  split; [|split].
  - intros l Hl. destruct (Hld l Hl) as [Hlt Hnot].
    destruct Hinv1 as (_ & Hframe & _). apply Hframe; assumption.
  - intros n.
    rewrite (join_spec {| objects := objects w; serve_calls := n |} la ld
               Hshape Hld).
    simpl objects. rewrite Hatts, attach_all_calls_indep. reflexivity.
  - exists (fold_left (attach la) atts w1).
    split; [|split; [|split]].
    + rewrite (join_run (objects w) la Hshape w1 ld Hinv1 Hld), Hatts.
      reflexivity.
    + intros l Hl. destruct (Hld l Hl) as [Hlt Hnot].
      destruct Hinv2 as (_ & Hframe & _). apply Hframe; assumption.
    + intros l Hl Hnot.
      apply (attach_all_lookup_other (objects w) la Hshape atts w1 l Hinv1);
        [|exact Hl].
      intros a _. destruct (targets (objects w) la l a) eqn:E; [|reflexivity].
      destruct (targets_cell (objects w) la Hshape l a E) as (_ & Hcell & _).
      contradiction.
    + intros m Hcell.
      destruct (metadata_cell_inv (objects w) la Hshape m Hcell)
        as (_ & dm & _ & Hdm & _).
      pose proof (attach_all_target (objects w) la Hshape atts w m dm
                    Hinv Hcell Hdm) as H1.
      fold w1 in H1.
      destruct (last_target (objects w) la m atts) as [sm|] eqn:Hlast.
      * destruct H1 as (s1 & _ & Hm1 & Hs1).
        pose proof (attach_all_target (objects w) la Hshape atts w1 m _
                      Hinv1 Hcell Hm1) as H2.
        rewrite Hlast in H2. destruct H2 as (s2 & _ & Hm2 & Hs2).
        rewrite dict_set_twice in Hm2.
        eexists. eexists. split; [exact Hm1|]. split; [exact Hm2|].
        right. exists dm, s1, s2, sm. auto.
      * pose proof (attach_all_target (objects w) la Hshape atts w1 m _
                      Hinv1 Hcell H1) as H2.
        rewrite Hlast in H2.
        exists dm, dm. auto.
Qed.

(** The frame of one run of the join.  The join writes to the metadata
    dictionaries of the actors whose id is a replica actor id of some
    deployment, and to nothing else that existed: every other object, so the
    dictionary of the actors, every entry with all its fields and whatever
    they refer to, is unchanged; such a metadata dictionary changes by its
    [serve] key alone, set to a new dictionary; and the metadata of an actor
    that no deployment refers to is unchanged, so empty if it was empty. *)
Theorem join_changes_only_serve (w w' : world) (la : loc) (ld : val) :
  actors_shape (objects w) la ->
  apart (objects w) la ld ->
  join la ld w = Ok (tt, w') ->
  exists ids,
    replica_ids (objects w) ld = Ok ids
    /\ (forall l, (l < List.length (objects w))%nat ->
          (forall actor_id, In actor_id ids ->
             metadata_loc (objects w) la actor_id <> Some l) ->
          objects w' !! l = objects w !! l)
    /\ (forall actor_id e,
          getitem (objects w) (VRef la) actor_id = Ok (VRef e) ->
          getitem (objects w') (VRef la) actor_id = Ok (VRef e)
          /\ objects w' !! e = objects w !! e)
    /\ (forall actor_id m dm,
          In actor_id ids ->
          metadata_loc (objects w) la actor_id = Some m ->
          dict_at (objects w) m = Ok dm ->
          exists s v1 v2 v3,
            (List.length (objects w) <= s)%nat
            /\ dict_at (objects w') m = Ok (dict_set "serve" (VRef s) dm)
            /\ dict_at (objects w') s
               = Ok [("replica_tag", v1); ("deployment_name", v2);
                     ("version", v3)])
    /\ (forall actor_id m,
          ~ In actor_id ids ->
          metadata_loc (objects w) la actor_id = Some m ->
          dict_at (objects w') m = dict_at (objects w) m
          /\ (dict_at (objects w) m = Ok [] -> dict_at (objects w') m = Ok [])).
Proof.
  intros Hshape Hld Hjoin.
  destruct (join_Ok_inv w w' la ld Hshape Hld Hjoin) as (atts & Hatts & ->).
  pose proof (frame_inv_start (objects w) la Hshape w eq_refl) as Hinv.
  destruct (attachments_inv _ _ _ _ Hatts)
    as (da & ds & ids & Hda & Hds & Hids & Hfst & Horigin).
  assert (Hin_ids : forall a, In a atts -> In (fst a) ids).
  { intros a Ha. apply (in_map fst) in Ha. rewrite Hfst in Ha.
    apply filter_In in Ha. apply Ha. }
  assert (Hother : forall l,
             (l < List.length (objects w))%nat ->
             (forall actor_id, In actor_id ids ->
                metadata_loc (objects w) la actor_id <> Some l) ->
             objects (fold_left (attach la) atts w) !! l = objects w !! l).
  { intros l Hl Hnot.
    apply (attach_all_lookup_other (objects w) la Hshape atts w l Hinv);
      [|exact Hl].
    intros a Ha. destruct (targets (objects w) la l a) eqn:E; [|reflexivity].
    destruct (targets_cell (objects w) la Hshape l a E) as (Hm & _).
    destruct (Hnot (fst a) (Hin_ids a Ha) Hm). }
  exists ids. split; [exact Hids|]. split; [exact Hother|]. split; [|split].
  - intros actor_id e Hget.
    pose proof (attach_all_frame_inv (objects w) la Hshape atts w Hinv)
      as (_ & Hframe & _).
    assert (He : dict_get actor_id da = Some (VRef e)).
    { unfold getitem in Hget. unfold dict_at in Hda.
      destruct (objects w !! la) as [[d|vs]|]; try discriminate Hda.
      injection Hda as ->.
      destruct (dict_get actor_id da); [|discriminate Hget].
      injection Hget as ->. reflexivity. }
    assert (Hlt : (e < List.length (objects w))%nat).
    { destruct Hshape as (da' & Hda' & Hentries & _).
      rewrite Hda in Hda'. injection Hda' as <-.
      destruct (Hentries actor_id _ He) as (e' & de & _ & _ & Heq & Hde & _).
      injection Heq as <-. apply (dict_at_lt _ _ _ Hde). }
    split.
    + unfold getitem.
      rewrite (Hframe la (dict_at_lt _ _ _ Hda)
                 (actors_not_metadata (objects w) la Hshape)).
      exact Hget.
    + apply Hframe; [exact Hlt|].
      apply (entry_not_metadata (objects w) la Hshape da actor_id e Hda He).
  - intros actor_id m dm Hid Hm Hdm.
    assert (Hcell : metadata_cell (objects w) la m)
      by (exists actor_id; exact Hm).
    pose proof (attach_all_target (objects w) la Hshape atts w m dm
                  Hinv Hcell Hdm) as H.
    destruct (last_target (objects w) la m atts) as [sm|] eqn:Hlast.
    + destruct H as (s & Hs & Hm' & Hrec).
      assert (Hsm : exists a, In a atts /\ snd a = sm).
      { clear - Hlast. induction atts as [|a atts IH]; simpl in Hlast.
        - discriminate.
        - destruct (last_target (objects w) la m atts) as [sm'|].
          + destruct (IH Hlast) as (a' & Ha' & Heq).
            exists a'. split; [right; exact Ha' | exact Heq].
          + destruct (targets (objects w) la m a); [|discriminate].
            injection Hlast as <-. exists a. split; [left|]; reflexivity. }
      destruct Hsm as (a & Ha & <-).
      destruct (Horigin a Ha) as (d & rd & rs & r & _ & _ & _ & _ & _ & Hsm).
      unfold serve_metadata_of in Hsm.
      apply bind_Ok_inv in Hsm. destruct Hsm as (v1 & _ & Hsm).
      apply bind_Ok_inv in Hsm. destruct Hsm as (v2 & _ & Hsm).
      apply bind_Ok_inv in Hsm. destruct Hsm as (v3 & _ & Hsm).
      injection Hsm as Hsm. exists s, v1, v2, v3.
      split; [exact Hs|]. split; [exact Hm'|]. rewrite Hsm. exact Hrec.
    + exfalso. rewrite (last_target_None (objects w) la atts m) in Hlast.
      assert (Hmem : In actor_id (map fst atts)).
      { rewrite Hfst. apply filter_In. split; [exact Hid|].
        unfold is_member, dict_mem. unfold metadata_loc in Hm.
        rewrite Hda in Hm. destruct (dict_get actor_id da); [reflexivity|].
        discriminate Hm. }
      apply in_map_iff in Hmem. destruct Hmem as (a & Hfa & Ha).
      specialize (Hlast a Ha). unfold targets in Hlast.
      rewrite Hfa, Hm, Nat.eqb_refl in Hlast. discriminate.
  - intros actor_id m Hnot Hm.
    assert (Hsame : dict_at (objects (fold_left (attach la) atts w)) m
                    = dict_at (objects w) m).
    { unfold dict_at. rewrite Hother; [reflexivity| |].
      - assert (Hcell : metadata_cell (objects w) la m)
          by (exists actor_id; exact Hm).
        destruct (metadata_cell_inv (objects w) la Hshape m Hcell)
          as (_ & dm & _ & Hdm & _).
        apply (dict_at_lt _ _ _ Hdm).
      - intros a' Ha' Hm'. destruct Hshape as (_ & _ & _ & Hinj).
        rewrite (Hinj a' actor_id m Hm' Hm) in Ha'. exact (Hnot Ha'). }
    split; [exact Hsame|]. intros H. rewrite Hsame. exact H.
Qed.

(** ** Allocation of JSON trees *)

Lemma json_nested_ind (P : json -> Prop) :
  P JNull ->
  (forall b, P (JBool b)) ->
  (forall z, P (JInt z)) ->
  (forall f, P (JFloat f)) ->
  (forall s, P (JStr s)) ->
  (forall l, Forall P l -> P (JList l)) ->
  (forall d, Forall (fun kv => P (snd kv)) d -> P (JDict d)) ->
  forall j, P j.
Proof.
  intros HNull HBool HInt HFloat HStr HList HDict.
  fix IH 1. intros [| b | z | f | s | l | d].
  - exact HNull.
  - apply HBool.
  - apply HInt.
  - apply HFloat.
  - apply HStr.
  - apply HList. induction l as [|j l IHl]; constructor; [apply IH | exact IHl].
  - apply HDict. induction d as [|[k j] d IHd]; constructor;
      [apply IH | exact IHd].
Qed.

Lemma mapM_M_cons {A B} (f : A -> M B) (x : A) (l : list A) (w : world) :
  mapM f (x :: l) w
  = match f x w with
    | Ok (y, w1) =>
        match mapM f l w1 with
        | Ok (ys, w2) => Ok (y :: ys, w2)
        | Raise e => Raise e
        end
    | Raise e => Raise e
    end.
Proof.
  change (mapM f (x :: l)) with (y ← f x; k ← mapM f l; mret (y :: k)).
  rewrite run_bind. destruct (f x w) as [[y w1]|]; [|reflexivity].
  rewrite run_bind. destruct (mapM f l w1) as [[ys w2]|]; reflexivity.
Qed.

Lemma val_in_mono (lo hi lo' hi' : nat) (v : val) :
  (lo' <= lo)%nat -> (hi <= hi')%nat -> val_in lo hi v -> val_in lo' hi' v.
Proof. destruct v; simpl; auto. lia. Qed.

Lemma obj_in_mono (lo hi lo' hi' : nat) (o : obj) :
  (lo' <= lo)%nat -> (hi <= hi')%nat -> obj_in lo hi o -> obj_in lo' hi' o.
Proof.
  intros Hlo Hhi. destruct o as [d|vs]; simpl; apply List.Forall_impl;
    intros x; apply val_in_mono; assumption.
Qed.

Lemma grow_nil (w : world) : grow w [] = w.
Proof. destruct w. unfold grow. simpl. rewrite app_nil_r. reflexivity. Qed.

Lemma grow_grow (w : world) (c1 c2 : list obj) :
  grow (grow w c1) c2 = grow w (c1 ++ c2).
Proof. unfold grow. simpl. rewrite app_assoc. reflexivity. Qed.

Lemma extend_grow (w : world) (o : obj) : extend w o = grow w [o].
Proof. reflexivity. Qed.

Lemma mapM_appends {A B} (f : A -> M B) (good : nat -> nat -> B -> Prop)
    (l : list A) :
  (forall lo hi lo' hi' b,
      (lo' <= lo)%nat -> (hi <= hi')%nat -> good lo hi b -> good lo' hi' b) ->
  Forall (fun x => appends (f x) good) l ->
  appends (mapM f l) (fun lo hi bs => Forall (good lo hi) bs).
Proof.
  intros Hmono H. induction H as [|x l Hx _ IH]; intros w.
  - exists [], []. rewrite grow_nil. split; [reflexivity|]. split; constructor.
  - destruct (Hx w) as (y & c1 & Hy & Hgood & Hc1).
    destruct (IH (grow w c1)) as (ys & c2 & Hys & Hgoods & Hc2).
    exists (y :: ys), (c1 ++ c2).
    rewrite mapM_M_cons, Hy, Hys, grow_grow. split; [reflexivity|].
    simpl in Hgoods, Hc2. rewrite length_app in Hgoods, Hc2.
    rewrite !length_app.
    split; [constructor|].
    + revert Hgood. apply Hmono; lia.
    + rewrite Nat.add_assoc. revert Hgoods. apply List.Forall_impl.
      intros b. apply Hmono; lia.
    + apply Forall_app. split.
      * revert Hc1. apply List.Forall_impl. intros o.
        apply obj_in_mono; lia.
      * rewrite Nat.add_assoc. revert Hc2. apply List.Forall_impl. intros o.
        apply obj_in_mono; lia.
Qed.

Lemma alloc_json_appends (j : json) : appends (alloc_json j) val_in.
Proof.
  induction j as [| b | z | f | s | l IH | d IH] using json_nested_ind;
    intros w.
  1-5: (eexists; exists []; rewrite grow_nil; split; [reflexivity|];
        split; [exact I | constructor]).
  - destruct (mapM_appends alloc_json val_in l val_in_mono IH w)
      as (vs & cells & Hvs & Hgood & Hcells).
    exists (VRef (List.length (objects w) + List.length cells)%nat),
           (cells ++ [OList vs]).
    split; [|split].
    + simpl alloc_json. rewrite run_bind.
      change (mapM _ l) with (mapM alloc_json l). rewrite Hvs.
      rewrite run_bind, run_alloc, extend_grow, grow_grow. simpl.
      rewrite length_app. reflexivity.
    + simpl. rewrite length_app. simpl. lia.
    + rewrite length_app. simpl. apply Forall_app. split.
      * revert Hcells. apply List.Forall_impl. intros o.
        apply obj_in_mono; lia.
      * constructor; [|constructor]. simpl. revert Hgood.
        apply List.Forall_impl. intros v. apply val_in_mono; lia.
  - set (f := fun kv : string * json =>
                v ← alloc_json (snd kv); mret (fst kv, v) : M (string * val)).
    assert (Hf : Forall (fun kv => appends (f kv)
                           (fun lo hi kv' => val_in lo hi (snd kv'))) d).
    { revert IH. apply List.Forall_impl. intros [k j] Hj w'. simpl in Hj.
      destruct (Hj w') as (v & cells & Hv & Hgood & Hcells).
      exists (k, v), cells. unfold f. rewrite run_bind. simpl snd.
      rewrite Hv. auto. }
    destruct (mapM_appends f _ d
                (fun lo hi lo' hi' b Hlo Hhi =>
                   val_in_mono lo hi lo' hi' (snd b) Hlo Hhi) Hf w)
      as (kvs & cells & Hkvs & Hgood & Hcells).
    exists (VRef (List.length (objects w) + List.length cells)%nat),
           (cells ++ [ODict kvs]).
    split; [|split].
    + simpl alloc_json. rewrite run_bind.
      change (mapM _ d) with (mapM f d). rewrite Hkvs.
      rewrite run_bind, run_alloc, extend_grow, grow_grow. simpl.
      rewrite length_app. reflexivity.
    + simpl. rewrite length_app. simpl. lia.
    + rewrite length_app. simpl. apply Forall_app. split.
      * revert Hcells. apply List.Forall_impl. intros o.
        apply obj_in_mono; lia.
      * constructor; [|constructor]. simpl. revert Hgood.
        apply List.Forall_impl. intros v. apply val_in_mono; lia.
Qed.

(** Everything reached from a value of an appended region is in the
    region. *)
Lemma reaches_region (h : heap) (cells : list obj) (v : val) (l : loc) :
  Forall (obj_in (List.length h) (List.length h + List.length cells)%nat)
         cells ->
  val_in (List.length h) (List.length h + List.length cells)%nat v ->
  reaches (h ++ cells) v l ->
  (List.length h <= l < List.length h + List.length cells)%nat.
Proof.
  intros Hcells Hv Hreach. induction Hreach as
      [l | l0 d k v l' Hl0 Hin _ IH | l0 vs v l' Hl0 Hin _ IH].
  - exact Hv.
  - apply IH. simpl in Hv.
    rewrite lookup_app_r in Hl0 by lia.
    rewrite List.Forall_forall in Hcells.
    apply list_elem_of_lookup_2, list_elem_of_In in Hl0.
    specialize (Hcells _ Hl0). simpl in Hcells.
    rewrite List.Forall_forall in Hcells. apply (Hcells (k, v) Hin).
  - apply IH. simpl in Hv.
    rewrite lookup_app_r in Hl0 by lia.
    rewrite List.Forall_forall in Hcells.
    apply list_elem_of_lookup_2, list_elem_of_In in Hl0.
    specialize (Hcells _ Hl0). simpl in Hcells.
    rewrite List.Forall_forall in Hcells. apply (Hcells v Hin).
Qed.

(** ** The shape of the actors through [get_actor_info] *)

Lemma metadata_loc_Some (h : heap) (la : loc) (da de : dict val)
    (actor_id : string) (e m : loc) :
  dict_at h la = Ok da -> dict_get actor_id da = Some (VRef e) ->
  dict_at h e = Ok de -> dict_get "metadata" de = Some (VRef m) ->
  metadata_loc h la actor_id = Some m.
Proof.
  intros Hda Hv He Hmd. unfold metadata_loc. rewrite Hda, Hv.
  unfold getitem. unfold dict_at in He.
  destruct (h !! e) as [[d|vs]|]; try discriminate He.
  injection He as ->. rewrite Hmd. reflexivity.
Qed.

Lemma shape_preserved (h0 : heap) (la : loc) (w : world) :
  actors_shape h0 la -> frame_inv h0 la w -> actors_shape (objects w) la.
Proof.
  intros Hshape Hinv.
  pose proof Hshape as (da & Hda & Hentries & Hinj).
  exists da. split; [|split].
  - apply (frame_dict_at h0 la w la da Hinv Hda).
    apply (actors_not_metadata h0 la Hshape).
  - intros actor_id v Hv.
    destruct (Hentries actor_id v Hv)
      as (e & de & m & dm & -> & He & Hmd & Hdm & Hela & Hne & Hnot).
    assert (Hcell : metadata_cell h0 la m).
    { exists actor_id. apply (metadata_loc_Some h0 la da de actor_id e m);
        assumption. }
    destruct Hinv as (Hlen & Hframe & Hmdcells).
    destruct (Hmdcells m Hcell) as [dm' Hdm'].
    exists e, de, m, dm'. repeat split; auto.
    apply (frame_dict_at h0 la w e de (conj Hlen (conj Hframe Hmdcells)) He).
    apply (entry_not_metadata h0 la Hshape da actor_id e Hda Hv).
  - intros a a' m.
    rewrite !(frame_metadata_loc h0 la Hshape w _ Hinv). apply Hinj.
Qed.

Lemma grow_frame_inv (la : loc) (w : world) (cells : list obj) (n : nat) :
  actors_shape (objects w) la ->
  frame_inv (objects w) la
    {| objects := objects w ++ cells; serve_calls := n |}.
Proof.
  intros Hshape. unfold frame_inv. simpl. rewrite length_app.
  split; [lia|]. split.
  - intros l Hl _. apply lookup_app_l. exact Hl.
  - intros m Hm.
    destruct (metadata_cell_inv _ la Hshape m Hm) as (_ & dm & _ & Hdm & _).
    exists dm. unfold dict_at.
    rewrite (lookup_app_l _ _ _ (dict_at_lt _ _ _ Hdm)). exact Hdm.
Qed.

Lemma metadata_cell_lt (h : heap) (la : loc) (m : loc) :
  actors_shape h la -> metadata_cell h la m -> (m < List.length h)%nat.
Proof.
  intros Hshape Hm.
  destruct (metadata_cell_inv h la Hshape m Hm) as (_ & dm & _ & Hdm & _).
  apply (dict_at_lt _ _ _ Hdm).
Qed.

(** A tree allocated after the actors is apart from their metadata. *)
Lemma fresh_tree_apart (la : loc) (w : world) (cells : list obj) (n : nat)
    (v : val) :
  actors_shape (objects w) la ->
  Forall (obj_in (List.length (objects w))
            (List.length (objects w) + List.length cells)%nat) cells ->
  val_in (List.length (objects w))
         (List.length (objects w) + List.length cells)%nat v ->
  actors_shape (objects w ++ cells) la
  /\ apart (objects w ++ cells) la v.
Proof.
  intros Hshape Hcells Hv.
  pose proof (grow_frame_inv la w cells n Hshape) as Hinv.
  pose proof (shape_preserved _ la _ Hshape Hinv) as Hshape'.
  split; [exact Hshape'|].
  intros l Hl. pose proof (reaches_region _ _ _ _ Hcells Hv Hl) as Hrange.
  split; [rewrite length_app; lia|].
  intros [a Ha].
  pose proof (frame_metadata_loc _ la Hshape _ a Hinv) as Heq.
  simpl in Heq. rewrite Heq in Ha.
  assert (Hcell : metadata_cell (objects w) la l) by (exists a; exact Ha).
  pose proof (metadata_cell_lt _ la l Hshape Hcell). lia.
Qed.

Lemma Forall2_Forall_l {A B} (P : B -> Prop) (R R' : A -> B -> Prop)
    (l : list A) (l' : list B) :
  Forall P l' ->
  (forall x y, In x l -> P y -> R x y -> R' x y) ->
  Forall2 R l l' -> Forall2 R' l l'.
Proof.
  intros HP Himp H. induction H as [|x y l l' Hxy _ IH]; [constructor|].
  inversion HP as [|? ? Hy Hl']; subst. constructor.
  - apply Himp; [left; reflexivity | exact Hy | exact Hxy].
  - apply IH; [exact Hl'|]. intros x' y' Hx'. apply Himp. right. exact Hx'.
Qed.

(** A tree stays what it is when the objects it leads to stay what they
    are. *)
Lemma represents_frame (h h' : heap) (j : json) (v : val) :
  (forall l o, reaches h v l -> h !! l = Some o -> h' !! l = Some o) ->
  represents h v j -> represents h' v j.
Proof.
  revert v.
  induction j as [| b | z | f | s | js IH | d IH] using json_nested_ind;
    intros v Hsame Hrep; inversion Hrep as
        [| | | | | l vs js' Hl Hvs | l kvs d' Hl Hkvs]; subst;
    try constructor.
  - apply (represents_list h' l vs js).
    + apply Hsame; [constructor | exact Hl].
    + revert Hvs. apply (Forall2_Forall_l _ _ _ _ _ IH).
      intros v' j' Hin Hj' Hv'. apply Hj'; [|exact Hv'].
      intros l' o Hreach. apply Hsame.
      apply (reaches_list h l vs v' l' Hl Hin Hreach).
  - apply (represents_dict h' l kvs d).
    + apply Hsame; [constructor | exact Hl].
    + revert Hkvs. apply (Forall2_Forall_l _ _ _ _ _ IH).
      intros [k v'] [k' j'] Hin Hj' [Hk Hv']. simpl in *.
      split; [exact Hk|]. apply Hj'; [|exact Hv'].
      intros l' o Hreach. apply Hsame.
      apply (reaches_dict h l kvs k v' l' Hl Hin Hreach).
Qed.

Lemma represents_app (h cells : heap) (j : json) (v : val) :
  represents h v j -> represents (h ++ cells) v j.
Proof.
  apply represents_frame. intros l o _ Hl.
  apply lookup_app_l_Some. exact Hl.
Qed.

Lemma mapM_M_inv {A B} (f : A -> M B) (R : heap -> B -> A -> Prop)
    (l : list A) :
  (forall h cells b a, R h b a -> R (h ++ cells) b a) ->
  Forall (fun x => forall w y w',
            f x w = Ok (y, w') ->
            R (objects w') y x /\ exists cells, w' = grow w cells) l ->
  forall w ys w',
    mapM f l w = Ok (ys, w') ->
    Forall2 (R (objects w')) ys l /\ exists cells, w' = grow w cells.
Proof.
  intros Hmono H. induction H as [|x l Hx _ IH]; intros w ys w' Hrun.
  - injection Hrun as <- <-. split; [constructor|].
    exists []. rewrite grow_nil. reflexivity.
  - rewrite mapM_M_cons in Hrun.
    destruct (f x w) as [[y w1]|] eqn:Hy; [|discriminate Hrun].
    destruct (mapM f l w1) as [[ys' w2]|] eqn:Hys; [|discriminate Hrun].
    injection Hrun as <- <-.
    destruct (Hx w y w1 Hy) as (Hy' & c1 & ->).
    destruct (IH _ ys' w2 Hys) as (Hys' & c2 & ->).
    split.
    + constructor; [|exact Hys']. simpl. apply Hmono. exact Hy'.
    + exists (c1 ++ c2). apply grow_grow.
Qed.

(** [alloc_json] stores the tree it is given. *)
Lemma alloc_json_represents (j : json) (w : world) (v : val) (w' : world) :
  alloc_json j w = Ok (v, w') ->
  represents (objects w') v j /\ exists cells, w' = grow w cells.
Proof.
  revert w v w'.
  induction j as [| b | z | f | s | js IH | d IH] using json_nested_ind;
    intros w v w' Hrun.
  1-5: (injection Hrun as <- <-; split; [constructor|];
        exists []; rewrite grow_nil; reflexivity).
  - simpl alloc_json in Hrun. rewrite run_bind in Hrun.
    change (mapM _ js) with (mapM alloc_json js) in Hrun.
    destruct (mapM alloc_json js w) as [[vs w1]|] eqn:Hvs;
      [|discriminate Hrun].
    rewrite run_bind, run_alloc in Hrun. injection Hrun as <- <-.
    destruct (mapM_M_inv alloc_json (fun h v j => represents h v j) js
                (fun h cells v j => represents_app h cells j v) IH
                w vs w1 Hvs) as (Hrep & cells & ->).
    split.
    + apply (represents_list _ _ vs js).
      * simpl. apply lookup_last.
      * eapply Forall2_impl; [exact Hrep|]. intros v j.
        apply represents_app.
    + exists (cells ++ [OList vs]). rewrite extend_grow. apply grow_grow.
  - set (f := fun kv : string * json =>
                v ← alloc_json (snd kv); mret (fst kv, v) : M (string * val)).
    simpl alloc_json in Hrun. rewrite run_bind in Hrun.
    change (mapM _ d) with (mapM f d) in Hrun.
    destruct (mapM f d w) as [[kvs w1]|] eqn:Hkvs; [|discriminate Hrun].
    rewrite run_bind, run_alloc in Hrun. injection Hrun as <- <-.
    assert (Hf : Forall (fun kj => forall w0 kv w0',
                           f kj w0 = Ok (kv, w0') ->
                           (fst kv = fst kj
                            /\ represents (objects w0') (snd kv) (snd kj))
                           /\ exists cells, w0' = grow w0 cells) d).
    { revert IH. apply List.Forall_impl. intros [k j] Hj w0 kv w0' Hkv.
      unfold f in Hkv. rewrite run_bind in Hkv. simpl snd in Hkv.
      destruct (alloc_json j w0) as [[v w0'']|] eqn:Hv; [|discriminate Hkv].
      injection Hkv as <- <-. simpl in Hj.
      destruct (Hj w0 v w0'' Hv) as [Hrep Hcells]. auto. }
    destruct (mapM_M_inv f
                (fun h kv kj => fst kv = fst kj
                                /\ represents h (snd kv) (snd kj)) d
                (fun h cells kv kj H =>
                   conj (proj1 H)
                        (represents_app h cells (snd kj) (snd kv) (proj2 H)))
                Hf w kvs w1 Hkvs) as (Hrep & cells & ->).
    split.
    + apply (represents_dict _ _ kvs d).
      * simpl. apply lookup_last.
      * eapply Forall2_impl; [exact Hrep|]. intros kv kj [Hk Hv].
        split; [exact Hk | apply represents_app, Hv].
    + exists (cells ++ [ODict kvs]). rewrite extend_grow. apply grow_grow.
Qed.

(** What is reached in a heap was reached in the heap it comes from, when
    the objects reached there stay what they are. *)
Lemma reaches_back (h h' : heap) (v : val) (l : loc) :
  (forall l' o, reaches h v l' -> h !! l' = Some o -> h' !! l' = Some o) ->
  (forall l', reaches h v l' -> (l' < List.length h)%nat) ->
  reaches h' v l -> reaches h v l.
Proof.
  intros Hsame Hlt Hreach. revert Hsame Hlt.
  induction Hreach as
      [l | l0 d k v l' Hl0 Hin _ IH | l0 vs v l' Hl0 Hin _ IH];
    intros Hsame Hlt.
  - constructor.
  - assert (Hh : h !! l0 = Some (ODict d)).
    { pose proof (Hlt l0 (reaches_here h l0)) as Hl.
      destruct (lookup_lt_is_Some_2 h l0 Hl) as [o Ho].
      pose proof (Hsame l0 o (reaches_here h l0) Ho) as Ho'.
      rewrite Hl0 in Ho'. injection Ho' as <-. exact Ho. }
    apply (reaches_dict h l0 d k v l' Hh Hin). apply IH.
    + intros l1 o Hr. apply Hsame.
      apply (reaches_dict h l0 d k v l1 Hh Hin Hr).
    + intros l1 Hr. apply Hlt.
      apply (reaches_dict h l0 d k v l1 Hh Hin Hr).
  - assert (Hh : h !! l0 = Some (OList vs)).
    { pose proof (Hlt l0 (reaches_here h l0)) as Hl.
      destruct (lookup_lt_is_Some_2 h l0 Hl) as [o Ho].
      pose proof (Hsame l0 o (reaches_here h l0) Ho) as Ho'.
      rewrite Hl0 in Ho'. injection Ho' as <-. exact Ho. }
    apply (reaches_list h l0 vs v l' Hh Hin). apply IH.
    + intros l1 o Hr. apply Hsame.
      apply (reaches_list h l0 vs v l1 Hh Hin Hr).
    + intros l1 Hr. apply Hlt.
      apply (reaches_list h l0 vs v l1 Hh Hin Hr).
Qed.

(** The runtime environment and the resources of an entry stay what they
    are in a heap that keeps every object other than the actors and their
    metadata, and makes no old object a metadata dictionary. *)
Lemma env_ok_keeps (json_loads : string -> result json) (h h' : heap)
    (la : loc) (raw : ActorTableData) (rt res : val) :
  (forall l o, h !! l = Some o -> l <> la -> ~ metadata_cell h la l ->
               h' !! l = Some o) ->
  (forall l, (l < List.length h)%nat -> metadata_cell h' la l ->
             metadata_cell h la l) ->
  (List.length h <= List.length h')%nat ->
  env_ok json_loads h la raw rt res -> env_ok json_loads h' la raw rt res.
Proof.
  intros Hsame Hcell Hlen
         ((tree & Htree & Hrep) & Hset & (r & -> & Hr & Hrla & Hrnot)).
  assert (Hkeep : forall l o, reaches h rt l -> h !! l = Some o ->
                              h' !! l = Some o).
  { intros l o Hl Ho. destruct (Hset l Hl) as (_ & Hla & Hnot).
    apply Hsame; assumption. }
  split; [|split].
  - exists tree. split; [exact Htree|].
    apply (represents_frame h h' tree rt Hkeep Hrep).
  - intros l Hl.
    assert (Hl0 : reaches h rt l).
    { apply (reaches_back h h' rt l Hkeep); [|exact Hl].
      intros l' Hl'. apply (Hset l' Hl'). }
    destruct (Hset l Hl0) as (Hlt & Hla & Hnot).
    split; [lia|]. split; [exact Hla|].
    intros Hc. apply Hnot. apply Hcell; assumption.
  - exists r. split; [reflexivity|].
    pose proof (dict_at_lt _ _ _ Hr) as Hlt.
    split; [|split; [exact Hrla|]].
    + unfold dict_at in *. destruct (h !! r) as [o|] eqn:Ho; [|discriminate].
      rewrite (Hsame r o Ho Hrla Hrnot). exact Hr.
    + intros Hc. apply Hrnot. apply Hcell; assumption.
Qed.

Section AddEntry.

Variable h : heap.
Variable la : loc.
Variable da : dict val.
Variables (pre : list obj) (de : dict val) (actor_id : string).

Hypothesis Hshape : actors_shape h la.
Hypothesis Hda : dict_at h la = Ok da.
Hypothesis Hmeta :
  dict_get "metadata" de = Some (VRef (List.length h + List.length pre)%nat).

Local Abbreviation m := (List.length h + List.length pre)%nat.
Local Abbreviation h2 :=
  (<[la := ODict (dict_set actor_id (VRef (S m)) da)]>
     (h ++ pre ++ [ODict []; ODict de])).

Lemma add_entry_old (l : loc) :
  (l < List.length h)%nat -> l <> la -> h2 !! l = h !! l.
Proof.
  intros Hl Hne. rewrite list_lookup_insert_ne by auto.
  apply lookup_app_l. exact Hl.
Qed.

Lemma add_entry_actors :
  dict_at h2 la = Ok (dict_set actor_id (VRef (S m)) da).
Proof.
  unfold dict_at. rewrite list_lookup_insert_eq; [reflexivity|].
  rewrite length_app. pose proof (dict_at_lt _ _ _ Hda). lia.
Qed.

Lemma add_entry_metadata : dict_at h2 m = Ok [].
Proof.
  pose proof (dict_at_lt _ _ _ Hda) as Hla. unfold dict_at.
  rewrite list_lookup_insert_ne by lia.
  rewrite lookup_app_r by lia. rewrite lookup_app_r by lia.
  replace (m - List.length h - List.length pre)%nat with 0%nat by lia.
  reflexivity.
Qed.

Lemma add_entry_entry : dict_at h2 (S m) = Ok de.
Proof.
  pose proof (dict_at_lt _ _ _ Hda) as Hla. unfold dict_at.
  rewrite list_lookup_insert_ne by lia.
  rewrite lookup_app_r by lia. rewrite lookup_app_r by lia.
  replace (S m - List.length h - List.length pre)%nat with 1%nat by lia.
  reflexivity.
Qed.

Lemma add_entry_old_dict (l : loc) (d : dict val) :
  dict_at h l = Ok d -> l <> la -> dict_at h2 l = Ok d.
Proof.
  intros Hd Hne. unfold dict_at.
  rewrite (add_entry_old l (dict_at_lt _ _ _ Hd) Hne). exact Hd.
Qed.

Lemma add_entry_metadata_loc (a : string) :
  metadata_loc h2 la a
  = if String.eqb actor_id a then Some m else metadata_loc h la a.
Proof.
  unfold metadata_loc. rewrite add_entry_actors, Hda, dict_get_set.
  destruct (String.eqb actor_id a).
  - pose proof add_entry_entry as He. unfold getitem. unfold dict_at in He.
    destruct (h2 !! S m) as [[d|vs]|]; try discriminate He.
    injection He as ->. rewrite Hmeta. reflexivity.
  - destruct (dict_get a da) as [v|] eqn:Hv; [|reflexivity].
    destruct Hshape as (da' & Hda' & Hentries & _).
    rewrite Hda in Hda'. injection Hda' as <-.
    destruct (Hentries a v Hv) as (e & de' & _ & _ & -> & He & _ & _ & Hela & _).
    unfold getitem. rewrite (add_entry_old e (dict_at_lt _ _ _ He) Hela).
    reflexivity.
Qed.

Lemma add_entry_shape : actors_shape h2 la.
Proof.
  pose proof Hshape as (da' & Hda' & Hentries & Hinj).
  rewrite Hda in Hda'. injection Hda' as <-.
  pose proof (dict_at_lt _ _ _ Hda) as Hla.
  assert (Hold_entry : forall a e, dict_get a da = Some (VRef e) ->
                                   (e < List.length h)%nat).
  { intros a e Ha.
    destruct (Hentries a _ Ha) as (e' & de' & _ & _ & Heq & He & _).
    injection Heq as <-. apply (dict_at_lt _ _ _ He). }
  exists (dict_set actor_id (VRef (S m)) da).
  split; [exact add_entry_actors|]. split.
  - intros a v. rewrite dict_get_set.
    destruct (String.eqb actor_id a) eqn:Ea.
    + intros Hv. injection Hv as <-.
      exists (S m), de, m, []. split; [reflexivity|].
      split; [exact add_entry_entry|]. split; [exact Hmeta|].
      split; [exact add_entry_metadata|]. split; [lia|]. split; [lia|].
      intros a'. rewrite dict_get_set.
      destruct (String.eqb actor_id a').
      * intros H. injection H as H. lia.
      * intros H. apply Hold_entry in H. lia.
    + intros Hv.
      destruct (Hentries a v Hv)
        as (e & de' & m' & dm' & -> & He & Hmd & Hdm & Hela & Hmla & Hnot).
      exists e, de', m', dm'. split; [reflexivity|].
      split; [apply add_entry_old_dict; assumption|]. split; [exact Hmd|].
      split; [apply add_entry_old_dict; assumption|].
      split; [exact Hela|]. split; [exact Hmla|].
      intros a'. rewrite dict_get_set.
      destruct (String.eqb actor_id a').
      * intros H. injection H as H. apply dict_at_lt in Hdm. lia.
      * apply Hnot.
  - intros a a' x. rewrite !add_entry_metadata_loc.
    destruct (String.eqb_spec actor_id a) as [<-|Ha];
      destruct (String.eqb_spec actor_id a') as [<-|Ha']; intros H H'.
    + reflexivity.
    + injection H as <-.
      assert (Hcell : metadata_cell h la m) by (exists a'; exact H').
      pose proof (metadata_cell_lt h la m Hshape Hcell). lia.
    + injection H' as <-.
      assert (Hcell : metadata_cell h la m) by (exists a; exact H).
      pose proof (metadata_cell_lt h la m Hshape Hcell). lia.
    + apply (Hinj a a' x H H').
Qed.

Lemma add_entry_cell_old (l : loc) :
  (l < List.length h)%nat -> metadata_cell h2 la l -> metadata_cell h la l.
Proof.
  intros Hl [a Ha]. rewrite add_entry_metadata_loc in Ha.
  destruct (String.eqb actor_id a).
  - injection Ha as Ha. lia.
  - exists a. exact Ha.
Qed.

Lemma add_entry_cell_new (l : loc) :
  (List.length h <= l < m)%nat -> ~ metadata_cell h2 la l.
Proof.
  intros Hl [a Ha]. rewrite add_entry_metadata_loc in Ha.
  destruct (String.eqb actor_id a).
  - injection Ha as Ha. lia.
  - assert (Hcell : metadata_cell h la l) by (exists a; exact Ha).
    pose proof (metadata_cell_lt h la l Hshape Hcell). lia.
Qed.

(** The runtime environment and the resources of the entry that is added:
    the tree allocated in [c1], and the dictionary allocated after it. *)
Lemma add_entry_env_ok (json_loads : string -> result json)
    (raw : ActorTableData) (c1 : list obj) (tree : json) (rt : val) :
  pre = c1 ++ [ODict (resources_of raw)] ->
  json_loads (ActorTable.serialized_runtime_env raw) = Ok tree ->
  represents (h ++ c1) rt tree ->
  val_in (List.length h) (List.length h + List.length c1)%nat rt ->
  Forall (obj_in (List.length h) (List.length h + List.length c1)%nat) c1 ->
  env_ok json_loads h2 la raw rt
         (VRef (List.length h + List.length c1)%nat).
Proof.
  intros Hpre Htree Hrep Hrt Hc1.
  pose proof (dict_at_lt _ _ _ Hda) as Hla.
  assert (Hlen : List.length pre = S (List.length c1)).
  { rewrite Hpre, length_app. simpl. lia. }
  assert (Hregion : forall l, reaches (h ++ c1) rt l ->
            (List.length h <= l < List.length h + List.length c1)%nat).
  { intros l. apply (reaches_region h c1 rt l Hc1 Hrt). }
  assert (Hlist : h ++ pre ++ [ODict []; ODict de]
                  = (h ++ c1)
                      ++ [ODict (resources_of raw); ODict []; ODict de]).
  { rewrite Hpre, <- !app_assoc. reflexivity. }
  assert (Hkeep : forall l o, reaches (h ++ c1) rt l ->
                              (h ++ c1) !! l = Some o -> h2 !! l = Some o).
  { intros l o Hl Ho. pose proof (Hregion l Hl).
    rewrite list_lookup_insert_ne by lia. rewrite Hlist.
    apply lookup_app_l_Some. exact Ho. }
  split; [|split].
  - exists tree. split; [exact Htree|].
    apply (represents_frame (h ++ c1) h2 tree rt Hkeep Hrep).
  - intros l Hl.
    assert (Hl0 : reaches (h ++ c1) rt l).
    { apply (reaches_back (h ++ c1) h2 rt l Hkeep); [|exact Hl].
      intros l' Hl'. pose proof (Hregion l' Hl'). rewrite length_app. lia. }
    pose proof (Hregion l Hl0).
    split; [rewrite length_insert, !length_app; simpl; lia|].
    split; [lia|]. apply add_entry_cell_new. lia.
  - exists (List.length h + List.length c1)%nat. split; [reflexivity|].
    split; [|split; [lia|apply add_entry_cell_new; lia]].
    unfold dict_at. rewrite list_lookup_insert_ne by lia. rewrite Hlist.
    rewrite lookup_app_r by (rewrite length_app; lia).
    rewrite length_app.
    replace (List.length h + List.length c1
             - (List.length h + List.length c1))%nat with 0%nat by lia.
    reflexivity.
Qed.

Lemma add_entry_entries_ok (json_loads : string -> result json)
    (ActorState_Name : Z -> result string)
    (table : list ActorTableData) (raw : ActorTableData)
    (state_name : string) (runtime_env resources : val) :
  entries_ok json_loads ActorState_Name h la table ->
  actor_id = Py.hex (ActorTable.actor_id raw) ->
  ActorState_Name (ActorTable.state raw) = Ok state_name ->
  de = entry_of raw state_name runtime_env resources (VRef m) ->
  env_ok json_loads h2 la raw runtime_env resources ->
  entries_ok json_loads ActorState_Name h2 la (table ++ [raw]).
Proof.
  intros (da' & Hda' & Hmem & Hentries) Hid Hname Hde Henv.
  rewrite Hda in Hda'. injection Hda' as <-.
  pose proof Hshape as (da' & Hda' & Hshape_entries & _).
  rewrite Hda in Hda'. injection Hda' as <-.
  pose proof (dict_at_lt _ _ _ Hda) as Hla.
  exists (dict_set actor_id (VRef (S m)) da).
  split; [exact add_entry_actors|]. split.
  - intros raw' Hraw'. unfold dict_mem. rewrite dict_get_set.
    destruct (String.eqb actor_id (Py.hex (ActorTable.actor_id raw')))
      eqn:E; [reflexivity|].
    apply in_app_or in Hraw'. destruct Hraw' as [Hraw'|[<-|[]]].
    + apply (Hmem raw' Hraw').
    + rewrite Hid, String.eqb_refl in E. discriminate E.
  - intros a v. rewrite dict_get_set.
    destruct (String.eqb_spec actor_id a) as [<-|Hne].
    + intros Hv. injection Hv as <-.
      exists raw, (S m), state_name, runtime_env, resources, m.
      split; [apply in_or_app; right; left; reflexivity|].
      split; [exact Hid|]. split; [reflexivity|]. split; [exact Hname|].
      split; [rewrite <- Hde; exact add_entry_entry|].
      split; [left; exact add_entry_metadata | exact Henv].
    + intros Hv.
      destruct (Hentries a v Hv)
        as (raw' & e & sn & rt & rs & m' & Hraw' & Ha & -> & Hsn & He & Hmc
            & Henv').
      destruct (Hshape_entries a _ Hv)
        as (e' & de' & m'' & dm' & Heq & He' & Hmd' & Hdm' & Hela & Hmla & _).
      injection Heq as <-. rewrite He in He'. injection He' as <-.
      simpl in Hmd'. injection Hmd' as <-.
      exists raw', e, sn, rt, rs, m'.
      split; [apply in_or_app; left; exact Hraw'|].
      split; [exact Ha|]. split; [reflexivity|]. split; [exact Hsn|].
      split; [apply add_entry_old_dict; assumption|].
      split.
      2:{ apply (env_ok_keeps json_loads h h2 la raw' rt rs); [| | |exact Henv'].
          - intros l o Ho Hlla _.
            rewrite (add_entry_old l (lookup_lt_Some _ _ _ Ho) Hlla). exact Ho.
          - exact add_entry_cell_old.
          - rewrite length_insert, length_app. lia. }
      destruct Hmc as [Hempty | (s & v1 & v2 & v3 & Hm' & Hs & Hsla & Hsnot)].
      * left. apply add_entry_old_dict; assumption.
      * right. exists s, v1, v2, v3.
        split; [apply add_entry_old_dict; assumption|].
        split; [apply add_entry_old_dict; assumption|].
        split; [exact Hsla|].
        intros [a' Ha']. rewrite add_entry_metadata_loc in Ha'.
        destruct (String.eqb actor_id a').
        -- injection Ha' as Ha'. apply dict_at_lt in Hs. lia.
        -- apply Hsnot. exists a'. exact Ha'.
Qed.

End AddEntry.

Lemma run_lift {A} (r : result A) (w : world) :
  lift r w = match r with Ok a => Ok (a, w) | Raise e => Raise e end.
Proof. reflexivity. Qed.

Section ActorInfoFacts.

Variable json_loads : string -> result json.
Variable ActorState_Name : Z -> result string.
Variable GetAllActorInfo : bool -> Z -> result (list ActorTableData).
Variable get_serve_info_at : nat -> result (dict json).

(** [make_entry] appends the objects of the entry: those of the runtime
    environment and of the resources, then an empty metadata dictionary, then
    the entry, which is the dictionary of the actor and refers to that
    metadata. *)
Lemma make_entry_inv (e : ActorTableData) (w w1 : world) (v : val) :
  make_entry json_loads ActorState_Name e w = Ok (v, w1) ->
  exists pre de state_name runtime_env resources,
    w1 = grow w (pre ++ [ODict []; ODict de])
    /\ v = VRef (S (List.length (objects w) + List.length pre))
    /\ dict_get "metadata" de
       = Some (VRef (List.length (objects w) + List.length pre)%nat)
    /\ ActorState_Name (ActorTable.state e) = Ok state_name
    /\ de = entry_of e state_name runtime_env resources
              (VRef (List.length (objects w) + List.length pre)%nat).
Proof.
  unfold make_entry. rewrite run_bind, run_lift.
  destruct (json_loads _) as [tree|]; [|discriminate].
  rewrite run_bind.
  destruct (alloc_json_appends tree w) as (rt & c1 & -> & _ & _).
  rewrite run_bind, run_lift.
  destruct (ActorState_Name _) as [state_name|]; [|discriminate].
  rewrite run_bind, run_alloc, run_bind, run_alloc, run_bind, run_alloc.
  intros H. injection H as <- <-.
  set (res := ODict (dict_of_items _ _ _)).
  exists (c1 ++ [res]). eexists. exists state_name, rt. eexists.
  rewrite !extend_grow, !grow_grow. simpl.
  rewrite <- !app_assoc. simpl. split; [reflexivity|].
  rewrite !length_app. simpl. split; [f_equal; lia|].
  split; [reflexivity|]. split; [reflexivity|].
  unfold entry_of. reflexivity.
Qed.

(** The same, with the runtime environment and the resources: the tree that
    [json.loads] returned is allocated first, then the dictionary of the
    resources. *)
Lemma make_entry_full (e : ActorTableData) (w w1 : world) (v : val) :
  make_entry json_loads ActorState_Name e w = Ok (v, w1) ->
  exists c1 tree state_name runtime_env,
    w1 = grow w ((c1 ++ [ODict (resources_of e)])
                 ++ [ODict [];
                     ODict (entry_of e state_name runtime_env
                              (VRef (List.length (objects w)
                                     + List.length c1)%nat)
                              (VRef (List.length (objects w)
                                     + List.length
                                         (c1 ++ [ODict (resources_of e)]))%nat
                              ))])
    /\ v = VRef (S (List.length (objects w)
                    + List.length (c1 ++ [ODict (resources_of e)])))
    /\ ActorState_Name (ActorTable.state e) = Ok state_name
    /\ json_loads (ActorTable.serialized_runtime_env e) = Ok tree
    /\ represents (objects w ++ c1) runtime_env tree
    /\ val_in (List.length (objects w))
              (List.length (objects w) + List.length c1)%nat runtime_env
    /\ Forall (obj_in (List.length (objects w))
                  (List.length (objects w) + List.length c1)%nat) c1.
Proof.
  unfold make_entry. rewrite run_bind, run_lift.
  destruct (json_loads _) as [tree|]; [|discriminate].
  rewrite run_bind.
  destruct (alloc_json_appends tree w) as (rt & c1 & Hrun & Hrt & Hc1).
  pose proof (alloc_json_represents tree w rt _ Hrun) as [Hrep _].
  rewrite Hrun.
  rewrite run_bind, run_lift.
  destruct (ActorState_Name _) as [state_name|]; [|discriminate].
  rewrite run_bind, run_alloc, run_bind, run_alloc, run_bind, run_alloc.
  intros H. injection H as <- <-.
  exists c1, tree, state_name, rt.
  rewrite !extend_grow, !grow_grow. simpl.
  rewrite <- !app_assoc. simpl.
  rewrite !length_app. simpl.
  split; [reflexivity|].
  split; [f_equal; lia|]. split; [reflexivity|]. split; [reflexivity|].
  split; [exact Hrep|]. split; [exact Hrt | exact Hc1].
Qed.

Lemma actor_step_split (la : loc) (e : ActorTableData) (w : world) :
  actor_step json_loads ActorState_Name get_serve_info_at la e w
  = match before_join json_loads ActorState_Name get_serve_info_at la e w
    with
    | Ok (ld, w3) => join la ld w3
    | Raise x => Raise x
    end.
Proof.
  unfold actor_step, before_join. rewrite !run_bind.
  destruct (make_entry _ _ e w) as [[v w1]|]; [|reflexivity].
  rewrite !run_bind.
  destruct (setitem _ _ v w1) as [[[] w2]|]; [|reflexivity].
  rewrite run_bind. reflexivity.
Qed.

(** The state in which the join of a turn starts: the actors have the shape
    assumed of them, the deployments are apart from their metadata, and the
    entry just stored has an empty metadata. *)
Lemma before_join_inv (la : loc) (e : ActorTableData) (w w3 : world)
    (ld : val) :
  actors_shape (objects w) la ->
  before_join json_loads ActorState_Name get_serve_info_at la e w
  = Ok (ld, w3) ->
  actors_shape (objects w3) la
  /\ apart (objects w3) la ld
  /\ serve_calls w3 = S (serve_calls w)
  /\ exists m,
       metadata_loc (objects w3) la (Py.hex (ActorTable.actor_id e)) = Some m
       /\ dict_at (objects w3) m = Ok [].
Proof.
  intros Hshape. unfold before_join. rewrite run_bind.
  destruct (make_entry _ _ e w) as [[v w1]|] eqn:Hentry; [|discriminate].
  destruct (make_entry_inv e w w1 v Hentry)
    as (pre & de & state_name & rt & res & -> & -> & Hmeta & Hname & Hde).
  pose proof Hshape as (da & Hda & _).
  pose proof (dict_at_lt _ _ _ Hda) as Hla.
  set (aid := Py.hex (ActorTable.actor_id e)).
  set (m := (List.length (objects w) + List.length pre)%nat) in *.
  rewrite run_bind, (run_setitem la da).
  2:{ unfold dict_at, grow. simpl. rewrite lookup_app_l by exact Hla.
      exact Hda. }
  simpl objects. simpl serve_calls.
  pose proof (add_entry_shape (objects w) la da pre de aid Hshape Hda Hmeta)
    as Hshape2.
  pose proof (add_entry_metadata_loc (objects w) la da pre de aid Hshape Hda
                Hmeta aid) as Hm2.
  rewrite String.eqb_refl in Hm2.
  pose proof (add_entry_metadata (objects w) la da pre de aid Hda) as Hempty2.
  set (h2 := <[la := _]> _) in *.
  unfold call_get_serve_info. simpl serve_calls.
  destruct (get_serve_info_at (serve_calls w)) as [d|]; [|discriminate].
  simpl objects.
  destruct (alloc_json_appends (JDict d)
              {| objects := h2; serve_calls := S (serve_calls w) |})
    as (ld' & cells & -> & Hld & Hcells).
  simpl in Hld, Hcells. unfold grow. simpl objects. simpl serve_calls.
  set (w2 := {| objects := h2; serve_calls := serve_calls w |}).
  destruct (fresh_tree_apart la w2 cells (S (serve_calls w)) ld'
              Hshape2 Hcells Hld) as [Hshape3 Hapart3].
  pose proof (grow_frame_inv la w2 cells (S (serve_calls w)) Hshape2) as Hinv3.
  simpl in Hshape3, Hapart3.
  intros H. injection H as <- <-. simpl.
  split; [exact Hshape3|]. split; [exact Hapart3|]. split; [reflexivity|].
  exists m. split.
  - pose proof (frame_metadata_loc h2 la Hshape2 _ aid Hinv3) as H3.
    simpl in H3. rewrite H3. exact Hm2.
  - unfold dict_at.
    rewrite (lookup_app_l _ _ _ (dict_at_lt _ _ _ Hempty2)). exact Hempty2.
Qed.

(** The join keeps the shape of the actors and calls nothing. *)
Lemma join_shape (la : loc) (ld : val) (w w' : world) :
  actors_shape (objects w) la -> apart (objects w) la ld ->
  join la ld w = Ok (tt, w') ->
  actors_shape (objects w') la /\ serve_calls w' = serve_calls w.
Proof.
  intros Hshape Hld Hjoin.
  destruct (join_Ok_inv w w' la ld Hshape Hld Hjoin) as (atts & _ & ->).
  split.
  - apply (shape_preserved (objects w) la); [exact Hshape|].
    apply attach_all_frame_inv; [exact Hshape|].
    apply frame_inv_start; [exact Hshape | reflexivity].
  - apply attach_calls.
Qed.

Lemma actor_step_inv (la : loc) (e : ActorTableData) (w w' : world) :
  actors_shape (objects w) la ->
  actor_step json_loads ActorState_Name get_serve_info_at la e w
  = Ok (tt, w') ->
  actors_shape (objects w') la /\ serve_calls w' = S (serve_calls w).
Proof.
  intros Hshape Hstep. rewrite actor_step_split in Hstep.
  destruct (before_join _ _ _ la e w) as [[ld w3]|] eqn:Hbefore;
    [|discriminate].
  destruct (before_join_inv la e w w3 ld Hshape Hbefore)
    as (Hshape3 & Hapart3 & Hcalls3 & _).
  destruct (join_shape la ld w3 w' Hshape3 Hapart3 Hstep) as [Hshape' Hcalls'].
  split; [exact Hshape' | congruence].
Qed.

Lemma actor_steps_inv (la : loc) (reply : list ActorTableData)
    (w w' : world) :
  actors_shape (objects w) la ->
  for_each (actor_step json_loads ActorState_Name get_serve_info_at la)
           reply w = Ok (tt, w') ->
  actors_shape (objects w') la
  /\ serve_calls w' = (serve_calls w + List.length reply)%nat.
Proof.
  revert w. induction reply as [|e reply IH]; intros w Hshape Hrun.
  - injection Hrun as <-. split; [exact Hshape | simpl; lia].
  - rewrite for_each_cons in Hrun.
    destruct (actor_step _ _ _ la e w) as [[[] w1]|] eqn:Hstep;
      [|discriminate].
    destruct (actor_step_inv la e w w1 Hshape Hstep) as [Hshape1 Hcalls1].
    destruct (IH w1 Hshape1 Hrun) as [Hshape' Hcalls'].
    split; [exact Hshape'|]. simpl. lia.
Qed.

Lemma empty_actors_shape (w : world) :
  actors_shape (objects (extend w (ODict []))) (List.length (objects w)).
Proof.
  exists []. split; [|split].
  - unfold dict_at, extend. simpl. rewrite lookup_last. reflexivity.
  - intros a v H. discriminate H.
  - intros a a' m H. unfold metadata_loc, dict_at, extend in H. simpl in H.
    rewrite lookup_last in H. discriminate H.
Qed.

(** C1, where the code departs from it: [get_actor_info] calls the
    deployment snapshot resolver once for each entry of the actor table, in
    the loop that builds the actor map, and not once after the actors are
    fetched; with no actor it is not called, with two it is called twice. *)
Theorem serve_info_called_once_per_actor (w w' : world) (la : loc) :
  get_actor_info json_loads ActorState_Name GetAllActorInfo get_serve_info_at
    w = Ok (la, w') ->
  exists reply,
    GetAllActorInfo true 5 = Ok reply
    /\ serve_calls w' = (serve_calls w + List.length reply)%nat
    /\ actors_shape (objects w') la.
Proof.
  unfold get_actor_info. rewrite run_bind, run_lift.
  destruct (GetAllActorInfo true 5) as [reply|]; [|discriminate].
  rewrite run_bind, run_alloc, run_bind.
  destruct (for_each _ reply _) as [[[] w1]|] eqn:Hloop; [|discriminate].
  intros H. injection H as <- <-.
  destruct (actor_steps_inv _ reply _ w1 (empty_actors_shape w) Hloop)
    as [Hshape Hcalls].
  exists reply. split; [reflexivity|]. split; [exact Hcalls | exact Hshape].
Qed.

End ActorInfoFacts.

(** ** The entries and their metadata through [get_actor_info] *)

Lemma last_target_In (h : heap) (la m : loc) (atts : list attachment)
    (sm : dict val) :
  last_target h la m atts = Some sm -> exists a, In a atts /\ snd a = sm.
Proof.
  induction atts as [|a atts IH]; simpl; [discriminate|].
  destruct (last_target h la m atts) as [sm'|].
  - intros H. destruct (IH H) as (a' & Ha' & Heq).
    exists a'. split; [right; exact Ha' | exact Heq].
  - destruct (targets h la m a); [|discriminate].
    intros H. injection H as <-. exists a. split; [left|]; reflexivity.
Qed.

Lemma attachment_record (h : heap) (la : loc) (ld : val)
    (atts : list attachment) (a : attachment) :
  attachments h la ld = Ok atts -> In a atts ->
  exists v1 v2 v3,
    snd a = [("replica_tag", v1); ("deployment_name", v2); ("version", v3)].
Proof.
  intros Hatts Ha.
  destruct (attachments_inv h la ld atts Hatts)
    as (da & ds & ids & _ & _ & _ & _ & Horigin).
  destruct (Horigin a Ha) as (d & rd & rs & r & _ & _ & _ & _ & _ & Hsm).
  unfold serve_metadata_of in Hsm.
  apply bind_Ok_inv in Hsm. destruct Hsm as (v1 & _ & Hsm).
  apply bind_Ok_inv in Hsm. destruct Hsm as (v2 & _ & Hsm).
  apply bind_Ok_inv in Hsm. destruct Hsm as (v3 & _ & Hsm).
  injection Hsm as Hsm. exists v1, v2, v3. symmetry. exact Hsm.
Qed.

Section FrameFacts.

Variable h0 : heap.
Variable la : loc.
Variable w : world.
Hypothesis Hshape : actors_shape h0 la.
Hypothesis Hinv : frame_inv h0 la w.

Lemma metadata_cell_frame (m : loc) :
  metadata_cell (objects w) la m <-> metadata_cell h0 la m.
Proof.
  split; intros [a Ha]; exists a.
  - rewrite <- (frame_metadata_loc h0 la Hshape w a Hinv). exact Ha.
  - rewrite (frame_metadata_loc h0 la Hshape w a Hinv). exact Ha.
Qed.

Lemma metadata_content_unchanged (m : loc) :
  dict_at (objects w) m = dict_at h0 m ->
  metadata_content_ok h0 la m -> metadata_content_ok (objects w) la m.
Proof.
  intros Hsame [Hempty | (s & v1 & v2 & v3 & Hm & Hs & Hsla & Hsnot)].
  - left. rewrite Hsame. exact Hempty.
  - right. exists s, v1, v2, v3. rewrite Hsame.
    split; [exact Hm|]. split.
    + apply (frame_dict_at h0 la w s _ Hinv Hs Hsnot).
    + split; [exact Hsla|]. rewrite metadata_cell_frame. exact Hsnot.
Qed.

Lemma entries_ok_frame (json_loads : string -> result json)
    (ActorState_Name : Z -> result string)
    (table : list ActorTableData) :
  entries_ok json_loads ActorState_Name h0 la table ->
  (forall m, metadata_cell h0 la m -> metadata_content_ok h0 la m ->
             metadata_content_ok (objects w) la m) ->
  entries_ok json_loads ActorState_Name (objects w) la table.
Proof.
  intros (da & Hda & Hmem & Hentries) Hcontent.
  exists da. split.
  { apply (frame_dict_at h0 la w la da Hinv Hda).
    apply (actors_not_metadata h0 la Hshape). }
  split; [exact Hmem|].
  intros a v Hv.
  destruct (Hentries a v Hv)
    as (raw & e & sn & rt & rs & m & Hraw & Ha & -> & Hsn & He & Hmc & Henv).
  exists raw, e, sn, rt, rs, m.
  split; [exact Hraw|]. split; [exact Ha|]. split; [reflexivity|].
  split; [exact Hsn|]. split; [|split].
  - apply (frame_dict_at h0 la w e _ Hinv He).
    apply (entry_not_metadata h0 la Hshape da a e Hda Hv).
  - apply Hcontent; [|exact Hmc].
    exists a. apply (metadata_loc_Some h0 la da _ a e m Hda Hv He).
    reflexivity.
  - destruct Hinv as (Hlen & Hold & _).
    apply (env_ok_keeps json_loads h0 (objects w) la raw rt rs);
      [| |exact Hlen|exact Henv].
    + intros l o Ho _ Hnot.
      rewrite (Hold l (lookup_lt_Some _ _ _ Ho) Hnot). exact Ho.
    + intros l _. apply metadata_cell_frame.
Qed.

End FrameFacts.

(** Appending objects keeps the entries and their metadata. *)
Lemma grow_entries_ok (json_loads : string -> result json)
    (ActorState_Name : Z -> result string) (la : loc)
    (w : world) (cells : list obj) (n : nat) (table : list ActorTableData) :
  actors_shape (objects w) la ->
  entries_ok json_loads ActorState_Name (objects w) la table ->
  entries_ok json_loads ActorState_Name (objects w ++ cells) la table.
Proof.
  intros Hshape Hok.
  pose proof (grow_frame_inv la w cells n Hshape) as Hinv.
  apply (entries_ok_frame (objects w) la _ Hshape Hinv json_loads
           ActorState_Name table Hok).
  intros m Hcell. apply (metadata_content_unchanged _ la _ Hshape Hinv).
  simpl. unfold dict_at.
  rewrite (lookup_app_l _ _ _ (metadata_cell_lt _ la m Hshape Hcell)).
  reflexivity.
Qed.

(** The join keeps the entries, and leaves every metadata empty or with a
    record of the three keys under [serve]. *)
Lemma join_entries_ok (json_loads : string -> result json)
    (ActorState_Name : Z -> result string) (la : loc)
    (ld : val) (w w' : world) (table : list ActorTableData) :
  actors_shape (objects w) la -> apart (objects w) la ld ->
  join la ld w = Ok (tt, w') ->
  entries_ok json_loads ActorState_Name (objects w) la table ->
  entries_ok json_loads ActorState_Name (objects w') la table.
Proof.
  intros Hshape Hld Hjoin Hok.
  destruct (join_Ok_inv w w' la ld Hshape Hld Hjoin) as (atts & Hatts & ->).
  pose proof (frame_inv_start (objects w) la Hshape w eq_refl) as Hinv0.
  pose proof (attach_all_frame_inv (objects w) la Hshape atts w Hinv0) as Hinv.
  apply (entries_ok_frame (objects w) la _ Hshape Hinv json_loads
           ActorState_Name table Hok).
  intros m Hcell Hmc.
  destruct (metadata_cell_inv (objects w) la Hshape m Hcell)
    as (_ & dm & _ & Hdm & _).
  pose proof (attach_all_target (objects w) la Hshape atts w m dm
                Hinv0 Hcell Hdm) as Htarget.
  destruct (last_target (objects w) la m atts) as [sm|] eqn:Hlast.
  - destruct Htarget as (s & Hs & Hm' & Hrec).
    destruct (last_target_In _ _ _ _ _ Hlast) as (a & Ha & <-).
    destruct (attachment_record _ _ _ _ a Hatts Ha) as (v1 & v2 & v3 & Hsm).
    right. exists s, v1, v2, v3. split; [|split; [|split]].
    + rewrite Hm'. f_equal.
      destruct Hmc as [Hempty | (s0 & ? & ? & ? & Hm0 & _)].
      * rewrite Hdm in Hempty. injection Hempty as ->. reflexivity.
      * rewrite Hdm in Hm0. injection Hm0 as ->. reflexivity.
    + rewrite Hrec, Hsm. reflexivity.
    + pose proof (metadata_cell_lt _ la m Hshape Hcell).
      destruct Hshape as (da & Hda & _). apply dict_at_lt in Hda. lia.
    + rewrite (metadata_cell_frame (objects w) la _ Hshape Hinv).
      intros Hs'. pose proof (metadata_cell_lt _ la s Hshape Hs'). lia.
  - apply (metadata_content_unchanged _ la _ Hshape Hinv); [|exact Hmc].
    rewrite Htarget, Hdm. reflexivity.
Qed.

Section ActorInfoResult.

Variable json_loads : string -> result json.
Variable ActorState_Name : Z -> result string.
Variable GetAllActorInfo : bool -> Z -> result (list ActorTableData).
Variable get_serve_info_at : nat -> result (dict json).

Lemma before_join_entries (la : loc) (e : ActorTableData) (w w3 : world)
    (ld : val) (table : list ActorTableData) :
  actors_shape (objects w) la ->
  entries_ok json_loads ActorState_Name (objects w) la table ->
  before_join json_loads ActorState_Name get_serve_info_at la e w
  = Ok (ld, w3) ->
  entries_ok json_loads ActorState_Name (objects w3) la (table ++ [e]).
Proof.
  intros Hshape Hok. unfold before_join. rewrite run_bind.
  destruct (make_entry _ _ e w) as [[v w1]|] eqn:Hentry; [|discriminate].
  destruct (make_entry_full json_loads ActorState_Name e w w1 v Hentry)
    as (c1 & tree & state_name & rt & -> & -> & Hname & Htree & Hrep & Hrt
        & Hc1).
  set (pre := c1 ++ [ODict (resources_of e)]) in *.
  set (res := VRef (List.length (objects w) + List.length c1)%nat) in *.
  set (de := entry_of e state_name rt res
               (VRef (List.length (objects w) + List.length pre)%nat)) in *.
  assert (Hmeta : dict_get "metadata" de
                  = Some (VRef (List.length (objects w)
                                + List.length pre)%nat)) by reflexivity.
  pose proof Hshape as (da & Hda & _).
  pose proof (dict_at_lt _ _ _ Hda) as Hla.
  set (aid := Py.hex (ActorTable.actor_id e)).
  rewrite run_bind, (run_setitem la da).
  2:{ unfold dict_at, grow. simpl. rewrite lookup_app_l by exact Hla.
      exact Hda. }
  simpl objects. simpl serve_calls.
  pose proof (add_entry_shape (objects w) la da pre de aid Hshape Hda Hmeta)
    as Hshape2.
  pose proof (add_entry_env_ok (objects w) la da pre de aid Hshape Hda
                Hmeta json_loads e c1 tree rt eq_refl Htree Hrep Hrt Hc1)
    as Henv2.
  pose proof (add_entry_entries_ok (objects w) la da pre de aid Hshape Hda
                Hmeta json_loads ActorState_Name table e state_name rt res
                Hok eq_refl Hname eq_refl Henv2) as Hok2.
  set (h2 := <[la := _]> _) in *.
  unfold call_get_serve_info. simpl serve_calls.
  destruct (get_serve_info_at (serve_calls w)) as [d|]; [|discriminate].
  simpl objects.
  destruct (alloc_json_appends (JDict d)
              {| objects := h2; serve_calls := S (serve_calls w) |})
    as (ld' & cells & -> & _ & _).
  unfold grow. simpl objects. simpl serve_calls.
  intros H. injection H as <- <-. simpl objects.
  apply (grow_entries_ok json_loads ActorState_Name la
           {| objects := h2; serve_calls := serve_calls w |} cells 0
           (table ++ [e]) Hshape2 Hok2).
Qed.

Lemma actor_step_entries (la : loc) (e : ActorTableData) (w w' : world)
    (table : list ActorTableData) :
  actors_shape (objects w) la ->
  entries_ok json_loads ActorState_Name (objects w) la table ->
  actor_step json_loads ActorState_Name get_serve_info_at la e w
  = Ok (tt, w') ->
  entries_ok json_loads ActorState_Name (objects w') la (table ++ [e]).
Proof.
  intros Hshape Hok Hstep. rewrite actor_step_split in Hstep.
  destruct (before_join _ _ _ la e w) as [[ld w3]|] eqn:Hbefore;
    [|discriminate].
  destruct (before_join_inv json_loads ActorState_Name get_serve_info_at
              la e w w3 ld Hshape Hbefore) as (Hshape3 & Hapart3 & _).
  apply (join_entries_ok json_loads ActorState_Name la ld w3 w' _ Hshape3
           Hapart3 Hstep).
  apply (before_join_entries la e w w3 ld table Hshape Hok Hbefore).
Qed.

Lemma actor_steps_entries (la : loc) (reply : list ActorTableData)
    (w w' : world) (table : list ActorTableData) :
  actors_shape (objects w) la ->
  entries_ok json_loads ActorState_Name (objects w) la table ->
  for_each (actor_step json_loads ActorState_Name get_serve_info_at la)
           reply w = Ok (tt, w') ->
  entries_ok json_loads ActorState_Name (objects w') la (table ++ reply).
Proof.
  revert w table.
  induction reply as [|e reply IH]; intros w table Hshape Hok Hrun.
  - injection Hrun as <-. rewrite app_nil_r. exact Hok.
  - rewrite for_each_cons in Hrun.
    destruct (actor_step _ _ _ la e w) as [[[] w1]|] eqn:Hstep;
      [|discriminate].
    destruct (actor_step_inv json_loads ActorState_Name get_serve_info_at
                la e w w1 Hshape Hstep) as [Hshape1 _].
    pose proof (actor_step_entries la e w w1 table Hshape Hok Hstep) as Hok1.
    pose proof (IH w1 (table ++ [e]) Hshape1 Hok1 Hrun) as H.
    rewrite <- app_assoc in H. exact H.
Qed.

(** X17. What [get_actor_info] returns: the map has a key for every entry
    of the actor table; every value is the dictionary built from an entry of
    the table with that key: the scalar fields are those of the entry, the
    runtime environment is the tree that [json.loads] returns for the
    serialized runtime environment of the entry, the resources are the
    dictionary of its required resources, and the metadata is empty or holds,
    under [serve], a record of the replica tag, the deployment name and the
    version. *)
Theorem get_actor_info_result (w w' : world) (la : loc) :
  get_actor_info json_loads ActorState_Name GetAllActorInfo get_serve_info_at
    w = Ok (la, w') ->
  exists reply,
    GetAllActorInfo true 5 = Ok reply
    /\ entries_ok json_loads ActorState_Name (objects w') la reply.
Proof.
  unfold get_actor_info. rewrite run_bind, run_lift.
  destruct (GetAllActorInfo true 5) as [reply|]; [|discriminate].
  rewrite run_bind, run_alloc, run_bind.
  destruct (for_each _ reply _) as [[[] w1]|] eqn:Hloop; [|discriminate].
  intros H. injection H as <- <-.
  exists reply. split; [reflexivity|].
  apply (actor_steps_entries _ reply _ w1 [] (empty_actors_shape w));
    [|exact Hloop].
  exists []. split; [|split].
  - unfold dict_at, extend. simpl. rewrite lookup_last. reflexivity.
  - intros raw [].
  - intros a v H. discriminate H.
Qed.

End ActorInfoResult.

(** ** The example run *)

Lemma example_join_state_ok :
  actors_shape (objects example_join_state) 0
  /\ apart (objects example_join_state) 0 example_join_deployments.
Proof.
  assert (H1 : actors_shape (objects example_after_first_turn) 0).
  { apply (actor_step_inv JsonText.loads example_state_name
             (fun _ => Ok example_deployments) 0%nat
             (example_actor xb2 "other") (extend new_world (ODict []))).
    - apply (empty_actors_shape new_world).
    - vm_compute. reflexivity. }
  destruct (before_join_inv JsonText.loads example_state_name
              (fun _ => Ok example_deployments) 0%nat
              (example_actor xa1 "replica") example_after_first_turn
              example_join_state example_join_deployments H1)
    as (Hshape & Hapart & _).
  - vm_compute. reflexivity.
  - split; assumption.
Qed.

Lemma example_join_runs :
  join 0 example_join_deployments example_join_state
  = Ok (tt, example_joined).
Proof. vm_compute. reflexivity. Qed.

(** The end-to-end example, with the [name] that the code reads: the actor
    [a1] gets the record of its replica under [serve]. *)
Lemma example_serve_record :
  serve_record (objects example_joined) 0 "a1"
  = Some [("replica_tag", VStr "t"); ("deployment_name", VStr "svc");
          ("version", VStr "v")].
Proof. vm_compute. reflexivity. Qed.

(** The deployment information of the end-to-end example as the
    specification writes it has no [name], and the join raises on it. *)
Lemma nameless_deployment_raises :
  get_actor_info JsonText.loads example_state_name
    (fun _ _ => Ok example_reply) (fun _ => Ok nameless_deployments)
    new_world
  = Raise (KeyError "name").
Proof. vm_compute. reflexivity. Qed.

Lemma serve_info_called_once_per_actor_witness :
  get_actor_info JsonText.loads example_state_name
    (fun _ _ => Ok example_reply) (fun _ => Ok example_deployments)
    new_world = Ok (0%nat, example_final)
  /\ serve_calls example_final = 2%nat
  /\ get_actor_info JsonText.loads example_state_name
       (fun _ _ => Ok []) (fun _ => Ok example_deployments) new_world
     = Ok (0%nat, extend new_world (ODict []))
  /\ serve_calls (extend new_world (ODict [])) = 0%nat.
Proof.
  assert (Hrun : get_actor_info JsonText.loads example_state_name
                   (fun _ _ => Ok example_reply)
                   (fun _ => Ok example_deployments) new_world
                 = Ok (0%nat, example_final))
    by (vm_compute; reflexivity).
  destruct (serve_info_called_once_per_actor JsonText.loads
              example_state_name (fun _ _ => Ok example_reply)
              (fun _ => Ok example_deployments) new_world example_final
              0%nat Hrun)
    as (reply & Hreply & Hcalls & _).
  injection Hreply as <-.
  split; [exact Hrun|]. split; [exact Hcalls|]. split; reflexivity.
Defined.

Lemma join_twice_same_output_witness :
  (forall l, reaches (objects example_join_state) example_join_deployments l ->
             objects example_joined !! l = objects example_join_state !! l)
  /\ exists w2,
       join 0 example_join_deployments example_joined = Ok (tt, w2)
       /\ serve_record (objects w2) 0 "a1"
          = serve_record (objects example_joined) 0 "a1".
Proof.
  destruct example_join_state_ok as [Hshape Hapart].
  destruct (join_twice_same_output example_join_state example_joined 0
              example_join_deployments Hshape Hapart example_join_runs)
    as (Hsame & _ & w2 & Hagain & _).
  split; [exact Hsame|].
  exists w2. split; [exact Hagain|].
  assert (Hw2 : join 0 example_join_deployments example_joined
                = Ok (tt, w2)) by exact Hagain.
  vm_compute in Hw2. injection Hw2 as <-. vm_compute. reflexivity.
Defined.

Lemma join_changes_only_serve_witness :
  replica_ids (objects example_join_state) example_join_deployments
  = Ok ["a1"; "ff"]
  /\ metadata_loc (objects example_join_state) 0 "b2" = Some 3%nat
  /\ dict_at (objects example_joined) 3 = Ok []
  /\ (exists s v1 v2 v3,
        dict_at (objects example_joined) 12 = Ok [("serve", VRef s)]
        /\ dict_at (objects example_joined) s
           = Ok [("replica_tag", v1); ("deployment_name", v2);
                 ("version", v3)]).
Proof.
  destruct example_join_state_ok as [Hshape Hapart].
  destruct (join_changes_only_serve example_join_state example_joined 0
              example_join_deployments Hshape Hapart example_join_runs)
    as (ids & Hids & _ & _ & Hreferenced & Hunreferenced).
  assert (Hids' : replica_ids (objects example_join_state)
                    example_join_deployments = Ok ["a1"; "ff"])
    by (vm_compute; reflexivity).
  rewrite Hids' in Hids. injection Hids as <-.
  split; [exact Hids'|]. split; [reflexivity|]. split.
  - apply (Hunreferenced "b2" 3%nat); [|reflexivity|reflexivity].
    intros [H|[H|[]]]; discriminate H.
  - destruct (Hreferenced "a1" 12%nat [] (or_introl eq_refl) eq_refl eq_refl)
      as (s & v1 & v2 & v3 & _ & Hm & Hs).
    exists s, v1, v2, v3. split; [exact Hm | exact Hs].
Defined.

(** ** The actor-kill endpoint and the actor ids of the snapshot *)

Lemma hex_byte_facts (x : byte) :
  Py.ascii_space (Py.hex_digit (Byte.to_N x / 16)) = false
  /\ Py.hex_value (Py.hex_digit (Byte.to_N x / 16))
     = Some (Byte.to_N x / 16)%N
  /\ Py.hex_value (Py.hex_digit (Byte.to_N x mod 16))
     = Some (Byte.to_N x mod 16)%N
  /\ Py.byte_of_N (16 * (Byte.to_N x / 16) + Byte.to_N x mod 16) = x.
Proof. destruct x; vm_compute; repeat split; reflexivity. Qed.

(** [bytes.fromhex] reads back what [bytes.hex] wrote. *)
Lemma fromhex_hex (b : bytes) : Py.fromhex (Py.hex b) = Ok b.
Proof.
  unfold Py.fromhex. induction b as [|x b IH]; [reflexivity|].
  destruct (hex_byte_facts x) as (Hspace & Hhi & Hlo & Hx).
  cbn [Py.hex list_ascii_of_string Py.fromhex_chars].
  rewrite Hspace, Hhi, Hlo, IH, Hx. reflexivity.
Qed.

Lemma hex_injective (a b : bytes) : Py.hex a = Py.hex b -> a = b.
Proof.
  intros H. pose proof (fromhex_hex a) as Ha. rewrite H, fromhex_hex in Ha.
  injection Ha as Ha. symmetry. exact Ha.
Qed.

Lemma hex_truthy (b : bytes) : b <> [] -> Py.truthy (Py.hex b) = true.
Proof. destruct b; [contradiction | reflexivity]. Qed.

(** X1. The key under which [get_actor_info] shows an actor (the [hex] of
    its id), given back as [actor_id] to the kill endpoint, makes the handler
    send exactly one [KillActorViaGcs] request, with the time limit 5, that
    carries the bytes of that actor's id; the response is the success
    envelope when the registry answers and the registry's error otherwise. *)
Theorem kill_reaches_listed_actor
    (stub : KillActorViaGcsRequest -> Z -> result unit)
    (q : query) (entry : ActorTableData) :
  ActorTable.actor_id entry <> [] ->
  query_get "actor_id" q = Some (Py.hex (ActorTable.actor_id entry)) ->
  exists request,
    kill_actor_id request = ActorTable.actor_id entry
    /\ fst (kill_actor_gcs stub q) = [(request, 5)]
    /\ snd (kill_actor_gcs stub q)
       = match stub request 5 with
         | Ok _ =>
             Ok {| success := true;
                   message :=
                     kill_message (kill_force_kill request)
                       (Py.hex (ActorTable.actor_id entry));
                   payload := tt |}
         | Raise e => Raise e
         end.
Proof.
  intros Hne Hq. unfold kill_actor_gcs. rewrite Hq.
  pose proof (hex_truthy _ Hne) as Htruthy.
  destruct (Py.hex (ActorTable.actor_id entry)) as [|c rest] eqn:Hhex;
    [discriminate|].
  rewrite <- Hhex, fromhex_hex.
  eexists. split; [|split; [reflexivity|]]; [reflexivity|].
  simpl. destruct (stub _ 5) as [[]|]; reflexivity.
Qed.

Lemma kill_reaches_listed_actor_witness :
  exists request,
    kill_actor_id request = [xa1]
    /\ fst (kill_actor_gcs (fun _ _ => Ok tt)
              [("actor_id", "a1"); ("force_kill", "true")])
       = [(request, 5)]
    /\ snd (kill_actor_gcs (fun _ _ => Ok tt)
              [("actor_id", "a1"); ("force_kill", "true")])
       = Ok {| success := true;
               message := "Force killed actor with id a1";
               payload := tt |}.
Proof.
  destruct (kill_reaches_listed_actor (fun _ _ => Ok tt)
              [("actor_id", "a1"); ("force_kill", "true")]
              (example_actor xa1 "replica"))
    as (request & Hid & Hcalls & Hresp).
  - discriminate.
  - reflexivity.
  - exists request. split; [exact Hid|]. split; [exact Hcalls|].
    rewrite Hresp. simpl in Hcalls. injection Hcalls as <-. reflexivity.
Defined.

Lemma fromhex_chars_invalid (n : nat) (s : list ascii) (c : ascii) :
  (List.length s <= n)%nat ->
  In c s -> Py.hex_value c = None -> Py.ascii_space c = false ->
  Py.fromhex_chars s = Raise ValueError.
Proof.
  revert s. induction n as [|n IH]; intros s Hlen Hin Hhex Hspace.
  - destruct s; [destruct Hin | simpl in Hlen; lia].
  - destruct s as [|c0 s]; [destruct Hin|]. simpl in Hlen.
    cbn [Py.fromhex_chars].
    destruct (Py.ascii_space c0) eqn:Hs0.
    + apply IH; [lia | | exact Hhex | exact Hspace].
      destruct Hin as [->|Hin]; [congruence | exact Hin].
    + destruct (Py.hex_value c0) as [hi|] eqn:Hh0; [|reflexivity].
      destruct s as [|c2 s]; [reflexivity|].
      destruct (Py.hex_value c2) as [lo|] eqn:Hh2; [|reflexivity].
      rewrite (IH s); [reflexivity | simpl in Hlen; lia | | exact Hhex
                      | exact Hspace].
      destruct Hin as [->|[->|Hin]]; [congruence | congruence | exact Hin].
Qed.

(** X2. An [actor_id] that holds a character which is neither a hexadecimal
    digit nor ASCII white space makes the handler raise [ValueError] before
    anything is sent to the actor registry. *)
Theorem kill_invalid_actor_id
    (stub : KillActorViaGcsRequest -> Z -> result unit)
    (q : query) (actor_id : string) (c : ascii) :
  query_get "actor_id" q = Some actor_id ->
  In c (list_ascii_of_string actor_id) ->
  Py.hex_value c = None -> Py.ascii_space c = false ->
  kill_actor_gcs stub q = ([], Raise ValueError).
Proof.
  intros Hq Hin Hhex Hspace. unfold kill_actor_gcs. rewrite Hq.
  destruct actor_id as [|c0 rest]; [destruct Hin|].
  unfold Py.fromhex.
  rewrite (fromhex_chars_invalid _ _ c (Nat.le_refl _) Hin Hhex Hspace).
  reflexivity.
Qed.

Lemma kill_invalid_actor_id_witness :
  kill_actor_gcs (fun _ _ => Ok tt) [("actor_id", "a1zz")]
  = ([], Raise ValueError).
Proof.
  apply (kill_invalid_actor_id (fun _ _ => Ok tt) [("actor_id", "a1zz")]
           "a1zz" "z"%char).
  - reflexivity.
  - simpl. right. right. left. reflexivity.
  - reflexivity.
  - reflexivity.
Defined.

Lemma fromhex_blank (s : string) :
  Py.all_chars Py.ascii_space s = true -> Py.fromhex s = Ok [].
Proof.
  unfold Py.fromhex. induction s as [|c s IH]; [reflexivity|].
  simpl. intros H. apply andb_true_iff in H. destruct H as [-> Hs]. auto.
Qed.

(** X3. An [actor_id] made of ASCII white space alone, and not empty,
    passes the test of presence: a kill request with an empty actor id is
    sent to the actor registry. *)
Theorem kill_blank_actor_id
    (stub : KillActorViaGcsRequest -> Z -> result unit)
    (q : query) (actor_id : string) :
  query_get "actor_id" q = Some actor_id ->
  Py.truthy actor_id = true ->
  Py.all_chars Py.ascii_space actor_id = true ->
  fst (kill_actor_gcs stub q)
  = [({| kill_actor_id := [];
         kill_force_kill := in_true_True (query_get "force_kill" q);
         kill_no_restart := in_true_True (query_get "no_restart" q) |}, 5)].
Proof.
  intros Hq Hne Hblank. unfold kill_actor_gcs. rewrite Hq.
  destruct actor_id as [|c rest]; [discriminate|].
  rewrite (fromhex_blank _ Hblank). reflexivity.
Qed.

Lemma kill_blank_actor_id_witness :
  fst (kill_actor_gcs (fun _ _ => Ok tt) [("actor_id", " ")])
  = [({| kill_actor_id := []; kill_force_kill := false;
         kill_no_restart := false |}, 5)].
Proof.
  apply (kill_blank_actor_id (fun _ _ => Ok tt) [("actor_id", " ")] " ");
    reflexivity.
Defined.

(** ** The activity endpoint: every outcome of the timeout *)

Lemma digit_char_facts (c : ascii) :
  Py.isdigit_char c = true ->
  Py.isspace_char c = false
  /\ (Py.code c =? 43)%N = false /\ (Py.code c =? 45)%N = false
  /\ (is_decimal c = true
      \/ (is_decimal c = false /\ Py.decimal_value c = None
          /\ (Py.code c =? 95)%N = false)).
Proof.
  destruct c as [[] [] [] [] [] [] [] []]; vm_compute; intros H;
    try discriminate H; repeat split; auto.
Qed.

Lemma strip_no_space (s : list ascii) :
  Forall (fun c => Py.isspace_char c = false) s -> Py.strip s = s.
Proof.
  assert (Hl : forall l, Forall (fun c => Py.isspace_char c = false) l ->
                         Py.lstrip l = l).
  { intros l [|c l' Hc _]; simpl; [reflexivity | rewrite Hc; reflexivity]. }
  intros H. unfold Py.strip. rewrite (Hl s H), Hl; [apply rev_involutive|].
  apply Forall_rev. exact H.
Qed.

Lemma all_chars_Forall (p : ascii -> bool) (s : string) :
  Py.all_chars p s = true <->
  Forall (fun c => p c = true) (list_ascii_of_string s).
Proof.
  induction s as [|c s IH]; simpl.
  - split; auto.
  - rewrite andb_true_iff, Forall_cons_iff, IH. reflexivity.
Qed.

Lemma int_digits_superscript (s : list ascii) (acc : Z) (prev : bool) :
  Forall (fun c => Py.isdigit_char c = true) s ->
  forallb is_decimal s = false ->
  Py.int_digits acc prev s = None.
Proof.
  intros H. revert acc prev.
  induction H as [|c s Hc _ IH]; intros acc prev Hnot; [discriminate|].
  simpl in Hnot. cbn [Py.int_digits].
  destruct (digit_char_facts c Hc) as (_ & _ & _ & [Hd | (Hd & -> & ->)]).
  - rewrite Hd in Hnot. simpl in Hnot.
    unfold is_decimal in Hd.
    destruct (Py.decimal_value c); [|discriminate]. apply IH, Hnot.
  - reflexivity.
Qed.

Lemma all_chars_forallb (p : ascii -> bool) (s : string) :
  Py.all_chars p s = forallb p (list_ascii_of_string s).
Proof. induction s as [|c s IH]; simpl; [|rewrite IH]; reflexivity. Qed.

(** [int] raises on a string that [isdigit] accepts and that holds a
    character which is no decimal digit. *)
Lemma int_superscript (s : string) :
  Py.isdigit s = true -> Py.all_chars is_decimal s = false ->
  Py.int s = Raise ValueError.
Proof.
  intros Hdigit Hnot.
  assert (Hall : Forall (fun c => Py.isdigit_char c = true)
                   (list_ascii_of_string s)).
  { apply all_chars_Forall. destruct s; [discriminate | exact Hdigit]. }
  unfold Py.int. rewrite strip_no_space.
  2:{ eapply Forall_impl; [exact Hall|].
      intros c Hc. apply (digit_char_facts c Hc). }
  rewrite all_chars_forallb in Hnot.
  destruct (list_ascii_of_string s) as [|c l] eqn:Hs; [discriminate|].
  inversion Hall as [|? ? Hc _]; subst.
  destruct (digit_char_facts c Hc) as (_ & -> & -> & _).
  rewrite (int_digits_superscript _ 0 false Hall Hnot). reflexivity.
Qed.

(** The outcomes of the timeout, by the parameter. *)
Lemma parse_timeout_outcomes (q : query) :
  match query_get "timeout" q with
  | None => parse_timeout q = Ok 5
  | Some s =>
      if Py.isdigit s
      then if Py.all_chars is_decimal s
           then if Py.int_max_str_digits <? Z.of_nat (String.length s)
                then parse_timeout q = Raise ValueError
                else parse_timeout q
                     = Ok (decimal_number 0 (list_ascii_of_string s))
           else parse_timeout q = Raise ValueError
      else parse_timeout q = Ok 5
  end.
Proof.
  destruct (query_get "timeout" q) as [s|] eqn:Hq.
  - destruct (Py.isdigit s) eqn:Hdigit.
    + assert (Hne : Py.truthy s = true)
        by (destruct s; [discriminate | reflexivity]).
      destruct (Py.all_chars is_decimal s) eqn:Hdec.
      * pose proof (int_decimal_cases s Hne Hdec) as Hint.
        unfold parse_timeout. rewrite Hq, Hne, Hdigit. simpl.
        destruct (Py.int_max_str_digits <? Z.of_nat (String.length s));
          exact Hint.
      * unfold parse_timeout. rewrite Hq, Hne, Hdigit. simpl.
        apply (int_superscript s Hdigit Hdec).
    + apply parse_timeout_default. right. exists s. auto.
  - apply parse_timeout_default. left. exact Hq.
Qed.

(** X4. The activity handler issues no job fetch exactly when the [timeout]
    parameter passes [isdigit] and [int] refuses it: it holds a character
    that is no decimal digit (a superscript digit), or it has more digits
    than [int] accepts (4300); the handler then raises [ValueError].  For
    every other request exactly one job fetch is issued. *)
Theorem activity_fails_iff_int_refuses
    (prefix : string) (GetAllJobInfo : Z -> result (list JobTableData))
    (now : float64) (q : query) :
  (fst (get_component_activities prefix GetAllJobInfo now q) = []
   <-> exists s, query_get "timeout" q = Some s
                 /\ Py.isdigit s = true
                 /\ (Py.all_chars is_decimal s = false
                     \/ Py.int_max_str_digits < Z.of_nat (String.length s)))
  /\ (fst (get_component_activities prefix GetAllJobInfo now q) = []
      /\ snd (get_component_activities prefix GetAllJobInfo now q)
         = Raise ValueError
      \/ exists timeout,
           fst (get_component_activities prefix GetAllJobInfo now q)
           = [timeout]).
Proof.
  pose proof (parse_timeout_outcomes q) as H.
  unfold get_component_activities.
  destruct (query_get "timeout" q) as [s|].
  - destruct (Py.isdigit s) eqn:Hdigit.
    + destruct (Py.all_chars is_decimal s) eqn:Hdec.
      * destruct (Z.ltb_spec Py.int_max_str_digits
                    (Z.of_nat (String.length s))) as [Hlong|Hshort];
          rewrite H.
        -- split; [|left; split; reflexivity].
           split; [|reflexivity]. intros _. exists s. auto.
        -- split; [|right; eexists; reflexivity].
           split; [discriminate|].
           intros (s' & Hs' & _ & [Hdec'|Hlong]); injection Hs' as <-;
             [congruence | lia].
      * rewrite H. split; [|left; split; reflexivity].
        split; [|reflexivity]. intros _. exists s. auto.
    + rewrite H. split; [|right; eexists; reflexivity].
      split; [discriminate|].
      intros (s' & Hs' & Hdigit' & _). injection Hs' as <-. congruence.
  - rewrite H. split; [|right; eexists; reflexivity].
    split; [discriminate | intros (s' & Hs' & _); discriminate].
Qed.

(** The request with a [timeout] of 4301 digits: [isdigit] accepts it and
    [int] refuses it. *)
Lemma long_timeout_raises
    (prefix : string) (GetAllJobInfo : Z -> result (list JobTableData))
    (now : float64) :
  get_component_activities prefix GetAllJobInfo now
    [("timeout", long_timeout)]
  = ([], Raise ValueError).
Proof.
  unfold get_component_activities.
  assert (H : parse_timeout [("timeout", long_timeout)] = Raise ValueError)
    by (vm_compute; reflexivity).
  rewrite H. reflexivity.
Qed.

Lemma decimal_number_nonneg (s : list ascii) (acc : Z) :
  0 <= acc -> 0 <= decimal_number acc s.
Proof.
  revert acc. induction s as [|c s IH]; intros acc Hacc; simpl; [exact Hacc|].
  apply IH. unfold Py.decimal_value.
  destruct ((48 <=? Py.code c)%N && (Py.code c <=? 57)%N) eqn:E; [|lia].
  apply andb_true_iff in E. destruct E as [E _].
  apply N.leb_le in E. lia.
Qed.

(** X5. A [timeout] parameter that is a non-empty string of ASCII decimal
    digits, of no more digits than [int] accepts (4300), is passed to the job
    fetch as the number it denotes, leading zeros included; and whatever the
    request, the time limit passed to a job fetch is never negative. *)
Theorem activity_timeout_value
    (prefix : string) (GetAllJobInfo : Z -> result (list JobTableData))
    (now : float64) (q : query) :
  (forall s,
      query_get "timeout" q = Some s ->
      Py.truthy s = true -> Py.all_chars is_decimal s = true ->
      Z.of_nat (String.length s) <= Py.int_max_str_digits ->
      get_component_activities prefix GetAllJobInfo now q
      = _get_job_activity_info prefix GetAllJobInfo now
          (decimal_number 0 (list_ascii_of_string s)))
  /\ (forall timeout,
        In timeout (fst (get_component_activities prefix GetAllJobInfo now q))
        -> 0 <= timeout).
Proof.
  split.
  - intros s Hq Hne Hdec Hlen. unfold get_component_activities.
    rewrite (parse_timeout_decimal q s Hq Hne Hdec Hlen). reflexivity.
  - intros timeout. pose proof (parse_timeout_outcomes q) as H.
    unfold get_component_activities.
    destruct (query_get "timeout" q) as [s|].
    + destruct (Py.isdigit s).
      * destruct (Py.all_chars is_decimal s).
        -- destruct (Py.int_max_str_digits <? Z.of_nat (String.length s));
             rewrite H.
           ++ intros [].
           ++ intros [<-|[]]. apply decimal_number_nonneg. lia.
        -- rewrite H. intros [].
      * rewrite H. intros [<-|[]]. lia.
    + rewrite H. intros [<-|[]]. lia.
Qed.

Lemma activity_timeout_value_witness :
  get_component_activities "_ray_internal_job_info_"
    (fun _ => Ok example_jobs) 0 [("timeout", "007")]
  = _get_job_activity_info "_ray_internal_job_info_"
      (fun _ => Ok example_jobs) 0 7.
Proof.
  apply (proj1 (activity_timeout_value "_ray_internal_job_info_"
                  (fun _ => Ok example_jobs) 0 [("timeout", "007")]) "007");
    try reflexivity.
  discriminate.
Defined.

Lemma filter_length_Permutation {A} (f : A -> bool) (l l' : list A) :
  Permutation l l' ->
  List.length (List.filter f l) = List.length (List.filter f l').
Proof.
  induction 1 as [|x l l' _ IH|x y l|l l' l'' _ IH1 _ IH2]; simpl.
  - reflexivity.
  - destruct (f x); simpl; congruence.
  - destruct (f x), (f y); reflexivity.
  - congruence.
Qed.

(** X6. The answer of the activity classifier does not depend on the order
    in which the job fetch lists the jobs. *)
Theorem activity_ignores_job_order
    (prefix : string) (now : float64) (timeout : Z)
    (fetch fetch' : Z -> result (list JobTableData))
    (J J' : list JobTableData) :
  fetch timeout = Ok J -> fetch' timeout = Ok J' -> Permutation J J' ->
  _get_job_activity_info prefix fetch now timeout
  = _get_job_activity_info prefix fetch' now timeout.
Proof.
  intros HJ HJ' Hperm. unfold _get_job_activity_info. rewrite HJ, HJ'.
  simpl. unfold classify. rewrite !count_driver_fold.
  rewrite (filter_length_Permutation _ J J' Hperm). reflexivity.
Qed.

Lemma activity_ignores_job_order_witness :
  _get_job_activity_info "_ray_internal_job_info_"
    (fun _ => Ok example_jobs) 0 5
  = _get_job_activity_info "_ray_internal_job_info_"
      (fun _ => Ok (rev example_jobs)) 0 5.
Proof.
  apply (activity_ignores_job_order "_ray_internal_job_info_" 0 5
           (fun _ => Ok example_jobs) (fun _ => Ok (rev example_jobs))
           example_jobs (rev example_jobs) eq_refl eq_refl).
  apply Permutation_rev.
Defined.

(** ** The snapshot endpoint: the response *)

Section SnapshotResponse.

Context {J S A D N : Type}.

(** X7. The snapshot request returns a response exactly when the five
    fetches all return, whatever the instants at which they complete; the
    response is then the success envelope with the message [hello], and its
    snapshot is made of the five values returned and of the version and
    commit. *)
Theorem snapshot_succeeds_iff
    (version commit : string)
    (job_info : completed J) (job_submission : completed S)
    (actor_info : completed A) (serve_info : completed D)
    (session : completed N) (r : rest_response snapshot_body) :
  snapshot version commit job_info job_submission actor_info serve_info
    session = Ok r
  <-> exists j s a d n,
        snd job_info = Ok j /\ snd job_submission = Ok s
        /\ snd actor_info = Ok a /\ snd serve_info = Ok d
        /\ snd session = Ok n
        /\ r = {| success := true;
                  message := "hello";
                  payload := {| jobs := j; job_submission := s;
                                actors := a; deployments := d;
                                session_name := n;
                                ray_version := version;
                                ray_commit := commit |} |}.
Proof.
  unfold snapshot. split.
  - pose proof (earlier_fold_spec
                  [failure job_info; failure job_submission;
                   failure actor_info; failure serve_info; failure session]
                  None) as H.
    unfold first_failure.
    destruct (fold_left earlier _ None) as [[t e]|]; [discriminate|].
    destruct H as [_ Hall].
    destruct job_info as [t1 [j|]], job_submission as [t2 [s|]],
      actor_info as [t3 [a|]], serve_info as [t4 [d|]],
      session as [t5 [n|]];
      repeat match goal with
             | H : Forall _ (_ :: _) |- _ =>
                 let H1 := fresh in let H2 := fresh in
                 apply Forall_cons_iff in H; destruct H as [H1 H2];
                 try discriminate H1
             end.
    simpl. intros Hr. injection Hr as <-.
    exists j, s, a, d, n. repeat split.
  - intros (j & s & a & d & n & Hj & Hs & Ha & Hd & Hn & ->).
    destruct job_info as [t1 rj], job_submission as [t2 rs],
      actor_info as [t3 ra], serve_info as [t4 rd], session as [t5 rn].
    simpl in Hj, Hs, Ha, Hd, Hn. subst. reflexivity.
Qed.

End SnapshotResponse.

(** ** The deployment snapshot resolver: what it reads and what it returns *)

Lemma mapM_result_ext {A B} (f g : A -> result B) (l : list A) :
  (forall x, In x l -> f x = g x) -> mapM f l = mapM g l.
Proof.
  induction l as [|x l IH]; intros H; [reflexivity|].
  rewrite !mapM_result_cons, (H x (or_introl eq_refl)), IH; [reflexivity|].
  intros y Hy. apply H. right. exact Hy.
Qed.

Lemma snapshot_keys_In (c : serve_constants) (ks : list bytes) (key : bytes) :
  In key (snapshot_keys c ks)
  <-> Py.contains (BytesRepr.repr key) (SERVE_SNAPSHOT_KEY c) = true
      /\ In key ks.
Proof.
  unfold snapshot_keys.
  rewrite <- !list_elem_of_In, list_elem_of_filter, Is_true_true.
  reflexivity.
Qed.

Lemma merge_from_app_dicts (dicts : list (list (string * json)))
    (rest : list json) (acc : dict json) :
  merge_from acc (map JDict dicts ++ rest)
  = merge_from (dict_of_items (fun k => k) (concat dicts) acc) rest.
Proof.
  revert acc. induction dicts as [|d dicts IH]; intros acc; simpl.
  - reflexivity.
  - rewrite IH. unfold dict_of_items. rewrite fold_left_app. reflexivity.
Qed.

Lemma merge_from_Ok_inv (js : list json) (acc merged : dict json) :
  merge_from acc js = Ok merged ->
  exists dicts,
    js = map JDict dicts
    /\ merged = dict_of_items (fun k => k) (concat dicts) acc.
Proof.
  revert acc. induction js as [|j js IH]; intros acc H; simpl in H.
  - injection H as <-. exists []. split; reflexivity.
  - destruct j as [| | | | | |d]; try discriminate H. simpl in H.
    destruct (IH _ H) as (dicts & -> & ->).
    exists (d :: dicts). split; [reflexivity|].
    simpl. unfold dict_of_items. rewrite fold_left_app. reflexivity.
Qed.

Section ResolverReads.

Variable utf8_decode : bytes -> result string.
Variable json_loads : string -> result json.
Variable sha1_hexdigest : string -> string.

Local Abbreviation resolve :=
  (get_serve_info utf8_decode json_loads sha1_hexdigest).

Lemma merge_from_non_object (js : list json) (j : json) (acc : dict json) :
  In j js -> (forall d, j <> JDict d) ->
  merge_from acc js = Raise AttributeError.
Proof.
  intros Hin Hj. revert acc. induction js as [|j0 js IH]; intros acc;
    [destruct Hin|].
  simpl. destruct j0 as [| | | | | |d0]; try reflexivity. simpl.
  destruct Hin as [<-|Hin]; [destruct (Hj d0 eq_refl) | apply IH, Hin].
Qed.

(** X8. The resolver decodes every snapshot value before it merges any of
    them.  When every snapshot value is well-formed JSON and one of them is
    no object (a list, a string, a number), that value is not taken as an
    empty mapping: the resolver raises [AttributeError].  A value that does
    not load makes the resolver raise its error when the values before it
    load, also when one of those is no object. *)
Theorem non_object_snapshot_raises
    (kv : kv_store) (c : serve_constants) (ks : list bytes) :
  _internal_kv_list kv (SERVE_CONTROLLER_NAME c) = Ok ks ->
  (forall js j,
      Forall2 (fun key v =>
                 load_snapshot utf8_decode json_loads kv key = Ok v)
              (snapshot_keys c ks) js ->
      In j js -> (forall d, j <> JDict d) ->
      resolve (Some c) kv = Raise AttributeError)
  /\ (forall pre key post e,
        snapshot_keys c ks = pre ++ key :: post ->
        (forall k, In k pre ->
           exists v, load_snapshot utf8_decode json_loads kv k = Ok v) ->
        load_snapshot utf8_decode json_loads kv key = Raise e ->
        resolve (Some c) kv = Raise e).
Proof.
  intros Hks. split.
  - intros js j Hload Hin Hj. simpl. unfold get_deployments.
    rewrite Hks. simpl. rewrite (mapM_result_Ok _ _ _ Hload). simpl.
    rewrite (merge_from_non_object js j [] Hin Hj). reflexivity.
  - intros pre key post e Hsplit Hpre He. simpl. unfold get_deployments.
    rewrite Hks. simpl. rewrite Hsplit.
    rewrite (mapM_result_Raise _ pre key post e Hpre He). reflexivity.
Qed.

(** X9. The resolver reads the value of no key other than those whose
    [str] holds [SERVE_SNAPSHOT_KEY]: two stores that list the same keys
    under the controller name and agree on the values of those keys are
    resolved alike, whatever their other values. *)
Theorem resolver_reads_snapshot_keys_only
    (kv kv' : kv_store) (c : serve_constants) :
  _internal_kv_list kv (SERVE_CONTROLLER_NAME c)
  = _internal_kv_list kv' (SERVE_CONTROLLER_NAME c) ->
  (forall key,
      Py.contains (BytesRepr.repr key) (SERVE_SNAPSHOT_KEY c) = true ->
      _internal_kv_get kv key = _internal_kv_get kv' key) ->
  resolve (Some c) kv = resolve (Some c) kv'.
Proof.
  intros Hlist Hget. simpl. unfold get_deployments. rewrite <- Hlist.
  destruct (_internal_kv_list kv (SERVE_CONTROLLER_NAME c)) as [ks|];
    [|reflexivity].
  simpl.
  rewrite (mapM_result_ext (load_snapshot utf8_decode json_loads kv)
             (load_snapshot utf8_decode json_loads kv')); [reflexivity|].
  intros key Hkey. apply snapshot_keys_In in Hkey. destruct Hkey as [Hkey _].
  unfold load_snapshot. rewrite (Hget key Hkey). reflexivity.
Qed.

Lemma get_deployments_Ok_inv (kv : kv_store) (c : serve_constants)
    (ks : list bytes) (r : dict json) :
  _internal_kv_list kv (SERVE_CONTROLLER_NAME c) = Ok ks ->
  resolve (Some c) kv = Ok r ->
  exists dicts,
    Forall2 (fun key d =>
               load_snapshot utf8_decode json_loads kv key = Ok (JDict d))
            (snapshot_keys c ks) dicts
    /\ r = rehash sha1_hexdigest
             (dict_of_items (fun k => k) (concat dicts) []).
Proof.
  intros Hks. simpl. unfold get_deployments. rewrite Hks. simpl.
  intros H. apply bind_Ok_inv in H. destruct H as (js & Hjs & H).
  apply bind_Ok_inv in H. destruct H as (merged & Hmerged & H).
  injection H as <-.
  apply mapM_result_inv in Hjs.
  destruct (merge_from_Ok_inv _ _ _ Hmerged) as (dicts & -> & ->).
  exists dicts. split; [|reflexivity].
  clear Hmerged. revert Hjs. generalize (snapshot_keys c ks).
  induction dicts as [|d dicts IH]; intros keys H; inversion H; subst;
    constructor; auto.
Qed.

End ResolverReads.

Lemma dict_of_items_get_inv {V} (key : string -> string) (h : string)
    (items : list (string * V)) (acc : dict V) (v : V) :
  dict_get h (dict_of_items key items acc) = Some v ->
  (exists k, In (k, v) items /\ key k = h) \/ dict_get h acc = Some v.
Proof.
  rewrite dict_get_of_items. unfold last_binding.
  destruct (dict_get h (rev (map (fun kv => (key (fst kv), snd kv)) items)))
    as [v'|] eqn:E; [|auto].
  intros H. injection H as ->. left.
  apply dict_get_In, in_rev, in_map_iff in E.
  destruct E as ([k v'] & Hkv & Hin). simpl in Hkv. injection Hkv as <- <-.
  exists k. split; [exact Hin | reflexivity].
Qed.

Lemma dict_get_Some_keys {V} (k : string) (d : dict V) :
  In k (map fst d) -> exists v, dict_get k d = Some v.
Proof.
  intros H. destruct (dict_get k d) as [v|] eqn:E; [exists v; reflexivity|].
  apply dict_get_None_keys in E. contradiction.
Qed.

Lemma dict_of_items_mem {V} (key : string -> string) (k : string)
    (items : list (string * V)) (acc : dict V) :
  In k (map fst items) ->
  dict_mem (key k) (dict_of_items key items acc) = true.
Proof.
  intros H. unfold dict_mem. rewrite dict_get_of_items. unfold last_binding.
  destruct (dict_get_Some_keys (key k)
              (rev (map (fun kv => (key (fst kv), snd kv)) items)))
    as [v ->]; [|reflexivity].
  rewrite <- map_rev, List.map_map. simpl.
  apply in_map_iff in H. destruct H as (kv & <- & Hkv).
  apply in_map_iff. exists kv. split; [reflexivity|].
  apply in_rev. rewrite rev_involutive. exact Hkv.
Qed.

Lemma dict_get_NoDup_In {V} (k : string) (v : V) (d : dict V) :
  List.NoDup (map fst d) -> In (k, v) d -> dict_get k d = Some v.
Proof.
  induction d as [|[k0 v0] d IH]; intros Hnd Hin; [destruct Hin|].
  simpl in *. inversion Hnd as [|? ? Hnotin Hd]; subst.
  destruct Hin as [Heq|Hin].
  - injection Heq as -> ->. rewrite String.eqb_refl. reflexivity.
  - destruct (String.eqb_spec k0 k) as [->|_]; [|apply IH; assumption].
    destruct Hnotin. apply in_map_iff. exists (k, v). split; [reflexivity|].
    exact Hin.
Qed.

Lemma Forall2_In_r {A B} (R : A -> B -> Prop) (l : list A) (l' : list B)
    (y : B) :
  Forall2 R l l' -> In y l' -> exists x, In x l /\ R x y.
Proof.
  induction 1 as [|x y' l l' Hxy _ IH]; intros Hin; [destruct Hin|].
  destruct Hin as [->|Hin].
  - exists x. split; [left; reflexivity | exact Hxy].
  - destruct (IH Hin) as (x' & Hx' & HR). exists x'. split; [right|]; auto.
Qed.

Lemma Forall2_In_l {A B} (R : A -> B -> Prop) (l : list A) (l' : list B)
    (x : A) :
  Forall2 R l l' -> In x l -> exists y, In y l' /\ R x y.
Proof.
  induction 1 as [|x' y l l' Hxy _ IH]; intros Hin; [destruct Hin|].
  destruct Hin as [->|Hin].
  - exists y. split; [left; reflexivity | exact Hxy].
  - destruct (IH Hin) as (y' & Hy' & HR). exists y'. split; [right|]; auto.
Qed.

(** X10. What the resolver returns holds nothing but the deployments of
    the snapshots, and all of them: its keys are distinct, every value is the
    information that some snapshot key gives for a deployment name, found
    under the digest of that name, and the digest of every name defined by a
    snapshot key is a key of the result. *)
Theorem resolver_result_keys
    (utf8_decode : bytes -> result string)
    (json_loads : string -> result json)
    (sha1_hexdigest : string -> string)
    (kv : kv_store) (c : serve_constants) (ks : list bytes)
    (r : dict json) :
  _internal_kv_list kv (SERVE_CONTROLLER_NAME c) = Ok ks ->
  get_serve_info utf8_decode json_loads sha1_hexdigest (Some c) kv = Ok r ->
  List.NoDup (map fst r)
  /\ (forall digest info,
        dict_get digest r = Some info ->
        exists key d name,
          In key (snapshot_keys c ks)
          /\ load_snapshot utf8_decode json_loads kv key = Ok (JDict d)
          /\ In (name, info) d
          /\ digest = sha1_hexdigest name)
  /\ (forall key d name,
        In key (snapshot_keys c ks) ->
        load_snapshot utf8_decode json_loads kv key = Ok (JDict d) ->
        In name (map fst d) ->
        dict_mem (sha1_hexdigest name) r = true).
Proof.
  intros Hks Hr.
  destruct (get_deployments_Ok_inv _ _ _ kv c ks r Hks Hr)
    as (dicts & Hload & ->).
  set (merged := dict_of_items (fun k => k) (concat dicts) []).
  assert (Hnd : List.NoDup (map fst merged)).
  { apply dict_of_items_NoDup. constructor. }
  split; [|split].
  - apply dict_of_items_NoDup. constructor.
  - intros digest info Hget. unfold rehash in Hget.
    apply dict_of_items_get_inv in Hget.
    destruct Hget as [(name & Hin & <-) | H]; [|discriminate H].
    apply (dict_get_NoDup_In _ _ _ Hnd) in Hin. unfold merged in Hin.
    apply dict_of_items_get_inv in Hin.
    destruct Hin as [(name' & Hin & <-) | H]; [|discriminate H].
    apply in_concat in Hin. destruct Hin as (d & Hd & Hin).
    destruct (Forall2_In_r _ _ _ d Hload Hd) as (key & Hkey & Hk).
    exists key, d, name'. auto.
  - intros key d name Hkey Hk Hname.
    destruct (Forall2_In_l _ _ _ key Hload Hkey) as (d' & Hd' & Hk').
    rewrite Hk in Hk'. injection Hk' as <-.
    unfold rehash. apply dict_of_items_mem.
    assert (Hm : dict_mem name merged = true).
    { apply (dict_of_items_mem (fun k => k)).
      apply in_map_iff in Hname. destruct Hname as (kv0 & <- & Hkv0).
      apply in_map_iff. exists kv0. split; [reflexivity|].
      apply in_concat. exists d. auto. }
    unfold dict_mem in Hm.
    destruct (dict_get name merged) as [v|] eqn:E; [|discriminate].
    apply dict_get_In in E. apply in_map_iff. exists (name, v). auto.
Qed.

Lemma non_object_snapshot_raises_witness :
  get_serve_info JsonText.decode JsonText.loads JsonText.digest
    (Some serve_constants_example) list_valued_store
  = Raise AttributeError
  /\ get_serve_info JsonText.decode JsonText.loads JsonText.digest
       (Some serve_constants_example) list_then_malformed_store
     = Raise JSONDecodeError.
Proof.
  split.
  - apply (proj1 (non_object_snapshot_raises JsonText.decode JsonText.loads
                    JsonText.digest list_valued_store
                    serve_constants_example
                    [list_byte_of_string
                       "SERVE_CONTROLLER_ACTOR:serve-deployments-snapshot"]
                    eq_refl)
             [JList [JInt 1]] (JList [JInt 1])).
    + assert (Hkeys :
                snapshot_keys serve_constants_example
                  [list_byte_of_string
                     "SERVE_CONTROLLER_ACTOR:serve-deployments-snapshot"]
                = [list_byte_of_string
                     "SERVE_CONTROLLER_ACTOR:serve-deployments-snapshot"])
        by (vm_compute; reflexivity).
      rewrite Hkeys. constructor; [vm_compute; reflexivity | constructor].
    + left. reflexivity.
    + discriminate.
  - apply (proj2 (non_object_snapshot_raises JsonText.decode JsonText.loads
                    JsonText.digest list_then_malformed_store
                    serve_constants_example [key_a; key_b] eq_refl)
             [key_a] key_b [] JSONDecodeError).
    + vm_compute. reflexivity.
    + intros k [<-|[]]. exists (JList [JInt 1]). vm_compute. reflexivity.
    + vm_compute. reflexivity.
Defined.

Lemma resolver_reads_snapshot_keys_only_witness :
  get_serve_info JsonText.decode JsonText.loads JsonText.digest
    (Some serve_constants_example) (checkpoint_store (Some "["))
  = get_serve_info JsonText.decode JsonText.loads JsonText.digest
      (Some serve_constants_example) (checkpoint_store None).
Proof.
  apply (resolver_reads_snapshot_keys_only JsonText.decode JsonText.loads
           JsonText.digest (checkpoint_store (Some "["))
           (checkpoint_store None) serve_constants_example).
  - reflexivity.
  - intros key Hkey. unfold checkpoint_store, table_store.
    cbn [_internal_kv_get dict_get]. f_equal.
    destruct (String.eqb
                "SERVE_CONTROLLER_ACTOR:a:serve-deployments-snapshot"
                (string_of_list_byte key)); [reflexivity|].
    destruct (String.eqb_spec "SERVE_CONTROLLER_ACTOR:checkpoint"
                (string_of_list_byte key)) as [Heq|_]; [|reflexivity].
    apply (f_equal list_byte_of_string) in Heq.
    rewrite list_byte_of_string_of_list_byte in Heq. subst key.
    vm_compute in Hkey. discriminate Hkey.
Defined.

Lemma resolver_result_keys_witness :
  List.NoDup ["sha1:svc"; "sha1:other"]
  /\ dict_mem "sha1:other" [("sha1:svc", JInt 2); ("sha1:other", JInt 3)]
     = true.
Proof.
  destruct (resolver_result_keys JsonText.decode JsonText.loads
              JsonText.digest two_controllers_store serve_constants_example
              [key_a; key_b; key_c]
              [("sha1:svc", JInt 2); ("sha1:other", JInt 3)])
    as (Hnd & _ & Hall).
  - reflexivity.
  - vm_compute. reflexivity.
  - split; [exact Hnd|].
    apply (Hall key_c [("other", JInt 3)] "other").
    + apply snapshot_keys_In. split; [vm_compute; reflexivity|].
      right. right. left. reflexivity.
    + vm_compute. reflexivity.
    + left. reflexivity.
Defined.

(** ** The snapshot keys the resolver selects *)

Lemma startswith_app (t s b : string) :
  Py.startswith t s = true -> Py.startswith (t ++ b) s = true.
Proof.
  revert t. induction s as [|c s IH]; intros t.
  - intros _. destruct t; simpl; [destruct b|]; reflexivity.
  - destruct t as [|c' t]; simpl; [discriminate|].
    rewrite !andb_true_iff. intros [-> H]. split; [reflexivity | apply IH, H].
Qed.

Lemma contains_app_r (t s b : string) :
  Py.contains t s = true -> Py.contains (t ++ b) s = true.
Proof.
  induction t as [|c t IH]; simpl.
  - rewrite orb_false_r. intros H. destruct s; [|discriminate H].
    destruct b; reflexivity.
  - rewrite !orb_true_iff. intros [H|H].
    + left. apply (startswith_app (String c t) s b H).
    + right. apply IH, H.
Qed.

Lemma contains_app_l (a t s : string) :
  Py.contains t s = true -> Py.contains (a ++ t) s = true.
Proof.
  intros H. induction a as [|c a IH]; [exact H|].
  cbn [String.append Py.contains]. rewrite IH. apply orb_true_r.
Qed.

Lemma escape_plain (x : byte) :
  plain_byte x = true ->
  BytesRepr.escape BytesRepr.squote x
  = String (ascii_of_byte x) EmptyString
  /\ (Byte.to_N x =? BytesRepr.squote)%N = false.
Proof. destruct x; vm_compute; intros H; try discriminate H; auto. Qed.

Lemma repr_plain (b : bytes) :
  forallb plain_byte b = true ->
  BytesRepr.repr b = ("b'" ++ string_of_list_byte b ++ "'")%string.
Proof.
  intros H. unfold BytesRepr.repr, BytesRepr.quote_of.
  assert (Hq : BytesRepr.has BytesRepr.squote b = false
               /\ String.concat "" (map (BytesRepr.escape BytesRepr.squote) b)
                  = string_of_list_byte b).
  { unfold BytesRepr.has. induction b as [|x b IH]; [split; reflexivity|].
    simpl in H. apply andb_true_iff in H. destruct H as [Hx Hb].
    destruct (IH Hb) as [IH1 IH2].
    destruct (escape_plain x Hx) as [He Hs].
    cbn [existsb map]. rewrite Hs, IH1, He. split; [reflexivity|].
    destruct b as [|y b]; [reflexivity|].
    cbn [String.concat map] in *. rewrite IH2. reflexivity. }
  destruct Hq as [Hhas Hcat]. rewrite Hhas. cbn [andb].
  rewrite Hcat. reflexivity.
Qed.

(** X11. The resolver selects a key by looking for [SERVE_SNAPSHOT_KEY] in
    the [str] of the key, which for [bytes] is its [repr]: a listed key made
    of printable ASCII characters other than the single quote and the
    backslash, whose text holds [SERVE_SNAPSHOT_KEY], is among the keys it
    reads. *)
Theorem plain_snapshot_key_is_selected
    (c : serve_constants) (ks : list bytes) (key : bytes) :
  In key ks ->
  forallb plain_byte key = true ->
  Py.contains (string_of_list_byte key) (SERVE_SNAPSHOT_KEY c) = true ->
  In key (snapshot_keys c ks).
Proof.
  intros Hin Hplain Hkey. apply snapshot_keys_In. split; [|exact Hin].
  rewrite (repr_plain key Hplain).
  apply (contains_app_l "b'"), contains_app_r, Hkey.
Qed.

Lemma plain_snapshot_key_is_selected_witness :
  In key_b (snapshot_keys serve_constants_example [key_a; key_b; key_c]).
Proof.
  apply (plain_snapshot_key_is_selected serve_constants_example
           [key_a; key_b; key_c] key_b).
  - right. left. reflexivity.
  - vm_compute. reflexivity.
  - vm_compute. reflexivity.
Defined.

(** ** The session name *)

Section SessionName.

Context {J S A D : Type}.

(** X12. A store that has no value under [session_name] makes
    [get_session_name] raise [AttributeError]; the snapshot request then
    returns no response, whenever the fetches complete, and raises this
    error when the four other fetches return. *)
Theorem missing_session_name_fails_snapshot
    (utf8_decode : bytes -> result string) (kv : kv_store)
    (version commit : string)
    (job_info : completed J) (job_submission : completed S)
    (actor_info : completed A) (serve_info : completed D) (t : nat) :
  _internal_kv_get kv session_name_key = Ok None ->
  get_session_name utf8_decode kv = Raise AttributeError
  /\ (exists e,
        snapshot version commit job_info job_submission actor_info
          serve_info (t, get_session_name utf8_decode kv) = Raise e)
  /\ ((exists j s a d,
         snd job_info = Ok j /\ snd job_submission = Ok s
         /\ snd actor_info = Ok a /\ snd serve_info = Ok d) ->
      snapshot version commit job_info job_submission actor_info
        serve_info (t, get_session_name utf8_decode kv)
      = Raise AttributeError).
Proof.
  intros Hget.
  assert (Hname : get_session_name utf8_decode kv = Raise AttributeError).
  { unfold get_session_name. rewrite Hget. reflexivity. }
  rewrite Hname. split; [reflexivity|]. split.
  - unfold snapshot, first_failure.
    pose proof (earlier_fold_spec
                  [failure job_info; failure job_submission;
                   failure actor_info; failure serve_info;
                   failure (T := string) (t, Raise AttributeError)] None)
      as H.
    destruct (fold_left earlier _ None) as [[t0 e0]|].
    + exists e0. reflexivity.
    + destruct H as [_ Hall]. rewrite List.Forall_forall in Hall.
      specialize (Hall (failure (T := string) (t, Raise AttributeError))).
      simpl in Hall. discriminate Hall. auto 6.
  - intros (j & s & a & d & Hj & Hs & Ha & Hd).
    destruct job_info as [t1 rj], job_submission as [t2 rs],
      actor_info as [t3 ra], serve_info as [t4 rd].
    simpl in Hj, Hs, Ha, Hd. subst. reflexivity.
Qed.

End SessionName.

Lemma missing_session_name_fails_snapshot_witness :
  get_session_name JsonText.decode (table_store []) = Raise AttributeError
  /\ snapshot (J := unit) (S := unit) (A := unit) (D := unit) "2.0.0" "abc"
       (1%nat, Ok tt) (2%nat, Ok tt) (3%nat, Ok tt) (4%nat, Ok tt)
       (0%nat, get_session_name JsonText.decode (table_store []))
     = Raise AttributeError.
Proof.
  destruct (missing_session_name_fails_snapshot (J := unit) (S := unit)
              (A := unit) (D := unit) JsonText.decode (table_store [])
              "2.0.0" "abc" (1%nat, Ok tt) (2%nat, Ok tt) (3%nat, Ok tt)
              (4%nat, Ok tt) 0%nat eq_refl)
    as (Hname & _ & Hsnap).
  split; [exact Hname|]. apply Hsnap.
  exists tt, tt, tt, tt. repeat split.
Defined.

(** ** The jobs of the snapshot *)

Lemma dict_set_fresh {V} (k : string) (v : V) (d : dict V) :
  ~ In k (map fst d) -> dict_set k v d = d ++ [(k, v)].
Proof.
  induction d as [|[k0 v0] d IH]; simpl; intros H; [reflexivity|].
  destruct (String.eqb_spec k0 k) as [->|_]; [destruct H; auto|].
  rewrite IH; [reflexivity|]. intros Hin. apply H. auto.
Qed.

Lemma NoDup_map_hex {A} (f : A -> bytes) (l : list A) :
  List.NoDup (map f l) -> List.NoDup (map (fun x => Py.hex (f x)) l).
Proof.
  induction l as [|x l IH]; simpl; intros H; [constructor|].
  inversion H as [|? ? Hnotin Hl]; subst. constructor; [|apply IH, Hl].
  intros Hin. apply Hnotin. apply in_map_iff in Hin.
  destruct Hin as (y & Hy & Hin). apply hex_injective in Hy.
  apply in_map_iff. exists y. auto.
Qed.

Section JobsFacts.

Variable JOB_ID_METADATA_KEY : string.
Variable get_info : option string -> result (option JobInfo).
Variable RuntimeEnv_deserialize : string -> result json.
Variable serialized_runtime_env : JobTableData -> string.
Variable GetAllJobInfo : Z -> result (list JobTableData).

Local Abbreviation entry_of_job :=
  (job_entry JOB_ID_METADATA_KEY get_info RuntimeEnv_deserialize
     serialized_runtime_env).
Local Abbreviation loop :=
  (job_loop JOB_ID_METADATA_KEY get_info RuntimeEnv_deserialize
     serialized_runtime_env).
Local Abbreviation job_info :=
  (get_job_info JOB_ID_METADATA_KEY get_info RuntimeEnv_deserialize
     serialized_runtime_env GetAllJobInfo).
Local Abbreviation key_of := (fun e => Py.hex (JobTable.job_id e)).

Lemma job_loop_app (l1 l2 : list JobTableData) (acc : dict json) :
  loop acc (l1 ++ l2)
  = match loop acc l1 with
    | Ok acc' => loop acc' l2
    | Raise e => Raise e
    end.
Proof.
  revert acc. induction l1 as [|e l1 IH]; intros acc; simpl; [reflexivity|].
  destruct (entry_of_job e) as [v|]; simpl; [apply IH | reflexivity].
Qed.

Lemma job_loop_inv (l : list JobTableData) (acc jobs : dict json) :
  loop acc l = Ok jobs ->
  (forall e, In e l -> exists v, entry_of_job e = Ok v)
  /\ (forall k v, dict_get k jobs = Some v ->
        dict_get k acc = Some v
        \/ exists e, In e l /\ k = key_of e /\ entry_of_job e = Ok v)
  /\ (forall k, (forall e, In e l -> key_of e <> k) ->
                dict_get k jobs = dict_get k acc).
Proof.
  revert acc. induction l as [|e l IH]; intros acc H; simpl in H.
  - injection H as <-. split; [intros e []|]. split; auto.
  - destruct (entry_of_job e) as [v|] eqn:He; [|discriminate H].
    simpl in H. destruct (IH _ H) as (Hall & Hget & Hother).
    split; [|split].
    + intros e' [<-|He']; [exists v; exact He | apply Hall, He'].
    + intros k v' Hk. destruct (Hget k v' Hk) as [Hacc | (e' & He' & Hrest)].
      * rewrite dict_get_set in Hacc.
        destruct (String.eqb_spec (Py.hex (JobTable.job_id e)) k) as [<-|_].
        -- injection Hacc as <-. right. exists e. simpl. auto.
        -- left. exact Hacc.
      * right. exists e'. simpl. split; [right; exact He' | exact Hrest].
    + intros k Hk. rewrite Hother.
      * rewrite dict_get_set.
        destruct (String.eqb_spec (Py.hex (JobTable.job_id e)) k) as [Heq|_];
          [|reflexivity].
        destruct (Hk e (or_introl eq_refl) Heq).
      * intros e' He'. apply Hk. right. exact He'.
Qed.

Lemma job_loop_distinct (l : list JobTableData) (acc jobs : dict json) :
  List.NoDup (map fst acc ++ map key_of l) ->
  loop acc l = Ok jobs ->
  exists new,
    jobs = acc ++ new
    /\ Forall2 (fun e kv => fst kv = key_of e /\ entry_of_job e = Ok (snd kv))
               l new.
Proof.
  revert acc. induction l as [|e l IH]; intros acc Hnd H; simpl in H.
  - injection H as <-. exists []. rewrite app_nil_r. split; constructor.
  - destruct (entry_of_job e) as [v|] eqn:He; [|discriminate H].
    simpl in H. rewrite dict_set_fresh in H.
    2:{ simpl in Hnd. apply List.NoDup_remove_2 in Hnd.
        intros Hin. apply Hnd. apply in_or_app. left. exact Hin. }
    destruct (IH (acc ++ [(key_of e, v)])) as (new & -> & Hnew).
    + rewrite List.map_app, <- app_assoc. exact Hnd.
    + exact H.
    + exists ((key_of e, v) :: new). rewrite <- app_assoc.
      split; [reflexivity|]. constructor; [split; [reflexivity | exact He]|].
      exact Hnew.
Qed.

(** X13. When the job fetch lists jobs with distinct ids, [get_job_info]
    returns one entry per job, in the order of the listing, each under the
    [hex] of the job's id. *)
Theorem job_info_one_entry_per_job
    (reply : list JobTableData) (jobs : dict json) :
  GetAllJobInfo 5 = Ok reply ->
  List.NoDup (map JobTable.job_id reply) ->
  job_info = Ok jobs ->
  Forall2 (fun e kv => fst kv = Py.hex (JobTable.job_id e)
                       /\ entry_of_job e = Ok (snd kv))
          reply jobs.
Proof.
  intros Hreply Hnd. unfold get_job_info. rewrite Hreply. simpl. intros H.
  destruct (job_loop_distinct reply [] jobs) as (new & -> & Hnew).
  - simpl. apply (NoDup_map_hex JobTable.job_id), Hnd.
  - exact H.
  - exact Hnew.
Qed.

(** X14. Every entry that [get_job_info] returns is the entry of a listed
    job, under the [hex] of its id; and when several listed jobs have one
    id, the entry kept under it is that of the last of them. *)
Theorem job_info_last_entry_wins
    (reply : list JobTableData) (jobs : dict json) :
  GetAllJobInfo 5 = Ok reply ->
  job_info = Ok jobs ->
  (forall k v, dict_get k jobs = Some v ->
     exists e, In e reply /\ k = Py.hex (JobTable.job_id e)
               /\ entry_of_job e = Ok v)
  /\ (forall pre e post,
        reply = pre ++ e :: post ->
        (forall e', In e' post -> JobTable.job_id e' <> JobTable.job_id e) ->
        exists v, entry_of_job e = Ok v
                  /\ dict_get (Py.hex (JobTable.job_id e)) jobs = Some v).
Proof.
  intros Hreply. unfold get_job_info. rewrite Hreply. simpl. intros H.
  split.
  - intros k v Hk.
    destruct (job_loop_inv reply [] jobs H) as (_ & Hget & _).
    destruct (Hget k v Hk) as [Hnil | He]; [discriminate Hnil | exact He].
  - intros pre e post -> Hlast. rewrite job_loop_app in H.
    destruct (loop [] pre) as [acc|]; [|discriminate H]. simpl in H.
    destruct (entry_of_job e) as [v|] eqn:He; [|discriminate H].
    simpl in H. exists v. split; [reflexivity|].
    destruct (job_loop_inv post _ jobs H) as (_ & _ & Hother).
    rewrite Hother, dict_get_set, String.eqb_refl; [reflexivity|].
    intros e' He' Heq. apply (Hlast e' He'), hex_injective, Heq.
Qed.

(** X15. [get_job_info] returns no partial result: when
    [RuntimeEnv.deserialize] raises on the runtime environment of a listed
    job, the fetch raises; it raises that error when the entries of the jobs
    listed before are built. *)
Theorem job_info_deserialize_error
    (pre post : list JobTableData) (e : JobTableData) (x : exn) :
  GetAllJobInfo 5 = Ok (pre ++ e :: post) ->
  RuntimeEnv_deserialize (serialized_runtime_env e) = Raise x ->
  (exists x', job_info = Raise x')
  /\ ((forall e', In e' pre -> exists v, entry_of_job e' = Ok v) ->
      job_info = Raise x).
Proof.
  intros Hreply Hx. unfold get_job_info. rewrite Hreply. simpl.
  rewrite job_loop_app.
  assert (He : forall acc, loop acc (e :: post) = Raise x).
  { intros acc. simpl. unfold job_entry. rewrite Hx. reflexivity. }
  split.
  - destruct (loop [] pre) as [acc|x']; [|exists x'; reflexivity].
    exists x. apply He.
  - intros Hpre.
    assert (Hok : forall acc, exists acc', loop acc pre = Ok acc').
    { clear Hreply. induction pre as [|e' pre IH]; intros acc; simpl.
      - exists acc. reflexivity.
      - destruct (Hpre e' (or_introl eq_refl)) as [v ->]. simpl.
        apply IH. intros e'' He''. apply Hpre. right. exact He''. }
    destruct (Hok []) as [acc ->]. apply He.
Qed.

End JobsFacts.

Lemma job_info_one_entry_per_job_witness :
  exists v1 v2,
    get_job_info "job_submission_id" example_get_info JsonText.loads
      (fun _ => "{}") (fun _ => Ok example_drivers)
    = Ok [("01", v1); ("02", v2)].
Proof.
  pose proof (job_info_one_entry_per_job "job_submission_id"
                example_get_info JsonText.loads (fun _ => "{}")
                (fun _ => Ok example_drivers) example_drivers) as H.
  destruct (get_job_info "job_submission_id" example_get_info JsonText.loads
              (fun _ => "{}") (fun _ => Ok example_drivers))
    as [jobs|] eqn:Hrun; [|vm_compute in Hrun; discriminate Hrun].
  assert (Hnd : List.NoDup (map JobTable.job_id example_drivers)).
  { constructor; [simpl; intros [H'|[]]; discriminate H'|].
    constructor; [intros []|]. constructor. }
  specialize (H jobs eq_refl Hnd eq_refl).
  inversion H as [|e1 [k1 v1] l1 jobs1 [Hk1 _] H1]; subst.
  inversion H1 as [|e2 [k2 v2] l2 jobs2 [Hk2 _] H2]; subst.
  inversion H2; subst.
  simpl in Hk1, Hk2. subst. exists v1, v2. reflexivity.
Defined.

Lemma job_info_last_entry_wins_witness :
  exists jobs v,
    get_job_info "job_submission_id" example_get_info JsonText.loads
      (fun _ => "{}") (fun _ => Ok example_relisted_drivers)
    = Ok jobs
    /\ job_entry "job_submission_id" example_get_info JsonText.loads
         (fun _ => "{}")
         (example_driver x01 [("job_submission_id", "raysubmit_1")])
       = Ok v
    /\ dict_get "01" jobs = Some v.
Proof.
  pose proof (job_info_last_entry_wins "job_submission_id"
                example_get_info JsonText.loads (fun _ => "{}")
                (fun _ => Ok example_relisted_drivers)
                example_relisted_drivers) as H.
  destruct (get_job_info "job_submission_id" example_get_info JsonText.loads
              (fun _ => "{}") (fun _ => Ok example_relisted_drivers))
    as [jobs|] eqn:Hrun; [|vm_compute in Hrun; discriminate Hrun].
  destruct (H jobs eq_refl eq_refl) as [_ Hlast].
  destruct (Hlast [example_driver x01 []]
              (example_driver x01 [("job_submission_id", "raysubmit_1")])
              [] eq_refl) as (v & Hv & Hget).
  - intros e' [].
  - exists jobs, v. split; [reflexivity|]. split; [exact Hv | exact Hget].
Defined.

Lemma job_info_deserialize_error_witness :
  get_job_info "job_submission_id" example_get_info JsonText.loads
    (fun e => if JobTable.is_dead e then "{" else "{}")
    (fun _ => Ok [example_driver x01 []; example_job true "user"])
  = Raise JSONDecodeError.
Proof.
  apply (proj2 (job_info_deserialize_error "job_submission_id"
                  example_get_info JsonText.loads
                  (fun e => if JobTable.is_dead e then "{" else "{}")
                  (fun _ => Ok [example_driver x01 [];
                                example_job true "user"])
                  [example_driver x01 []] [] (example_job true "user")
                  JSONDecodeError eq_refl eq_refl)).
  intros e' [<-|[]]. eexists. vm_compute. reflexivity.
Defined.

(** ** The job submissions of the snapshot *)

Lemma submission_fold_distinct (all_jobs : dict (option JobInfo))
    (acc : dict json) :
  List.NoDup (map fst acc ++ map fst all_jobs) ->
  fold_left submission_step all_jobs acc
  = acc ++ flat_map (fun item =>
                       match snd item with
                       | Some info =>
                           [(fst item, submission_entry (fst item) info)]
                       | None => []
                       end) all_jobs.
Proof.
  revert acc. induction all_jobs as [|[id [info|]] l IH]; intros acc Hnd;
    simpl.
  - rewrite app_nil_r. reflexivity.
  - rewrite dict_set_fresh.
    2:{ simpl in Hnd. apply List.NoDup_remove_2 in Hnd.
        intros Hin. apply Hnd. apply in_or_app. left. exact Hin. }
    rewrite IH; [rewrite <- app_assoc; reflexivity|].
    rewrite List.map_app, <- app_assoc. exact Hnd.
  - apply IH. simpl in Hnd. apply List.NoDup_remove_1 in Hnd. exact Hnd.
Qed.

(** X16. [get_job_submission_info] returns, for the dictionary of the
    submissions, the entries of those whose information is not [None], in
    the order of the dictionary: a submission is in the result exactly when
    it has information, under its own id, which is also the
    [job_submission_id] of its entry. *)
Theorem job_submission_info_entries
    (get_all_jobs : result (dict (option JobInfo)))
    (all_jobs : dict (option JobInfo)) :
  get_all_jobs = Ok all_jobs ->
  List.NoDup (map fst all_jobs) ->
  exists jobs,
    get_job_submission_info get_all_jobs = Ok jobs
    /\ jobs = flat_map (fun item =>
                          match snd item with
                          | Some info =>
                              [(fst item, submission_entry (fst item) info)]
                          | None => []
                          end) all_jobs
    /\ forall id v,
         dict_get id jobs = Some v
         <-> exists info, dict_get id all_jobs = Some (Some info)
                          /\ v = submission_entry id info.
Proof.
  intros Hall Hnd. unfold get_job_submission_info. rewrite Hall. simpl.
  eexists. split; [reflexivity|].
  rewrite (submission_fold_distinct all_jobs [] Hnd). simpl.
  split; [reflexivity|].
  clear Hall. induction all_jobs as [|[id0 info0] l IH]; intros id v.
  - simpl. split; [discriminate | intros (info & H & _); discriminate H].
  - inversion Hnd as [|? ? Hnotin Hl]; subst. specialize (IH Hl id v).
    cbn [flat_map snd fst dict_get].
    destruct (String.eqb_spec id0 id) as [->|Hne].
    + destruct info0 as [info0|]; cbn [app dict_get].
      * rewrite String.eqb_refl. split.
        -- intros H. injection H as <-. exists info0. auto.
        -- intros (info & H & ->). injection H as <-. reflexivity.
      * rewrite IH. split.
        -- intros (info & H & _). apply dict_get_In in H.
           destruct Hnotin. apply in_map_iff. exists (id, Some info). auto.
        -- intros (info & H & _). discriminate H.
    + destruct info0 as [info0|]; cbn [app dict_get]; [|exact IH].
      destruct (String.eqb_spec id0 id) as [Heq|_]; [contradiction|].
      exact IH.
Qed.

Lemma job_submission_info_entries_witness :
  get_job_submission_info
    (Ok [("raysubmit_1", Some (example_info "RUNNING"));
         ("raysubmit_2", None);
         ("raysubmit_3", Some (example_info "FAILED"))])
  = Ok [("raysubmit_1",
         submission_entry "raysubmit_1" (example_info "RUNNING"));
        ("raysubmit_3",
         submission_entry "raysubmit_3" (example_info "FAILED"))].
Proof.
  destruct (job_submission_info_entries
              (Ok [("raysubmit_1", Some (example_info "RUNNING"));
                   ("raysubmit_2", None);
                   ("raysubmit_3", Some (example_info "FAILED"))])
              _ eq_refl) as (jobs & Hrun & -> & _).
  - repeat constructor; simpl; intros H;
      repeat (destruct H as [H|H]; [discriminate H|]); destruct H.
  - exact Hrun.
Defined.

(** ** [get_actor_info]: what it returns and when it raises *)

Lemma get_actor_info_result_witness :
  entries_ok JsonText.loads example_state_name (objects example_final) 0
             example_reply.
Proof.
  destruct (get_actor_info_result JsonText.loads example_state_name
              (fun _ _ => Ok example_reply) (fun _ => Ok example_deployments)
              new_world example_final 0%nat)
    as (reply & Hreply & Hok).
  - vm_compute. reflexivity.
  - injection Hreply as <-. exact Hok.
Defined.

Section ActorInfoErrors.

Variable json_loads : string -> result json.
Variable ActorState_Name : Z -> result string.
Variable GetAllActorInfo : bool -> Z -> result (list ActorTableData).
Variable get_serve_info_at : nat -> result (dict json).

Lemma actor_step_malformed (la : loc) (e : ActorTableData) (x : exn)
    (w : world) :
  json_loads (ActorTable.serialized_runtime_env e) = Raise x ->
  actor_step json_loads ActorState_Name get_serve_info_at la e w = Raise x.
Proof.
  intros Hx. unfold actor_step, make_entry.
  rewrite !run_bind, run_lift, Hx. reflexivity.
Qed.

Lemma actor_steps_malformed (la : loc) (reply : list ActorTableData)
    (e : ActorTableData) (x : exn) (w : world) :
  In e reply ->
  json_loads (ActorTable.serialized_runtime_env e) = Raise x ->
  exists x',
    for_each (actor_step json_loads ActorState_Name get_serve_info_at la)
             reply w = Raise x'.
Proof.
  intros Hin Hx. revert w. induction reply as [|e0 reply IH]; intros w;
    [destruct Hin|].
  rewrite for_each_cons.
  destruct Hin as [->|Hin].
  - rewrite (actor_step_malformed la e x w Hx). exists x. reflexivity.
  - destruct (actor_step _ _ _ la e0 w) as [[[] w1]|x'].
    + apply (IH Hin).
    + exists x'. reflexivity.
Qed.

(** X18. [get_actor_info] returns no partial map: when the serialized
    runtime environment of a listed actor is malformed, the fetch raises;
    it raises the decode error itself when that actor is listed first. *)
Theorem actor_info_malformed_runtime_env
    (reply : list ActorTableData) (e : ActorTableData) (x : exn)
    (w : world) :
  GetAllActorInfo true 5 = Ok reply ->
  In e reply ->
  json_loads (ActorTable.serialized_runtime_env e) = Raise x ->
  (exists x',
      get_actor_info json_loads ActorState_Name GetAllActorInfo
        get_serve_info_at w = Raise x')
  /\ (forall rest, reply = e :: rest ->
        get_actor_info json_loads ActorState_Name GetAllActorInfo
          get_serve_info_at w = Raise x).
Proof.
  intros Hreply Hin Hx. unfold get_actor_info.
  rewrite run_bind, run_lift, Hreply, run_bind, run_alloc, run_bind.
  split.
  - destruct (actor_steps_malformed (List.length (objects w)) reply e x
                (extend w (ODict [])) Hin Hx) as [x' ->].
    exists x'. reflexivity.
  - intros rest ->. rewrite for_each_cons.
    rewrite (actor_step_malformed _ e x _ Hx). reflexivity.
Qed.

End ActorInfoErrors.

Lemma actor_info_malformed_runtime_env_witness :
  get_actor_info JsonText.loads example_state_name
    (fun _ _ => Ok [example_malformed_actor; example_actor xa1 "replica"])
    (fun _ => Ok example_deployments) new_world
  = Raise JSONDecodeError.
Proof.
  apply (proj2 (actor_info_malformed_runtime_env JsonText.loads
                  example_state_name
                  (fun _ _ => Ok [example_malformed_actor;
                                  example_actor xa1 "replica"])
                  (fun _ => Ok example_deployments)
                  [example_malformed_actor; example_actor xa1 "replica"]
                  example_malformed_actor JSONDecodeError new_world
                  eq_refl (or_introl eq_refl) eq_refl)
           [example_actor xa1 "replica"] eq_refl).
Defined.

(** ** The keys the join requires *)

Lemma mapM_result_total {A B} (f : A -> result B) (l : list A) :
  (forall x, In x l -> exists y, f x = Ok y) ->
  exists ys, mapM f l = Ok ys.
Proof.
  induction l as [|x l IH]; intros H; [exists []; reflexivity|].
  destruct (H x (or_introl eq_refl)) as [y Hy].
  destruct IH as [ys Hys]; [intros x' Hx'; apply H; right; exact Hx'|].
  exists (y :: ys). rewrite mapM_result_cons, Hy, Hys. reflexivity.
Qed.

(** What the join reads of the deployment data: [deployments] has items,
    every deployment has [actors], which has items, and every replica whose
    actor id is in the actor map [da] has [replica_tag] and [version], and
    its deployment has [name]. *)
Lemma attachments_Ok_iff (h : heap) (la : loc) (ld : val) (da : dict val) :
  dict_at h la = Ok da ->
  (exists atts, attachments h la ld = Ok atts) <-> join_keys h da ld.
Proof.
  intros Hda. unfold join_keys. split.
  - intros [atts Hatts]. unfold attachments in Hatts.
    apply bind_Ok_inv in Hatts. destruct Hatts as (ds & Hds & Hatts).
    rewrite Hda in Hatts. simpl in Hatts.
    apply bind_Ok_inv in Hatts. destruct Hatts as (per & Hper & _).
    exists ds. split; [exact Hds|].
    intros d Hd. apply mapM_result_inv in Hper.
    destruct (Forall2_In_l _ _ _ d Hper Hd) as (attsd & _ & Hattsd).
    unfold attachments_of_deployment in Hattsd.
    apply bind_Ok_inv in Hattsd. destruct Hattsd as (rd & Hrd & Hattsd).
    apply bind_Ok_inv in Hattsd. destruct Hattsd as (rs & Hrs & Hattsd).
    apply bind_Ok_inv in Hattsd. destruct Hattsd as (perr & Hperr & _).
    exists rd, rs. split; [exact Hrd|]. split; [exact Hrs|].
    intros r Hr Hmem. apply mapM_result_inv in Hperr.
    destruct (Forall2_In_l _ _ _ r Hperr Hr) as (attsr & _ & Hattsr).
    unfold attachments_of_replica in Hattsr. rewrite Hmem in Hattsr.
    apply bind_Ok_inv in Hattsr. destruct Hattsr as (sm & Hsm & _).
    unfold serve_metadata_of in Hsm.
    apply bind_Ok_inv in Hsm. destruct Hsm as (v1 & Hv1 & Hsm).
    apply bind_Ok_inv in Hsm. destruct Hsm as (v2 & Hv2 & Hsm).
    apply bind_Ok_inv in Hsm. destruct Hsm as (v3 & Hv3 & _).
    exists v1, v2, v3. auto.
  - intros (ds & Hds & Hall). unfold attachments. rewrite Hds, Hda. simpl.
    destruct (mapM_result_total (attachments_of_deployment h da) ds)
      as [per ->]; [|eexists; reflexivity].
    intros d Hd. destruct (Hall d Hd) as (rd & rs & Hrd & Hrs & Hreplicas).
    unfold attachments_of_deployment. rewrite Hrd. simpl. rewrite Hrs. simpl.
    destruct (mapM_result_total (attachments_of_replica h da (snd d)) rs)
      as [perr ->]; [|eexists; reflexivity].
    intros r Hr. unfold attachments_of_replica.
    destruct (dict_mem (fst r) da) eqn:Hmem; [|eexists; reflexivity].
    destruct (Hreplicas r Hr Hmem) as (v1 & v2 & v3 & Hv1 & Hv2 & Hv3).
    unfold serve_metadata_of. rewrite Hv1, Hv2, Hv3. eexists. reflexivity.
Qed.

(** X19. The join returns exactly when the deployment data has the keys it
    reads: the deployments and the [actors] of every deployment have items,
    and every replica whose actor id is in the actor map has [replica_tag]
    and [version], and its deployment has [name].  Nothing is read of a
    replica whose actor id is not in the map: the join returns whatever keys
    such a replica has or lacks. *)
Theorem join_returns_iff_keys (w : world) (la : loc) (ld : val)
    (da : dict val) :
  actors_shape (objects w) la -> apart (objects w) la ld ->
  dict_at (objects w) la = Ok da ->
  (exists w', join la ld w = Ok (tt, w')) <-> join_keys (objects w) da ld.
Proof.
  intros Hshape Hld Hda.
  rewrite <- (attachments_Ok_iff (objects w) la ld da Hda).
  rewrite (join_spec w la ld Hshape Hld).
  destruct (attachments (objects w) la ld) as [atts|e].
  - split; intros _; eexists; reflexivity.
  - split; intros [x Hx]; discriminate Hx.
Qed.

(** The deployments [sparse_deployments]: the replica on the actor [ff],
    which is not in the map, has no key, and the join returns. *)
Lemma join_returns_iff_keys_witness :
  getitem (objects sparse_join_state) sparse_absent_replica "replica_tag"
  = Raise (KeyError "replica_tag")
  /\ exists w', join 0 sparse_join_deployments sparse_join_state = Ok (tt, w').
Proof.
  split; [vm_compute; reflexivity|].
  assert (Hshape : actors_shape (objects example_after_first_turn) 0).
  { apply (actor_step_inv JsonText.loads example_state_name
             (fun _ => Ok example_deployments) 0%nat
             (example_actor xb2 "other") (extend new_world (ODict []))).
    - apply (empty_actors_shape new_world).
    - vm_compute. reflexivity. }
  destruct (before_join_inv JsonText.loads example_state_name
              (fun _ => Ok sparse_deployments) 0%nat
              (example_actor xa1 "replica") example_after_first_turn
              sparse_join_state sparse_join_deployments Hshape)
    as (Hshape3 & Hapart3 & _); [vm_compute; reflexivity|].
  apply (proj2 (join_returns_iff_keys sparse_join_state 0
                  sparse_join_deployments _ Hshape3 Hapart3 eq_refl)).
  eexists. split; [vm_compute; reflexivity|].
  intros d [<-|[]]. eexists. eexists.
  split; [vm_compute; reflexivity|]. split; [vm_compute; reflexivity|].
  intros r [<-|[<-|[]]] Hmem.
  - eexists. eexists. eexists.
    split; [vm_compute; reflexivity|]. split; vm_compute; reflexivity.
  - vm_compute in Hmem. discriminate Hmem.
Defined.

(** ** [get_actor_info] when the deployment snapshot does not change *)

Lemma represents_getitems (h : heap) (v : val) (j : json) (kvs : dict val) :
  represents h v j -> getitems h v = Ok kvs ->
  exists d,
    j = JDict d
    /\ Forall2 (fun kv kj => fst kv = fst kj
                             /\ represents h (snd kv) (snd kj)) kvs d.
Proof.
  intros Hrep. unfold getitems.
  inversion Hrep as [| | | | | l vs js Hl Hvs | l kvs' d Hl Hkvs]; subst;
    try discriminate; rewrite Hl; [discriminate|].
  intros H. injection H as <-. exists d. auto.
Qed.

Lemma represents_dict_get (h : heap) (kvs : dict val) (d : dict json)
    (k : string) (x : val) :
  Forall2 (fun kv kj => fst kv = fst kj /\ represents h (snd kv) (snd kj))
          kvs d ->
  dict_get k kvs = Some x ->
  exists jx, dict_get k d = Some jx /\ represents h x jx.
Proof.
  induction 1 as [|[k0 v0] [k1 j1] kvs d [Hk Hv] _ IH]; simpl;
    [discriminate|].
  simpl in Hk, Hv. subst k1.
  destruct (String.eqb k0 k); [|exact IH].
  intros H. injection H as <-. exists j1. auto.
Qed.

Lemma represents_getitem (h : heap) (v : val) (j : json) (k : string)
    (x : val) :
  represents h v j -> getitem h v k = Ok x ->
  exists jx, json_get k j = Some jx /\ represents h x jx.
Proof.
  intros Hrep. unfold getitem.
  inversion Hrep as [| | | | | l vs js Hl Hvs | l kvs d Hl Hkvs]; subst;
    try discriminate; rewrite Hl; [discriminate|].
  destruct (dict_get k kvs) as [x'|] eqn:Hx; [|discriminate].
  intros H. injection H as <-.
  apply (represents_dict_get h kvs d k x' Hkvs Hx).
Qed.

Section AttachedFacts.

Variable h : heap.
Variable la : loc.
Variable da : dict val.

Lemma attachments_of_replica_attached (dv : val) (dinfo : json)
    (rid : string) (av : val) (ainfo : json) (atts : list attachment) :
  represents h dv dinfo -> represents h av ainfo ->
  apart h la dv -> apart h la av ->
  attachments_of_replica h da dv (rid, av) = Ok atts ->
  Forall2 (attached h la) atts (placed da [(rid, (dinfo, ainfo))]).
Proof.
  intros Hdv Hav Hdapart Havpart. unfold attachments_of_replica, placed.
  simpl. destruct (dict_mem rid da).
  - intros H. apply bind_Ok_inv in H. destruct H as (sm & Hsm & H).
    injection H as <-. unfold serve_metadata_of in Hsm.
    apply bind_Ok_inv in Hsm. destruct Hsm as (v1 & Hv1 & Hsm).
    apply bind_Ok_inv in Hsm. destruct Hsm as (v2 & Hv2 & Hsm).
    apply bind_Ok_inv in Hsm. destruct Hsm as (v3 & Hv3 & Hsm).
    injection Hsm as <-.
    destruct (represents_getitem _ _ _ _ _ Hav Hv1) as (tag & Htag & Hr1).
    destruct (represents_getitem _ _ _ _ _ Hdv Hv2) as (name & Hname & Hr2).
    destruct (represents_getitem _ _ _ _ _ Hav Hv3) as (ver & Hver & Hr3).
    constructor; [|constructor]. split; [reflexivity|]. split.
    + exists v1, v2, v3, tag, name, ver. simpl. auto 10.
    + simpl. intros kv [<-|[<-|[<-|[]]]]; simpl.
      * apply (apart_getitem h la av v1 _ Havpart Hv1).
      * apply (apart_getitem h la dv v2 _ Hdapart Hv2).
      * apply (apart_getitem h la av v3 _ Havpart Hv3).
  - intros H. injection H as <-. constructor.
Qed.

Lemma placed_app (l1 l2 : list (string * (json * json))) :
  placed da (l1 ++ l2) = placed da l1 ++ placed da l2.
Proof. apply List.filter_app. Qed.

Lemma attachments_of_replicas_attached (dv : val) (dinfo : json)
    (rs : dict val) (replicas : dict json) (per : list (list attachment)) :
  represents h dv dinfo -> apart h la dv ->
  Forall2 (fun kv kj => fst kv = fst kj /\ represents h (snd kv) (snd kj))
          rs replicas ->
  (forall kv, In kv rs -> apart h la (snd kv)) ->
  mapM (attachments_of_replica h da dv) rs = Ok per ->
  Forall2 (attached h la) (concat per)
    (placed da (map (fun replica => (fst replica, (dinfo, snd replica)))
                    replicas)).
Proof.
  intros Hdv Hdapart Hrs. revert per.
  induction Hrs as [|[rid av] [rid' ainfo] rs replicas [Hk Hav] _ IH];
    intros per Hapart Hper.
  - injection Hper as <-. constructor.
  - simpl in Hk, Hav. subst rid'. rewrite mapM_result_cons in Hper.
    destruct (attachments_of_replica h da dv (rid, av)) as [atts|] eqn:Ha;
      [|discriminate Hper].
    destruct (mapM _ rs) as [per'|] eqn:Hper'; [|discriminate Hper].
    injection Hper as <-. simpl concat. simpl map.
    change ((rid, (dinfo, ainfo)) :: ?l)
      with ([(rid, (dinfo, ainfo))] ++ l).
    rewrite placed_app. apply Forall2_app.
    + apply (attachments_of_replica_attached dv dinfo rid av ainfo atts);
        auto.
      apply (Hapart (rid, av)). left. reflexivity.
    + apply IH; [|reflexivity]. intros kv Hkv. apply Hapart. right. exact Hkv.
Qed.

Lemma attachments_of_deployment_attached (dep : string * val)
    (dinfo : json) (atts : list attachment) :
  represents h (snd dep) dinfo -> apart h la (snd dep) ->
  attachments_of_deployment h da dep = Ok atts ->
  Forall2 (attached h la) atts
    (placed da (map (fun replica => (fst replica, (dinfo, snd replica)))
                    (replicas_of_deployment dinfo))).
Proof.
  intros Hdv Hdapart H. unfold attachments_of_deployment in H.
  apply bind_Ok_inv in H. destruct H as (rd & Hrd & H).
  apply bind_Ok_inv in H. destruct H as (rs & Hrs & H).
  apply bind_Ok_inv in H. destruct H as (per & Hper & H).
  injection H as <-.
  destruct (represents_getitem _ _ _ _ _ Hdv Hrd) as (jrd & Hjrd & Hrep).
  destruct (represents_getitems _ _ _ _ Hrep Hrs) as (replicas & -> & Hall).
  unfold replicas_of_deployment. rewrite Hjrd.
  apply (attachments_of_replicas_attached (snd dep) dinfo rs replicas per);
    auto.
  apply (apart_getitems h la rd rs); [|exact Hrs].
  apply (apart_getitem h la (snd dep) rd _ Hdapart Hrd).
Qed.

Lemma attachments_attached (ld : val) (d : dict json)
    (atts : list attachment) :
  dict_at h la = Ok da ->
  represents h ld (JDict d) -> apart h la ld ->
  attachments h la ld = Ok atts ->
  Forall2 (attached h la) atts (placed da (replicas_of d)).
Proof.
  intros Hda Hld Hapart H. unfold attachments in H.
  apply bind_Ok_inv in H. destruct H as (ds & Hds & H).
  rewrite Hda in H. simpl in H.
  apply bind_Ok_inv in H. destruct H as (per & Hper & H).
  injection H as <-.
  destruct (represents_getitems _ _ _ _ Hld Hds) as (d' & Hd' & Hall).
  injection Hd' as <-.
  pose proof (apart_getitems h la ld ds Hapart Hds) as Hparts.
  clear Hds Hld. revert per Hper Hparts.
  induction Hall as [|[k dv] [k' dinfo] ds d [Hk Hdv] _ IH];
    intros per Hper Hparts.
  - injection Hper as <-. constructor.
  - simpl in Hk, Hdv. rewrite mapM_result_cons in Hper.
    destruct (attachments_of_deployment h da (k, dv)) as [attsd|] eqn:Hd;
      [|discriminate Hper].
    destruct (mapM _ ds) as [per'|] eqn:Hper'; [|discriminate Hper].
    injection Hper as <-. simpl concat. unfold replicas_of. simpl flat_map.
    rewrite placed_app. apply Forall2_app.
    + apply (attachments_of_deployment_attached (k, dv) dinfo attsd Hdv);
        [|exact Hd].
      apply (Hparts (k, dv)). left. reflexivity.
    + apply IH; [reflexivity|]. intros kv Hkv. apply Hparts. right. exact Hkv.
Qed.

End AttachedFacts.

Lemma last_binding_cons {V} (k : string) (x : string * V)
    (l : list (string * V)) :
  last_binding k (x :: l)
  = match last_binding k l with
    | Some v => Some v
    | None => if String.eqb (fst x) k then Some (snd x) else None
    end.
Proof.
  change (x :: l) with ([x] ++ l). rewrite last_binding_app.
  destruct (last_binding k l); [reflexivity|].
  destruct x as [k0 v0]. reflexivity.
Qed.

Lemma last_binding_placed (da : dict val) (a : string)
    (replicas : list (string * (json * json))) :
  dict_mem a da = true ->
  last_binding a (placed da replicas) = last_binding a replicas.
Proof.
  intros Hmem. induction replicas as [|x l IH]; [reflexivity|].
  unfold placed in *. simpl List.filter.
  rewrite (last_binding_cons a x l).
  destruct (dict_mem (fst x) da) eqn:Hx.
  - rewrite last_binding_cons, IH. reflexivity.
  - rewrite IH. destruct (last_binding a l); [reflexivity|].
    destruct (String.eqb_spec (fst x) a) as [Heq|_]; [|reflexivity].
    rewrite Heq, Hmem in Hx. discriminate Hx.
Qed.

Lemma last_binding_placed_None (da : dict val) (a : string)
    (replicas : list (string * (json * json))) :
  last_binding a replicas = None ->
  last_binding a (placed da replicas) = None.
Proof.
  induction replicas as [|x l IH]; [reflexivity|].
  unfold placed in *. simpl List.filter. rewrite last_binding_cons.
  destruct (last_binding a l); [discriminate|].
  destruct (String.eqb (fst x) a) eqn:E; [discriminate|]. intros _.
  destruct (dict_mem (fst x) da); [|apply IH; reflexivity].
  rewrite last_binding_cons, IH, E; reflexivity.
Qed.

Lemma metadata_loc_mem (h : heap) (la : loc) (da : dict val) (a : string)
    (m : loc) :
  dict_at h la = Ok da -> metadata_loc h la a = Some m ->
  dict_mem a da = true.
Proof.
  intros Hda. unfold metadata_loc, dict_mem. rewrite Hda.
  destruct (dict_get a da); [reflexivity | discriminate].
Qed.

(** The last attachment that goes to the metadata of an actor is that of
    the last replica placed on the actor. *)
Lemma last_target_attached (h : heap) (la : loc) (a : string) (m : loc)
    (atts : list attachment) (replicas : list (string * (json * json))) :
  actors_shape h la ->
  metadata_loc h la a = Some m ->
  Forall2 (attached h la) atts replicas ->
  match last_binding a replicas with
  | None => last_target h la m atts = None
  | Some replica =>
      exists sm,
        last_target h la m atts = Some sm
        /\ record_of h sm replica
        /\ forall kv, In kv sm -> apart h la (snd kv)
  end.
Proof.
  intros Hshape Hm H.
  induction H as [|att r atts replicas (Hfst & Hrec & Hapart) _ IH].
  - reflexivity.
  - rewrite last_binding_cons. simpl last_target.
    destruct (last_binding a replicas) as [r'|].
    + destruct IH as (sm & -> & Hsm). exists sm. auto.
    + rewrite IH. unfold targets. rewrite Hfst.
      destruct (String.eqb_spec (fst r) a) as [->|Hne].
      * rewrite Hm, Nat.eqb_refl. exists (snd att). auto.
      * destruct (metadata_loc h la (fst r)) as [m'|] eqn:Hm';
          [|reflexivity].
        destruct (Nat.eqb_spec m' m) as [->|_]; [|reflexivity].
        destruct Hshape as (_ & _ & _ & Hinj).
        destruct Hne. apply (Hinj _ _ m Hm' Hm).
Qed.

Lemma record_of_frame (h0 : heap) (la : loc) (w : world) (sm : dict val)
    (replica : json * json) :
  frame_inv h0 la w ->
  (forall kv, In kv sm -> apart h0 la (snd kv)) ->
  record_of h0 sm replica -> record_of (objects w) sm replica.
Proof.
  intros (_ & Hframe & _) Hapart
    (v1 & v2 & v3 & tag & name & ver & -> & Htag & H1 & Hname & H2 & Hver
     & H3).
  assert (Hkeep : forall k v j,
             In (k, v) [("replica_tag", v1); ("deployment_name", v2);
                        ("version", v3)] ->
             represents h0 v j -> represents (objects w) v j).
  { intros k v j Hin. apply represents_frame. intros l o Hreach Hl.
    destruct (Hapart (k, v) Hin l Hreach) as [Hlt Hnot].
    rewrite (Hframe l Hlt Hnot). exact Hl. }
  exists v1, v2, v3, tag, name, ver. split; [reflexivity|].
  split; [exact Htag|]. split.
  { apply (Hkeep "replica_tag"); [left; reflexivity | exact H1]. }
  split; [exact Hname|]. split.
  { apply (Hkeep "deployment_name"); [right; left; reflexivity | exact H2]. }
  split; [exact Hver|].
  apply (Hkeep "version"); [right; right; left; reflexivity | exact H3].
Qed.

Section TurnFetch.

Variable json_loads : string -> result json.
Variable ActorState_Name : Z -> result string.
Variable get_serve_info_at : nat -> result (dict json).

(** The statements before the join, when the deployments [deployments] are
    fetched: the tree fetched is stored, and the metadata of the actors
    already in the map are where they were and hold what they held. *)
Lemma before_join_fetch (la : loc) (e : ActorTableData) (w w3 : world)
    (ld : val) (deployments : dict json) :
  actors_shape (objects w) la ->
  get_serve_info_at (serve_calls w) = Ok deployments ->
  before_join json_loads ActorState_Name get_serve_info_at la e w
  = Ok (ld, w3) ->
  represents (objects w3) ld (JDict deployments)
  /\ (forall a, a <> Py.hex (ActorTable.actor_id e) ->
        metadata_loc (objects w3) la a = metadata_loc (objects w) la a)
  /\ (forall l dd, dict_at (objects w) l = Ok dd -> l <> la ->
                   dict_at (objects w3) l = Ok dd).
Proof.
  intros Hshape Hfetch. unfold before_join. rewrite run_bind.
  destruct (make_entry _ _ e w) as [[v w1]|] eqn:Hentry; [|discriminate].
  destruct (make_entry_inv json_loads ActorState_Name e w w1 v Hentry)
    as (pre & de & state_name & rt & res & -> & -> & Hmeta & Hname & Hde).
  pose proof Hshape as (da & Hda & _).
  pose proof (dict_at_lt _ _ _ Hda) as Hla.
  set (aid := Py.hex (ActorTable.actor_id e)).
  rewrite run_bind, (run_setitem la da).
  2:{ unfold dict_at, grow. simpl. rewrite lookup_app_l by exact Hla.
      exact Hda. }
  simpl objects. simpl serve_calls.
  pose proof (add_entry_shape (objects w) la da pre de aid Hshape Hda Hmeta)
    as Hshape2.
  pose proof (add_entry_metadata_loc (objects w) la da pre de aid Hshape Hda
                Hmeta) as Hloc2.
  pose proof (add_entry_old_dict (objects w) la da pre de aid) as Hold2.
  set (h2 := <[la := _]> _) in *.
  unfold call_get_serve_info. simpl serve_calls. simpl objects.
  rewrite Hfetch.
  destruct (alloc_json_appends (JDict deployments)
              {| objects := h2; serve_calls := S (serve_calls w) |})
    as (ld' & cells & Hrun & _ & _).
  rewrite Hrun. unfold grow. simpl objects. simpl serve_calls.
  intros H. injection H as <- <-. simpl objects.
  pose proof (alloc_json_represents _ _ _ _ Hrun) as [Hrep _].
  simpl in Hrep.
  pose proof (grow_frame_inv la
                {| objects := h2; serve_calls := serve_calls w |} cells
                (S (serve_calls w)) Hshape2) as Hinv3.
  split; [exact Hrep|]. split.
  - intros a Ha.
    pose proof (frame_metadata_loc h2 la Hshape2 _ a Hinv3) as H3.
    simpl in H3. rewrite H3, Hloc2.
    destruct (String.eqb_spec aid a) as [Heq|_]; [|reflexivity].
    destruct Ha. symmetry. exact Heq.
  - intros l dd Hdd Hne. unfold dict_at.
    pose proof (Hold2 l dd Hdd Hne) as Hdd2.
    rewrite (lookup_app_l _ _ _ (dict_at_lt _ _ _ Hdd2)). exact Hdd2.
Qed.

(** One turn of the loop, when the deployments [deployments] are fetched.
    The metadata of the actors already in the map stay where they are; the
    metadata of an actor on which the deployments place no replica holds what
    it held before the turn ([dm]: nothing when the actor is that of the
    turn), and every other metadata holds, under [serve], the record of the
    last replica placed on the actor. *)
Lemma actor_step_fetch (la : loc) (e : ActorTableData) (w w' : world)
    (deployments : dict json) :
  actors_shape (objects w) la ->
  get_serve_info_at (serve_calls w) = Ok deployments ->
  actor_step json_loads ActorState_Name get_serve_info_at la e w
  = Ok (tt, w') ->
  actors_shape (objects w') la
  /\ (forall a, a <> Py.hex (ActorTable.actor_id e) ->
        metadata_loc (objects w') la a = metadata_loc (objects w) la a)
  /\ (forall a m dm,
        metadata_loc (objects w') la a = Some m ->
        (a = Py.hex (ActorTable.actor_id e) /\ dm = []
         \/ a <> Py.hex (ActorTable.actor_id e)
            /\ dict_at (objects w) m = Ok dm) ->
        match last_replica deployments a with
        | None => dict_at (objects w') m = Ok dm
        | Some replica =>
            exists s sm,
              dict_at (objects w') m = Ok (dict_set "serve" (VRef s) dm)
              /\ dict_at (objects w') s = Ok sm
              /\ record_of (objects w') sm replica
        end).
Proof.
  intros Hshape Hfetch Hstep. rewrite actor_step_split in Hstep.
  destruct (before_join _ _ _ la e w) as [[ld w3]|] eqn:Hbefore;
    [|discriminate].
  destruct (before_join_inv json_loads ActorState_Name get_serve_info_at
              la e w w3 ld Hshape Hbefore)
    as (Hshape3 & Hapart3 & _ & mnew & Hmnew & Hmnew_empty).
  destruct (before_join_fetch la e w w3 ld deployments Hshape Hfetch Hbefore)
    as (Hrep3 & Hold_loc & Hold_dict).
  destruct (join_shape la ld w3 w' Hshape3 Hapart3 Hstep) as [Hshape' _].
  split; [exact Hshape'|].
  destruct (join_Ok_inv w3 w' la ld Hshape3 Hapart3 Hstep)
    as (atts & Hatts & ->).
  pose proof (frame_inv_start (objects w3) la Hshape3 w3 eq_refl) as Hinv0.
  pose proof (attach_all_frame_inv (objects w3) la Hshape3 atts w3 Hinv0)
    as Hinv.
  split.
  { intros a Ha.
    rewrite (frame_metadata_loc (objects w3) la Hshape3 _ a Hinv).
    apply (Hold_loc a Ha). }
  pose proof Hshape3 as (da3 & Hda3 & _).
  pose proof (attachments_attached (objects w3) la da3 ld deployments atts
                Hda3 Hrep3 Hapart3 Hatts) as Hattached.
  intros a m dm Hloc Hbefore_turn.
  rewrite (frame_metadata_loc (objects w3) la Hshape3 _ a Hinv) in Hloc.
  assert (Hcell : metadata_cell (objects w3) la m) by (exists a; exact Hloc).
  assert (Hdm : dict_at (objects w3) m = Ok dm).
  { destruct Hbefore_turn as [[-> ->] | [Hne Hdm]].
    - rewrite Hmnew in Hloc. injection Hloc as <-. exact Hmnew_empty.
    - pose proof Hloc as Hloc0. rewrite (Hold_loc a Hne) in Hloc0.
      assert (Hcell0 : metadata_cell (objects w) la m)
        by (exists a; exact Hloc0).
      destruct (metadata_cell_inv (objects w) la Hshape m Hcell0)
        as (_ & _ & _ & _ & Hmla & _).
      apply Hold_dict; assumption. }
  pose proof (metadata_loc_mem _ _ _ _ _ Hda3 Hloc) as Hmem.
  pose proof (last_target_attached (objects w3) la a m atts _ Hshape3 Hloc
                Hattached) as Hlast.
  pose proof (attach_all_target (objects w3) la Hshape3 atts w3 m dm Hinv0
                Hcell Hdm) as Htarget.
  unfold last_replica.
  destruct (last_binding a (replicas_of deployments)) as [r|] eqn:Hr.
  - rewrite (last_binding_placed da3 a _ Hmem), Hr in Hlast.
    destruct Hlast as (sm & Hsm & Hrec & Hparts).
    rewrite Hsm in Htarget. destruct Htarget as (s & _ & Hm' & Hs').
    exists s, sm. split; [exact Hm'|]. split; [exact Hs'|].
    apply (record_of_frame (objects w3) la _ sm r Hinv Hparts Hrec).
  - rewrite (last_binding_placed_None da3 a _ Hr) in Hlast.
    rewrite Hlast in Htarget. exact Htarget.
Qed.


End TurnFetch.

Section StableSnapshot.

Variable json_loads : string -> result json.
Variable ActorState_Name : Z -> result string.
Variable GetAllActorInfo : bool -> Z -> result (list ActorTableData).

(** The deployments that every call of [get_serve_info] returns. *)
Variable deployments : dict json.

Local Abbreviation stable := (fun _ : nat => Ok deployments).

(** One turn of the loop keeps every metadata in step with the
    deployments. *)
Lemma actor_step_stable (la : loc) (e : ActorTableData) (w w' : world) :
  actors_shape (objects w) la ->
  all_serve_match deployments (objects w) la ->
  actor_step json_loads ActorState_Name stable la e w = Ok (tt, w') ->
  actors_shape (objects w') la
  /\ all_serve_match deployments (objects w') la.
Proof.
  intros Hshape Hfull Hstep.
  destruct (actor_step_fetch json_loads ActorState_Name stable la e w w'
              deployments Hshape eq_refl Hstep) as (Hshape' & Hold & Hturn).
  split; [exact Hshape'|].
  intros a m Hloc.
  assert (Hdm : exists dm,
             (a = Py.hex (ActorTable.actor_id e) /\ dm = []
              \/ a <> Py.hex (ActorTable.actor_id e)
                 /\ dict_at (objects w) m = Ok dm)
             /\ (dm = [] \/ exists s0, dm = [("serve", VRef s0)])
             /\ (last_replica deployments a = None -> dm = [])).
  { destruct (String.eqb_spec a (Py.hex (ActorTable.actor_id e)))
      as [Heq|Hne].
    - exists []. auto.
    - pose proof Hloc as Hloc0. rewrite (Hold a Hne) in Hloc0.
      pose proof (Hfull a m Hloc0) as Hmatch. unfold serve_matches in Hmatch.
      destruct (last_replica deployments a) as [r|].
      + destruct Hmatch as (s & sm & Hm & _).
        exists [("serve", VRef s)]. split; [right; auto|].
        split; [right; exists s; reflexivity | discriminate].
      + exists []. auto. }
  destruct Hdm as (dm & Hbefore_turn & Hdm_shape & Hdm_none).
  pose proof (Hturn a m dm Hloc Hbefore_turn) as H.
  unfold serve_matches.
  destruct (last_replica deployments a) as [r|].
  - destruct H as (s & sm & Hm' & Hs' & Hrec).
    exists s, sm. split; [|split; [exact Hs' | exact Hrec]].
    rewrite Hm'. destruct Hdm_shape as [->|[s0 ->]]; reflexivity.
  - rewrite H, (Hdm_none eq_refl). reflexivity.
Qed.

Lemma actor_steps_stable (la : loc) (reply : list ActorTableData)
    (w w' : world) :
  actors_shape (objects w) la ->
  all_serve_match deployments (objects w) la ->
  for_each (actor_step json_loads ActorState_Name stable la) reply w
  = Ok (tt, w') ->
  all_serve_match deployments (objects w') la.
Proof.
  revert w. induction reply as [|e reply IH]; intros w Hshape Hfull Hrun.
  - injection Hrun as <-. exact Hfull.
  - rewrite for_each_cons in Hrun.
    destruct (actor_step _ _ _ la e w) as [[[] w1]|] eqn:Hstep;
      [|discriminate].
    destruct (actor_step_stable la e w w1 Hshape Hfull Hstep)
      as [Hshape1 Hfull1].
    apply (IH w1 Hshape1 Hfull1 Hrun).
Qed.

(** X20. When every call of [get_serve_info] made during the fetch returns
    the same deployments, the map that [get_actor_info] returns is the join
    of the actor table with them: the metadata of a listed actor on which no
    replica is placed is empty, and the metadata of every other listed actor
    holds, under [serve] alone, the record of the last replica placed on it
    in the order of the deployments: the [replica_tag] and [version] of the
    replica and the [name] of its deployment. *)
Theorem actor_info_joins_stable_snapshot
    (reply : list ActorTableData) (w w' : world) (la : loc)
    (e : ActorTableData) :
  GetAllActorInfo true 5 = Ok reply ->
  get_actor_info json_loads ActorState_Name GetAllActorInfo stable w
  = Ok (la, w') ->
  In e reply ->
  exists m,
    metadata_loc (objects w') la (Py.hex (ActorTable.actor_id e)) = Some m
    /\ serve_matches deployments (objects w') m
         (Py.hex (ActorTable.actor_id e)).
Proof.
  intros Hreply. unfold get_actor_info.
  rewrite run_bind, run_lift, Hreply, run_bind, run_alloc, run_bind.
  destruct (for_each _ reply _) as [[[] w1]|] eqn:Hloop; [|discriminate].
  intros H He. injection H as <- <-.
  pose proof (empty_actors_shape w) as Hshape0.
  assert (Hfull0 : all_serve_match deployments
                     (objects (extend w (ODict [])))
                     (List.length (objects w))).
  { intros a m H. unfold metadata_loc, dict_at, extend in H. simpl in H.
    rewrite lookup_last in H. discriminate H. }
  pose proof (actor_steps_stable _ reply _ w1 Hshape0 Hfull0 Hloop) as Hfull.
  destruct (actor_steps_inv json_loads ActorState_Name stable _ reply _ w1
              Hshape0 Hloop) as [Hshape _].
  assert (Hok : entries_ok json_loads ActorState_Name (objects w1)
                  (List.length (objects w)) ([] ++ reply)).
  { apply (actor_steps_entries json_loads ActorState_Name stable _ reply _
             w1 [] Hshape0); [|exact Hloop].
    exists []. split; [|split].
    - unfold dict_at, extend. simpl. rewrite lookup_last. reflexivity.
    - intros raw [].
    - intros a v H. discriminate H. }
  destruct Hok as (da & Hda & Hmem & _).
  specialize (Hmem e He). unfold dict_mem in Hmem.
  destruct (dict_get (Py.hex (ActorTable.actor_id e)) da) as [v|] eqn:Hv;
    [|discriminate Hmem].
  destruct Hshape as (da' & Hda' & Hentries & _).
  rewrite Hda in Hda'. injection Hda' as <-.
  destruct (Hentries _ v Hv) as (le & de & m & dm & -> & Hle & Hmd & _).
  pose proof (metadata_loc_Some _ _ _ _ _ _ _ Hda Hv Hle Hmd) as Hloc.
  exists m. split; [exact Hloc|]. apply (Hfull _ m Hloc).
Qed.

End StableSnapshot.


Lemma actor_info_joins_stable_snapshot_witness :
  (exists m,
      metadata_loc (objects example_final) 0 "a1" = Some m
      /\ serve_matches example_deployments (objects example_final) m "a1")
  /\ (exists m,
        metadata_loc (objects example_final) 0 "b2" = Some m
        /\ dict_at (objects example_final) m = Ok []).
Proof.
  assert (Hrun : get_actor_info JsonText.loads example_state_name
                   (fun _ _ => Ok example_reply)
                   (fun _ => Ok example_deployments) new_world
                 = Ok (0%nat, example_final))
    by (vm_compute; reflexivity).
  split.
  - exact (actor_info_joins_stable_snapshot JsonText.loads
             example_state_name (fun _ _ => Ok example_reply)
             example_deployments example_reply new_world example_final
             0%nat (example_actor xa1 "replica") eq_refl Hrun
             (or_intror (or_introl eq_refl))).
  - exact (actor_info_joins_stable_snapshot JsonText.loads
             example_state_name (fun _ _ => Ok example_reply)
             example_deployments example_reply new_world example_final
             0%nat (example_actor xb2 "other") eq_refl Hrun
             (or_introl eq_refl)).
Defined.
